(** * microcluster: membership store, cluster controller, tunnel dial, heartbeat

    A shallow embedding of
      - [internal/db/cluster/cluster_member.go] (module [Cluster]),
      - the [db] package file holding [DB], [Join], [NotifyUpgraded],
        [heartbeat] and [dqliteNetworkDial] (module [DB]),
      - the bootstrap branch of [Daemon.StartAPI] (module [Daemon]),
    followed by the properties proved about them.

    Conventions.  A Go [error] result is an [option error] ([None] is
    [nil]); a Go pair [(v, err)] in which exactly one side is set is a sum
    [V + error].  Calls into collaborators whose outcome the code only
    inspects (the dqlite engine, the TLS stack, the SQL driver) take their
    outcome from an explicit environment record and leave an [Event] in a
    trace, so that "what the code did before it returned" is a list one can
    compute with. *)

From Stdlib Require Import ZArith Lia Ascii String List Bool.
From stdpp Require Import base option list strings gmap.

Local Open Scope string_scope.
Local Open Scope Z_scope.
Local Open Scope list_scope.

(* ===================================================================== *)
(** * Go errors *)
(* ===================================================================== *)

(** An operand of a [fmt.Errorf] verb other than [%w]. *)
Inductive fmtarg : Type :=
| ArgString (s : string)     (* %s, %q *)
| ArgInt (n : Z).            (* %d *)

(** Error values.  [fmt.Errorf format args...] is kept symbolic: the format
    string and the printed operands; [ErrorfW] is a call whose format has a
    [%w] verb, with the error it wraps. *)
Inductive error : Type :=
| ErrGracefulAbort                       (* schema.ErrGracefulAbort *)
| ErrOther (msg : string)                (* any other collaborator error *)
| Errorf (format : string) (args : list fmtarg)
| ErrorfW (format : string) (args : list fmtarg) (wrapped : error).

Definition fmtarg_eqb (a b : fmtarg) : bool :=
  match a, b with
  | ArgString s, ArgString t => String.eqb s t
  | ArgInt n, ArgInt m => Z.eqb n m
  | _, _ => false
  end.

Fixpoint fmtargs_eqb (l1 l2 : list fmtarg) : bool :=
  match l1, l2 with
  | [], [] => true
  | a :: l1', b :: l2' => fmtarg_eqb a b && fmtargs_eqb l1' l2'
  | _, _ => false
  end.

Fixpoint error_eqb (e1 e2 : error) : bool :=
  match e1, e2 with
  | ErrGracefulAbort, ErrGracefulAbort => true
  | ErrOther a, ErrOther b => String.eqb a b
  | Errorf f1 a1, Errorf f2 a2 => String.eqb f1 f2 && fmtargs_eqb a1 a2
  | ErrorfW f1 a1 w1, ErrorfW f2 a2 w2 =>
      String.eqb f1 f2 && fmtargs_eqb a1 a2 && error_eqb w1 w2
  | _, _ => false
  end.

(** [errors.Unwrap]: only [%w] wraps. *)
Definition errors_Unwrap (e : error) : option error :=
  match e with
  | ErrorfW _ _ w => Some w
  | _ => None
  end.

(** [errors.Is err target]: [err] or an error in its [%w] chain is [target].
    For a sentinel target such as [ErrGracefulAbort] the comparison of
    values is Go's comparison of the sentinel's identity. *)
Fixpoint errors_Is (err target : error) : bool :=
  error_eqb err target ||
  match err with
  | ErrorfW _ _ e => errors_Is e target
  | _ => false
  end.

(* ===================================================================== *)
(** * The [types] package (internal/rest/types), used but not defined here *)
(* ===================================================================== *)

(** [*x509.Certificate] of the Go library, as an opaque token. *)
Definition x509_Certificate : Type := string.

(** The parsers and printers of [types] are an interface of this
    development: every definition and theorem below is generic in them. *)
Class TypesPkg : Type := {
  AddrPort : Type;
  ParseAddrPort : string -> AddrPort + error;
  AddrPort_String : AddrPort -> string;
  X509Certificate : Type;
  X509Certificate_of : x509_Certificate -> X509Certificate;
    (* the literal types.X509Certificate{Certificate: c} *)
  ParseX509Certificate : string -> X509Certificate + error;
  X509Certificate_String : X509Certificate -> string;
  MemberStatus : Type;
  MemberUnreachable : MemberStatus
}.

(** [time.Time] as nanoseconds since January 1, year 1, 00:00:00 UTC; the
    zero value [time.Time{}] is that instant. *)
Definition Time : Type := Z.
Definition zeroTime : Time := 0.

(* ===================================================================== *)
(** * internal/db/cluster/cluster_member.go *)
(* ===================================================================== *)

Module Cluster.

(** [type Role string] and [const Pending Role = "PENDING"]. *)
Definition Role : Type := string.
Definition Pending : Role := "PENDING".

(** [InternalClusterMember]: one row of [internal_cluster_members]. *)
Record InternalClusterMember : Type := {
  ID : Z;
  Name : string;
  Address : string;
  Certificate : string;
  Schema : Z;
  Heartbeat : Time;
  Role_ : Role
}.

Section ToAPI.
Context `{TP : TypesPkg}.

(** [types.ClusterMemberLocal] and [types.ClusterMember]. *)
Record ClusterMemberLocal : Type := {
  cml_Name : string;
  cml_Address : AddrPort;
  cml_Certificate : X509Certificate
}.

Record ClusterMember : Type := {
  cm_Local : ClusterMemberLocal;
  cm_Role : string;
  cm_SchemaVersion : Z;
  cm_LastHeartbeat : Time;
  cm_Status : MemberStatus
}.

Definition ToAPI (c : InternalClusterMember) : ClusterMember + error :=
  match ParseAddrPort (Address c) with
  | inr err =>
      inr (ErrorfW "Failed to parse address %q of database cluster member: %w"
                   [ArgString (Address c)] err)
  | inl address =>
      match ParseX509Certificate (Certificate c) with
      | inr err =>
          inr (ErrorfW "Failed to parse certificate of database cluster member with address %q: %w"
                       [ArgString (Address c)] err)
      | inl certificate =>
          inl {| cm_Local := {| cml_Name := Name c;
                                cml_Address := address;
                                cml_Certificate := certificate |};
                 cm_Role := Role_ c;
                 cm_SchemaVersion := Schema c;
                 cm_LastHeartbeat := Heartbeat c;
                 cm_Status := MemberUnreachable |}
      end
  end.

End ToAPI.

(** ** The two hand-written statements *)

(** Collating sequence of a TEXT column.  The [CREATE TABLE] statement of
    [internal_cluster_members] is not part of these sources, so the
    collation is a parameter; [BINARY] is what SQLite uses for a column
    declared without a [COLLATE] clause. *)
Inductive Collation : Type := BINARY | NOCASE.

(** SQLite's NOCASE folds the 26 upper case ASCII letters. *)
Definition ascii_fold (a : ascii) : ascii :=
  let n := nat_of_ascii a in
  if (Nat.leb 65 n && Nat.leb n 90)%bool then ascii_of_nat (n + 32) else a.

Fixpoint string_fold (s : string) : string :=
  match s with
  | EmptyString => EmptyString
  | String a s' => String (ascii_fold a) (string_fold s')
  end.

(** [a = b] between two TEXT values. *)
Definition sql_text_eq (coll : Collation) (a b : string) : bool :=
  match coll with
  | BINARY => String.eqb a b
  | NOCASE => String.eqb (string_fold a) (string_fold b)
  end.

(** A [*sql.Tx]: the rows of [internal_cluster_members] as the transaction
    sees them (in rowid order), the collation of the table's TEXT columns,
    and what the driver answers when it fails. *)
Record Tx : Type := {
  tx_rows : list InternalClusterMember;
  tx_coll : Collation;
  tx_exec_err : option error;           (* tx.Exec fails with this *)
  tx_rows_affected_err : option error;  (* result.RowsAffected fails *)
  tx_query_err : option error           (* query.SelectIntegers fails *)
}.

Definition set_rows (tx : Tx) (rows : list InternalClusterMember) : Tx :=
  {| tx_rows := rows; tx_coll := tx_coll tx; tx_exec_err := tx_exec_err tx;
     tx_rows_affected_err := tx_rows_affected_err tx;
     tx_query_err := tx_query_err tx |}.

Definition set_Schema (version : Z) (r : InternalClusterMember) : InternalClusterMember :=
  {| ID := ID r; Name := Name r; Address := Address r;
     Certificate := Certificate r; Schema := version;
     Heartbeat := Heartbeat r; Role_ := Role_ r |}.

(** [WHERE address=?] *)
Definition address_matches (coll : Collation) (address : string)
    (r : InternalClusterMember) : bool :=
  sql_text_eq coll (Address r) address.

(** [UPDATE internal_cluster_members SET schema=? WHERE address=?]: the
    table afterwards and the number of rows the statement changed. *)
Definition exec_update_schema (coll : Collation) (version : Z) (address : string)
    (rows : list InternalClusterMember) : list InternalClusterMember * Z :=
  (map (fun r => if address_matches coll address r then set_Schema version r else r) rows,
   Z.of_nat (length (filter (fun r => address_matches coll address r = true) rows))).

(** Number of rows [WHERE address=?] selects. *)
Definition rows_matching (coll : Collation) (address : string)
    (rows : list InternalClusterMember) : Z :=
  snd (exec_update_schema coll 0 address rows).

Definition UpdateClusterMemberSchemaVersion (tx : Tx) (version : Z) (address : string)
    : Tx * option error :=
  match tx_exec_err tx with
  | Some err => (tx, Some err)
  | None =>
      let '(rows', n) := exec_update_schema (tx_coll tx) version address (tx_rows tx) in
      let tx' := set_rows tx rows' in
      match tx_rows_affected_err tx with
      | Some err => (tx', Some err)
      | None =>
          if negb (n =? 1)
          then (tx', Some (Errorf "updated %d rows instead of 1" [ArgInt n]))
          else (tx', None)
      end
  end.

(** [WHERE NOT role='pending'] *)
Definition not_role_pending (coll : Collation) (r : InternalClusterMember) : bool :=
  negb (sql_text_eq coll (Role_ r) "pending").

(** [SELECT schema FROM internal_cluster_members WHERE NOT role='pending'] *)
Definition select_schema_not_pending (coll : Collation)
    (rows : list InternalClusterMember) : list Z :=
  map Schema (filter (fun r => not_role_pending coll r = true) rows).

Definition GetClusterMemberSchemaVersions (tx : Tx) : list Z + error :=
  match tx_query_err tx with
  | Some err => inr err
  | None => inl (select_schema_not_pending (tx_coll tx) (tx_rows tx))
  end.

(** What the UPDATE makes of one row. *)
Definition updated (coll : Collation) (version : Z) (address : string)
    (r : InternalClusterMember) : InternalClusterMember :=
  if address_matches coll address r then set_Schema version r else r.

End Cluster.

(* ===================================================================== *)
(** * Go runtime and library pieces the [db] package relies on *)
(* ===================================================================== *)

(** A call either returns or panics (nil pointer dereference). *)
Inductive go (A : Type) : Type :=
| Ret (a : A)
| Panic.
Arguments Ret {A} a.
Arguments Panic {A}.

(** ** Channels

    A channel of [struct{}] or of connections, seen from a sender that
    never blocks: its capacity, the number of values sitting in its buffer
    and the number of goroutines blocked in a receive on it. *)
Record chan : Type := {
  ch_cap : nat;
  ch_buffered : nat;
  ch_receivers : nat
}.

(** [make(chan T)] is [make_chan 0]; [make(chan T, n)] is [make_chan n]. *)
Definition make_chan (n : nat) : chan :=
  {| ch_cap := n; ch_buffered := 0; ch_receivers := 0 |}.

(** [select { case ch <- v: default: }].  The send proceeds when a receiver
    is blocked on the channel (the value is handed to it) or when the buffer
    has room; otherwise the [default] case runs.  The boolean tells whether
    the value was sent. *)
Definition select_send_default (ch : chan) : chan * bool :=
  match ch_receivers ch with
  | S r => ({| ch_cap := ch_cap ch; ch_buffered := ch_buffered ch;
               ch_receivers := r |}, true)
  | O =>
      if Nat.ltb (ch_buffered ch) (ch_cap ch)
      then ({| ch_cap := ch_cap ch; ch_buffered := S (ch_buffered ch);
               ch_receivers := O |}, true)
      else (ch, false)
  end.

(** ** [path/filepath.Base] on a slash-separated path *)

Definition is_slash (a : ascii) : bool := Ascii.eqb a "/"%char.

Fixpoint drop_slashes (l : list ascii) : list ascii :=
  match l with
  | a :: l' => if is_slash a then drop_slashes l' else l
  | [] => []
  end.

Fixpoint take_element (l : list ascii) : list ascii :=
  match l with
  | a :: l' => if is_slash a then [] else a :: take_element l'
  | [] => []
  end.

Definition filepath_Base (path : string) : string :=
  if String.eqb path "" then "."
  else
    (* strip trailing slashes, then keep what follows the last slash *)
    let stripped := drop_slashes (rev (list_ascii_of_string path)) in
    match take_element stripped with
    | [] => "/"
    | last => string_of_list_ascii (rev last)
    end.

(** ** [time] and [context] *)

(** [time.Duration]: a count of nanoseconds in an int64. *)
Definition minDuration : Z := - 2 ^ 63.
Definition maxDuration : Z := 2 ^ 63 - 1.

(** [t.Sub(u)]: the difference, or the nearest [Duration] when it does not
    fit. *)
Definition time_Sub (t u : Time) : Z :=
  let d := t - u in
  if d <? minDuration then minDuration
  else if maxDuration <? d then maxDuration
  else d.

(** [time.Until(t)] at the instant [now]. *)
Definition time_Until (now t : Time) : Z := time_Sub t now.

(** A [context.Context], as far as the dial looks at it. *)
Record Context : Type := {
  ctx_deadline : option Time
}.

Definition context_Background : Context := {| ctx_deadline := None |}.

(** [ctx.Deadline()]: without a deadline the results are the zero values. *)
Definition ctx_Deadline (ctx : Context) : Time * bool :=
  match ctx_deadline ctx with
  | Some t => (t, true)
  | None => (zeroTime, false)
  end.

(** [net.Dialer]; a zero [Timeout] means no timeout, any other value (also
    a negative one) puts the deadline of the dial at [now + Timeout]. *)
Record Dialer : Type := {
  Timeout : Z
}.

Definition dialer_deadline (d : Dialer) (now : Time) : option Time :=
  if Timeout d =? 0 then None else Some (now + Timeout d).

(** ** [net/http] *)

Definition Header : Type := gmap string (list string).

(** [h.Set(key, value)] and [h.Get(key)] for a key in canonical form. *)
Definition Header_Set (key value : string) (h : Header) : Header :=
  <[key := [value]]> h.

Definition Header_Get (key : string) (h : Header) : string :=
  match h !! key with
  | Some (v :: _) => v
  | _ => ""
  end.

Record Request : Type := {
  req_Method : string;
  req_Proto : string;
  req_ProtoMajor : Z;
  req_ProtoMinor : Z;
  req_Header : Header;
  req_Host : string;
  req_URL : string;
  req_ctx : option Context
}.

Record Response : Type := {
  StatusCode : Z;
  resp_Header : Header
}.

Definition StatusSwitchingProtocols : Z := 101.
Definition StatusUpgradeRequired : Z := 426.

(** A [net.Conn] returned by the TLS dial. *)
Record Conn : Type := {
  conn_id : Z;
  LocalAddr : string;
  RemoteAddr : string
}.

(** [*shared.CertInfo], with the result of its [PublicKeyX509] method. *)
Record CertInfo : Type := {
  ci_name : string;
  PublicKeyX509 : x509_Certificate + error
}.

(** [api.URL] *)
Record URL : Type := {
  url_Scheme : string;
  url_Host : string
}.

Definition URL_String (u : URL) : string :=
  url_Scheme u +:+ "://" +:+ url_Host u.

(** [*sys.OS], with the results of its path methods. *)
Record OS : Type := {
  StateDir : string;
  DatabaseDir : string;
  TrustDir : string;
  DatabasePath : string;
  ControlSocket : string
}.

(* ===================================================================== *)
(** * The [db] package: cluster controller, heartbeat, tunnel dial *)
(* ===================================================================== *)

Module DB.

(** [*dqlite.App], as [dqlite.New] was asked to configure it. *)
Record App : Type := {
  app_dir : string;
  app_cluster : list string;      (* dqlite.WithCluster *)
  app_address : string;           (* dqlite.WithAddress *)
  app_externalConn : bool;        (* dqlite.WithExternalConn(dialFunc, acceptCh) *)
  app_unixSocket : string         (* dqlite.WithUnixSocket *)
}.

(** [db.dqlite.Address()] *)
Definition App_Address (a : App) : string := app_address a.

(** [*cancel.Canceller]: [Err] is non-nil once [Cancel] has been called. *)
Record Canceller : Type := {
  cancelled : bool
}.

Definition cancel_New : Canceller := {| cancelled := false |}.
Definition Canceller_Cancel (c : Canceller) : Canceller := {| cancelled := true |}.
Definition Canceller_Err (c : Canceller) : option error :=
  if cancelled c then Some (ErrOther "context canceled") else None.

(** [*sql.DB] *)
Record SqlDB : Type := {
  sql_name : string;
  sql_closed : bool
}.

Definition SqlDB_Close (h : SqlDB) : SqlDB :=
  {| sql_name := sql_name h; sql_closed := true |}.

(** [type DB struct]; pointers that start out nil are options. *)
Record DB : Type := {
  clusterCert : option CertInfo;
  serverCert : option CertInfo;
  listenAddr : URL;
  dbName : string;
  os : OS;
  db : option SqlDB;
  dqlite : option App;
  acceptCh : chan;
  upgradeCh : chan;
  openCanceller : Canceller;
  ctx : Context;
  heartbeatLock : bool            (* true while the mutex is held *)
}.

Definition set_clusterCert (v : option CertInfo) (d : DB) : DB :=
  {| clusterCert := v; serverCert := serverCert d; listenAddr := listenAddr d;
     dbName := dbName d; os := os d; db := db d; dqlite := dqlite d;
     acceptCh := acceptCh d; upgradeCh := upgradeCh d;
     openCanceller := openCanceller d; ctx := ctx d;
     heartbeatLock := heartbeatLock d |}.

Definition set_db (v : option SqlDB) (d : DB) : DB :=
  {| clusterCert := clusterCert d; serverCert := serverCert d;
     listenAddr := listenAddr d; dbName := dbName d; os := os d; db := v;
     dqlite := dqlite d; acceptCh := acceptCh d; upgradeCh := upgradeCh d;
     openCanceller := openCanceller d; ctx := ctx d;
     heartbeatLock := heartbeatLock d |}.

Definition set_dqlite (v : option App) (d : DB) : DB :=
  {| clusterCert := clusterCert d; serverCert := serverCert d;
     listenAddr := listenAddr d; dbName := dbName d; os := os d; db := db d;
     dqlite := v; acceptCh := acceptCh d; upgradeCh := upgradeCh d;
     openCanceller := openCanceller d; ctx := ctx d;
     heartbeatLock := heartbeatLock d |}.

Definition set_upgradeCh (v : chan) (d : DB) : DB :=
  {| clusterCert := clusterCert d; serverCert := serverCert d;
     listenAddr := listenAddr d; dbName := dbName d; os := os d; db := db d;
     dqlite := dqlite d; acceptCh := acceptCh d; upgradeCh := v;
     openCanceller := openCanceller d; ctx := ctx d;
     heartbeatLock := heartbeatLock d |}.

Definition set_openCanceller (v : Canceller) (d : DB) : DB :=
  {| clusterCert := clusterCert d; serverCert := serverCert d;
     listenAddr := listenAddr d; dbName := dbName d; os := os d; db := db d;
     dqlite := dqlite d; acceptCh := acceptCh d; upgradeCh := upgradeCh d;
     openCanceller := v; ctx := ctx d; heartbeatLock := heartbeatLock d |}.

Definition set_heartbeatLock (v : bool) (d : DB) : DB :=
  {| clusterCert := clusterCert d; serverCert := serverCert d;
     listenAddr := listenAddr d; dbName := dbName d; os := os d; db := db d;
     dqlite := dqlite d; acceptCh := acceptCh d; upgradeCh := upgradeCh d;
     openCanceller := openCanceller d; ctx := ctx d; heartbeatLock := v |}.

Inductive LogLevel : Type := Debug | Warn | Error.

(** What a call did to the world outside the [DB] struct. *)
Inductive Event : Type :=
| EvDqliteNew (app : App) (cert : option CertInfo)
    (* dqlite.New with these options, while db.clusterCert was [cert] *)
| EvOpen (bootstrap : bool)                 (* db.Open(bootstrap) *)
| EvDBClose                                 (* db.db.Close() *)
| EvLog (level : LogLevel) (msg : string)
| EvLock                                    (* db.heartbeatLock.Lock() *)
| EvUnlock
| EvLeader                                  (* db.dqlite.Leader(ctx) *)
| EvLeaderInfo                              (* leaderClient.Leader(ctx) *)
| EvClientNew (socket : string)             (* client.New(ControlSocket, ...) *)
| EvHeartbeat (beginRound : bool)           (* client.Heartbeat(ctx, info) *)
| EvTLSDial (addr : string) (dialer : Dialer)
| EvExtractConn (c : Conn)
| EvSetTimeouts (c : Conn)
| EvRequestWrite (c : Conn) (r : Request)
| EvReadResponse (c : Conn)
| EvBodyClose
| EvConnClose (c : Conn)
| EvGoHeartbeat.                            (* go db.heartbeat(db.ctx) *)

(** [NewDB]. *)
Definition NewDB (serverCert : option CertInfo) (os : OS) (listenAddr : URL) : DB :=
  {| clusterCert := None;
     serverCert := serverCert;
     listenAddr := listenAddr;
     dbName := filepath_Base (DatabasePath os);
     os := os;
     db := None;
     dqlite := None;
     acceptCh := make_chan 0;
     upgradeCh := make_chan 0;
     openCanceller := cancel_New;
     ctx := context_Background;
     heartbeatLock := false |}.

(** What the collaborators answer during one pass through [Bootstrap] or
    one iteration of [Join]'s loop. *)
Record Attempt : Type := {
  att_getenv : string;            (* os.Getenv(sys.DqliteSocket) *)
  att_new : option error;         (* error of dqlite.New *)
  att_open : option error;        (* error of db.Open *)
  att_close : option error        (* error of db.db.Close() *)
}.

(** Modelled from the spec: [DB.Open] is a method of this package whose
    file is not among the sources.  The spec says that the handle becomes
    open (its open signal is resolved) exactly when opening succeeds, that
    a graceful-restart failure leaves a partially-opened local handle
    behind for [Join] to close, and that any other failure leaves nothing
    open.  The error it returns is the collaborator's answer [outcome]. *)
Definition Open (outcome : option error) (bootstrap : bool) (d : DB)
    (tr : list Event) : DB * list Event * option error :=
  let tr' := tr ++ [EvOpen bootstrap] in
  let handle := {| sql_name := dbName d; sql_closed := false |} in
  match outcome with
  | None =>
      (set_openCanceller (Canceller_Cancel (openCanceller d))
         (set_db (Some handle) d), tr', None)
  | Some err =>
      if errors_Is err ErrGracefulAbort
      then (set_db (Some handle) d, tr', Some err)
      else (d, tr', Some err)
  end.

(** [DB.Bootstrap]. *)
Definition Bootstrap (att : Attempt) (d : DB) (cert : option CertInfo)
    (tr : list Event) : DB * list Event * option error :=
  let d1 := set_clusterCert cert d in
  let app := {| app_dir := DatabaseDir (os d1);
                app_cluster := [];
                app_address := url_Host (listenAddr d1);
                app_externalConn := true;
                app_unixSocket := att_getenv att |} in
  let tr1 := tr ++ [EvDqliteNew app (clusterCert d1)] in
  match att_new att with
  | Some err =>
      (set_dqlite None d1, tr1, Some (ErrorfW "Failed to bootstrap dqlite: %w" [] err))
  | None => Open (att_open att) true (set_dqlite (Some app) d1) tr1
  end.

(** [DB.Join].  The [for] loop has no bound; each iteration consumes one
    [Attempt] of the script, and the result is [None] when the script ends
    while the loop is still going round. *)
Fixpoint Join (script : list Attempt) (d : DB) (cert : option CertInfo)
    (joinAddresses : list string) (tr : list Event)
    : option (go (option error) * DB * list Event) :=
  match script with
  | [] => None
  | att :: script' =>
      let d1 := set_clusterCert cert d in
      let app := {| app_dir := DatabaseDir (os d1);
                    app_cluster := joinAddresses;
                    app_address := url_Host (listenAddr d1);
                    app_externalConn := true;
                    app_unixSocket := att_getenv att |} in
      let tr1 := tr ++ [EvDqliteNew app (clusterCert d1)] in
      match att_new att with
      | Some err =>
          Some (Ret (Some (ErrorfW "Failed to join dqlite cluster %w" [] err)),
                set_dqlite None d1, tr1)
      | None =>
          let '(d2, tr2, err) := Open (att_open att) false (set_dqlite (Some app) d1) tr1 in
          match err with
          | None => Some (Ret None, d2, tr2)      (* break; return nil *)
          | Some err =>
              if errors_Is err ErrGracefulAbort then
                let tr3 := tr2 ++ [EvLog Debug "Closing database after upgrade notification"] in
                match db d2 with
                | None => Some (Panic, d2, tr3)
                | Some h =>
                    let d3 := set_db (Some (SqlDB_Close h)) d2 in
                    let tr4 := tr3 ++ [EvDBClose] in
                    let tr5 := match att_close att with
                               | Some _ => tr4 ++ [EvLog Error "Failed to close database"]
                               | None => tr4
                               end in
                    Join script' d3 cert joinAddresses tr5   (* continue *)
                end
              else Some (Ret (Some err), d2, tr2)
          end
      end
  end.

(** [DB.StartWithCluster]; the addresses come in the order in which the map
    is ranged over. *)
Definition StartWithCluster `{TP : TypesPkg} (script : list Attempt) (d : DB)
    (clusterMembers : list (string * AddrPort)) (cert : option CertInfo)
    (tr : list Event) : option (go (option error) * DB * list Event) :=
  Join script d cert (map (fun kv => AddrPort_String (snd kv)) clusterMembers) tr.

(** [DB.IsOpen]; the receiver may be nil. *)
Definition IsOpen (d : option DB) : bool :=
  match d with
  | None => false
  | Some d =>
      match Canceller_Err (openCanceller d) with
      | Some _ => true
      | None => false
      end
  end.

(** [DB.NotifyUpgraded]. *)
Definition NotifyUpgraded (d : DB) : DB :=
  set_upgradeCh (fst (select_send_default (upgradeCh d))) d.

(** Number of notifications waiting in [upgradeCh] for a consumer. *)
Definition pending_notifications (d : DB) : nat := ch_buffered (upgradeCh d).

(** ** Heartbeat *)

(** [dqliteClient.NodeInfo] *)
Record NodeInfo : Type := {
  ni_ID : Z;
  ni_Address : string
}.

(** [types.HeartbeatInfo] *)
Record HeartbeatInfo : Type := {
  BeginRound : bool
}.

(** What the collaborators answer during one [heartbeat]. *)
Record HbEnv : Type := {
  hb_Leader : option error;            (* error of db.dqlite.Leader(ctx) *)
  hb_LeaderInfo : NodeInfo + error;    (* leaderClient.Leader(ctx) *)
  hb_clientNew : option error;         (* error of client.New *)
  hb_Heartbeat : option error          (* error of client.Heartbeat *)
}.

(** How an invocation ends: it returns, it is parked in [Lock] because the
    mutex is held, or it panics on a nil engine pointer. *)
Inductive Outcome : Type := Returned | Blocked | Panicked.

(** The statements of [heartbeat] that run with the lock held. *)
Definition heartbeat_locked (env : HbEnv) (d : DB) (tr : list Event)
    : Outcome * list Event :=
  match dqlite d with
  | None => (Panicked, tr)
  | Some app =>
      let tr1 := tr ++ [EvLeader] in
      match hb_Leader env with
      | Some err => (Returned, tr1 ++ [EvLog Error "Failed to get dqlite leader"])
      | None =>
          let tr2 := tr1 ++ [EvLeaderInfo] in
          match hb_LeaderInfo env with
          | inr err => (Returned, tr2 ++ [EvLog Error "Failed to get dqlite leader info"])
          | inl leaderInfo =>
              (* Only send heartbeats from the leader. *)
              if negb (String.eqb (ni_Address leaderInfo) (App_Address app))
              then (Returned, tr2)
              else
                let tr3 := tr2 ++ [EvClientNew (ControlSocket (os d))] in
                match hb_clientNew env with
                | Some err => (Returned, tr3 ++ [EvLog Error "Failed to get local client"])
                | None =>
                    let tr4 := tr3 ++ [EvHeartbeat (BeginRound {| BeginRound := true |})] in
                    match hb_Heartbeat env with
                    | Some err =>
                        (Returned, tr4 ++ [EvLog Error "Failed to initiate heartbeat round"])
                    | None => (Returned, tr4)
                    end
                end
          end
      end
  end.

(** [DB.heartbeat]; the deferred [Unlock] runs however the body ends. *)
Definition heartbeat (env : HbEnv) (d : DB) (tr : list Event)
    : Outcome * DB * list Event :=
  if negb (IsOpen (Some d))
  then (Returned, d, tr ++ [EvLog Debug "Database is not yet open, aborting heartbeat"])
  else if heartbeatLock d
  then (Blocked, d, tr)
  else
    let d1 := set_heartbeatLock true d in
    let '(o, tr1) := heartbeat_locked env d1 (tr ++ [EvLock]) in
    (o, set_heartbeatLock false d1, tr1 ++ [EvUnlock]).

(** ** The heartbeat, one statement at a time

    The same function as a transition system, for invocations that run as
    goroutines on one handle: a program counter per invocation, and the
    mutex and the trace shared between them. *)

Inductive Pc : Type :=
| PcStart                  (* before [if !db.IsOpen()] *)
| PcLock                   (* before [db.heartbeatLock.Lock()] *)
| PcLeader                 (* lock held, before [db.dqlite.Leader(ctx)] *)
| PcLeaderInfo             (* before [leaderClient.Leader(ctx)] *)
| PcGate (info : NodeInfo) (* before the comparison of the addresses *)
| PcClientNew              (* before [client.New] *)
| PcInstruct               (* before [client.Heartbeat] *)
| PcUnlock (o : Outcome)   (* body over, the deferred [Unlock] is next *)
| PcDone (o : Outcome).

Record Shared : Type := {
  sh_lock : bool;
  sh_trace : list Event
}.

Definition sh_emit (evs : list Event) (sh : Shared) : Shared :=
  {| sh_lock := sh_lock sh; sh_trace := sh_trace sh ++ evs |}.

(** One statement of one invocation; [None] when the invocation cannot
    move: it is over, or it waits for the mutex. *)
Definition thread_step (env : HbEnv) (d : DB) (pc : Pc) (sh : Shared)
    : option (Pc * Shared) :=
  match pc with
  | PcStart =>
      if negb (IsOpen (Some d))
      then Some (PcDone Returned,
                 sh_emit [EvLog Debug "Database is not yet open, aborting heartbeat"] sh)
      else Some (PcLock, sh)
  | PcLock =>
      if sh_lock sh then None
      else Some (PcLeader, {| sh_lock := true; sh_trace := sh_trace sh ++ [EvLock] |})
  | PcLeader =>
      match dqlite d with
      | None => Some (PcUnlock Panicked, sh)
      | Some _ =>
          match hb_Leader env with
          | Some _ =>
              Some (PcUnlock Returned,
                    sh_emit [EvLeader; EvLog Error "Failed to get dqlite leader"] sh)
          | None => Some (PcLeaderInfo, sh_emit [EvLeader] sh)
          end
      end
  | PcLeaderInfo =>
      match hb_LeaderInfo env with
      | inr _ =>
          Some (PcUnlock Returned,
                sh_emit [EvLeaderInfo; EvLog Error "Failed to get dqlite leader info"] sh)
      | inl info => Some (PcGate info, sh_emit [EvLeaderInfo] sh)
      end
  | PcGate info =>
      match dqlite d with
      | None => Some (PcUnlock Panicked, sh)
      | Some app =>
          if negb (String.eqb (ni_Address info) (App_Address app))
          then Some (PcUnlock Returned, sh)
          else Some (PcClientNew, sh)
      end
  | PcClientNew =>
      match hb_clientNew env with
      | Some _ =>
          Some (PcUnlock Returned,
                sh_emit [EvClientNew (ControlSocket (os d));
                         EvLog Error "Failed to get local client"] sh)
      | None => Some (PcInstruct, sh_emit [EvClientNew (ControlSocket (os d))] sh)
      end
  | PcInstruct =>
      match hb_Heartbeat env with
      | Some _ =>
          Some (PcUnlock Returned,
                sh_emit [EvHeartbeat true;
                         EvLog Error "Failed to initiate heartbeat round"] sh)
      | None => Some (PcUnlock Returned, sh_emit [EvHeartbeat true] sh)
      end
  | PcUnlock o =>
      Some (PcDone o, {| sh_lock := false; sh_trace := sh_trace sh ++ [EvUnlock] |})
  | PcDone _ => None
  end.

(** The invocations in flight, each with its collaborators' answers. *)
Definition Threads : Type := list (HbEnv * Pc).

(** Invocation [i] takes a step, if it can. *)
Definition system_step (d : DB) (i : nat) (st : Threads * Shared)
    : option (Threads * Shared) :=
  match fst st !! i with
  | Some (env, pc) =>
      match thread_step env d pc (snd st) with
      | Some (pc', sh') => Some (<[i := (env, pc')]> (fst st), sh')
      | None => None
      end
  | None => None
  end.

(** A schedule names the invocation to move at each turn; a turn given to
    an invocation that cannot move is lost. *)
Fixpoint run (d : DB) (schedule : list nat) (st : Threads * Shared)
    : Threads * Shared :=
  match schedule with
  | [] => st
  | i :: schedule' =>
      match system_step d i st with
      | Some st' => run d schedule' st'
      | None => run d schedule' st
      end
  end.

(** All invocations at their first statement, the mutex free. *)
Definition spawn (envs : list HbEnv) (tr : list Event) : Threads * Shared :=
  (map (fun env => (env, PcStart)) envs, {| sh_lock := false; sh_trace := tr |}).

Definition is_done (t : HbEnv * Pc) : bool :=
  match snd t with PcDone _ => true | _ => false end.

(** The invocation is between [Lock] and [Unlock]. *)
Definition holds_lock (pc : Pc) : bool :=
  match pc with
  | PcStart | PcLock | PcDone _ => false
  | _ => true
  end.

(** ** Tunnel dial *)

(** [revert.Reverter] (lxd): the hooks added so far.  The only hook this
    package adds closes a connection. *)
Inductive Hook : Type :=
| HookConnClose (c : Conn).

Definition run_hook (tr : list Event) (h : Hook) : list Event :=
  match h with
  | HookConnClose c => tr ++ [EvConnClose c]
  end.

Record DialState : Type := {
  reverter : list Hook;
  trace : list Event
}.

Definition log (l : LogLevel) (msg : string) (s : DialState) : DialState :=
  {| reverter := reverter s; trace := trace s ++ [EvLog l msg] |}.

Definition emit (e : Event) (s : DialState) : DialState :=
  {| reverter := reverter s; trace := trace s ++ [e] |}.

Definition revert_Add (h : Hook) (s : DialState) : DialState :=
  {| reverter := reverter s ++ [h]; trace := trace s |}.

(** [Fail] runs the hooks, last added first. *)
Definition revert_Fail (s : DialState) : DialState :=
  {| reverter := reverter s;
     trace := fold_left run_hook (rev (reverter s)) (trace s) |}.

(** [Success] forgets the hooks. *)
Definition revert_Success (s : DialState) : DialState :=
  {| reverter := []; trace := trace s |}.

(** The two [defer] statements of [dqliteNetworkDial]. *)
Inductive Deferred : Type :=
| DeferRevertFail        (* defer revert.Fail() *)
| DeferBodyClose.        (* defer response.Body.Close() *)

Definition run_deferred (s : DialState) (d : Deferred) : DialState :=
  match d with
  | DeferRevertFail => revert_Fail s
  | DeferBodyClose => emit EvBodyClose s
  end.

(** [return r] with the deferred calls [defers] pending, the one deferred
    last at the head: they run in that order before the caller sees [r]. *)
Definition return_ {A : Type} (defers : list Deferred) (s : DialState) (r : A)
    : go (A * list Event) :=
  Ret (r, trace (fold_left run_deferred defers s)).

(** What the collaborators answer during one dial. *)
Record DialEnv : Type := {
  de_now : Time;                        (* the clock when the dialer is built *)
  de_TLSClientConfig : option error;    (* error of client.TLSClientConfig *)
  de_urlParse : option error;           (* error of url.Parse *)
  de_tlsDial : Conn + error;            (* tls.DialWithDialer *)
  de_ExtractConn : option error;        (* error of tcp.ExtractConn *)
  de_SetTimeouts : option error;        (* error of tcp.SetTimeouts *)
  de_requestWrite : option error;       (* error of request.Write(conn) *)
  de_ReadResponse : Response + error    (* http.ReadResponse *)
}.

(** The dialer the function builds: [deadline, _ := ctx.Deadline()] and
    [&net.Dialer{Timeout: time.Until(deadline)}]. *)
Definition dial_dialer (now : Time) (ctx : Context) : Dialer :=
  let '(deadline, _) := ctx_Deadline ctx in
  {| Timeout := time_Until now deadline |}.

(** [fmt.Sprintf("https://%s%s", addr, "/cluster/internal/database")] *)
Definition dial_path (addr : string) : string :=
  "https://" +:+ addr +:+ "/cluster/internal/database".

(** The request the function sends: the struct literal, then its URL, the
    two headers and the context. *)
Definition dial_request (ctx : Context) (addr : string) : Request :=
  {| req_Method := "POST"; req_Proto := "HTTP/1.1";
     req_ProtoMajor := 1; req_ProtoMinor := 1;
     req_Header := Header_Set "X-Dqlite-Version" "1" (Header_Set "Upgrade" "dqlite" ∅);
     req_Host := addr; req_URL := dial_path addr; req_ctx := Some ctx |}.

(** [dqliteNetworkDial]. *)
Definition dqliteNetworkDial (env : DialEnv) (ctx : Context) (addr : string)
    (d : DB) (tr : list Event) : go ((Conn + error) * list Event) :=
  match clusterCert d with
  | None => Panic
  | Some cert =>
  match PublicKeyX509 cert with
  | inr err => Ret (inr err, tr)
  | inl peerCert =>
  match de_TLSClientConfig env with
  | Some err => Ret (inr (ErrorfW "Failed to parse TLS config: %w" [] err), tr)
  | None =>
  let path := dial_path addr in
  match de_urlParse env with
  | Some err => Ret (inr err, tr)
  | None =>
  let request := dial_request ctx addr in
  let s0 := {| reverter := []; trace := tr |} in
  let defers := [DeferRevertFail] in
  let dialer := dial_dialer (de_now env) ctx in
  let s1 := emit (EvTLSDial addr dialer) s0 in
  match de_tlsDial env with
  | inr err =>
      return_ defers s1
        (inr (ErrorfW "Failed connecting to HTTP endpoint %q: %w" [ArgString addr] err))
  | inl conn =>
  let s2 := revert_Add (HookConnClose conn) s1 in
  let s3 := log Debug "Dqlite connected outbound" s2 in
  (* Set outbound timeouts. *)
  let s4 := emit (EvExtractConn conn) s3 in
  let s5 :=
    match de_ExtractConn env with
    | Some _ => log Error "Failed extracting TCP connection from remote connection" s4
    | None =>
        let s := emit (EvSetTimeouts conn) s4 in
        match de_SetTimeouts env with
        | Some _ => log Error "Failed setting TCP timeouts on remote connection" s
        | None => s
        end
    end in
  let s6 := emit (EvRequestWrite conn request) s5 in
  match de_requestWrite env with
  | Some err =>
      return_ defers s6
        (inr (ErrorfW "Failed sending HTTP requrest to %q: %w" [ArgString path] err))
  | None =>
  let s7 := emit (EvReadResponse conn) s6 in
  match de_ReadResponse env with
  | inr err =>
      return_ defers s7 (inr (ErrorfW "Failed to read response: %w" [] err))
  | inl response =>
  let defers := DeferBodyClose :: defers in
  if StatusCode response =? StatusUpgradeRequired
  then return_ defers s7 (inr (Errorf "Upgrade needed" []))
  else if negb (StatusCode response =? StatusSwitchingProtocols)
  then return_ defers s7
         (inr (Errorf "Dialing failed: expected status code 101 got %d"
                      [ArgInt (StatusCode response)]))
  else if negb (String.eqb (Header_Get "Upgrade" (resp_Header response)) "dqlite")
  then return_ defers s7
         (inr (Errorf "Missing or unexpected Upgrade header in response" []))
  else return_ defers (revert_Success s7) (inl conn)
  end end end end end end end.

(** The function [DB.dialFunc] hands to dqlite. *)
Definition dialFunc (env : DialEnv) (d : DB) (ctx : Context) (address : string)
    (tr : list Event) : go ((Conn + error) * list Event) :=
  match dqliteNetworkDial env ctx address d tr with
  | Panic => Panic
  | Ret (inr err, tr') =>
      Ret (inr (ErrorfW "Failed to dial https socket: %w" [] err), tr')
  | Ret (inl conn, tr') => Ret (inl conn, tr' ++ [EvGoHeartbeat])
  end.

(** ** Vocabulary for statements about traces *)

(** The engine configuration [Join] asks for on a handle [d]. *)
Definition join_app (d : DB) (joinAddresses : list string) (att : Attempt) : App :=
  {| app_dir := DatabaseDir (os d);
     app_cluster := joinAddresses;
     app_address := url_Host (listenAddr d);
     app_externalConn := true;
     app_unixSocket := att_getenv att |}.

(** An iteration in which the engine starts and [Open] fails with the
    graceful-restart condition. *)
Definition graceful_restart (att : Attempt) : bool :=
  match att_new att, att_open att with
  | None, Some err => errors_Is err ErrGracefulAbort
  | _, _ => false
  end.

(** An iteration in which the engine starts and [Open] succeeds or fails
    with anything else. *)
Definition terminal (att : Attempt) : bool :=
  match att_new att, att_open att with
  | None, None => true
  | None, Some err => negb (errors_Is err ErrGracefulAbort)
  | _, _ => false
  end.

Definition is_close (e : Event) : bool :=
  match e with EvDBClose => true | _ => false end.

Definition is_open (e : Event) : bool :=
  match e with EvOpen _ => true | _ => false end.

Definition is_new (e : Event) : bool :=
  match e with EvDqliteNew _ _ => true | _ => false end.

Definition is_instruction (e : Event) : bool :=
  match e with EvHeartbeat _ => true | _ => false end.

Definition is_client (e : Event) : bool :=
  match e with EvClientNew _ => true | _ => false end.

Definition is_conn_close (c : Conn) (e : Event) : bool :=
  match e with EvConnClose c' => conn_id c' =? conn_id c | _ => false end.

Definition count (p : Event -> bool) (tr : list Event) : nat :=
  length (List.filter p tr).

(** The events of one graceful-restart iteration of [Join]. *)
Definition restart_events (d : DB) (cert : option CertInfo)
    (joinAddresses : list string) (att : Attempt) : list Event :=
  [EvDqliteNew (join_app d joinAddresses att) cert;
   EvOpen false;
   EvLog Debug "Closing database after upgrade notification";
   EvDBClose] ++
  match att_close att with
  | Some _ => [EvLog Error "Failed to close database"]
  | None => []
  end.

(** The handle after one graceful-restart iteration of [Join]. *)
Definition restart_state (d : DB) (cert : option CertInfo)
    (joinAddresses : list string) (att : Attempt) : DB :=
  set_db (Some {| sql_name := dbName d; sql_closed := true |})
    (set_dqlite (Some (join_app d joinAddresses att)) (set_clusterCert cert d)).

(** A node is not the leader when the address the leader reports for itself
    is not the address of the local engine. *)
Definition non_leader (env : HbEnv) (d : DB) : Prop :=
  forall app info,
    dqlite d = Some app -> hb_LeaderInfo env = inl info ->
    ni_Address info <> App_Address app.

(** Neither an instruction nor a control-plane client in the trace. *)
Definition silent (tr : list Event) : Prop :=
  Forall (fun e => is_instruction e = false /\ is_client e = false) tr.

(** Where a non-leader can be in the function: before the gate, at the gate
    with the leader's answer in hand, or past it on the way out. *)
Definition before_gate (env : HbEnv) (pc : Pc) : Prop :=
  match pc with
  | PcClientNew | PcInstruct => False
  | PcGate info => hb_LeaderInfo env = inl info
  | PcUnlock o | PcDone o => o = Returned
  | _ => True
  end.

(** Statements an invocation still has to run, at most. *)
Definition steps_left (pc : Pc) : nat :=
  match pc with
  | PcStart => 8 | PcLock => 7 | PcLeader => 6 | PcLeaderInfo => 5
  | PcGate _ => 4 | PcClientNew => 3 | PcInstruct => 2 | PcUnlock _ => 1
  | PcDone _ => 0
  end.

Definition total_steps_left (ths : Threads) : nat :=
  foldr (fun t acc => (steps_left (snd t) + acc)%nat) 0%nat ths.

(** How many invocations are between [Lock] and [Unlock]. *)
Definition holders (ths : Threads) : nat :=
  length (List.filter (fun t => holds_lock (snd t)) ths).

(** The mutex is held exactly when one invocation is inside. *)
Definition lock_inv (st : Threads * Shared) : Prop :=
  holders (fst st) = if sh_lock (snd st) then 1%nat else 0%nat.

(** The dial got as far as an established TLS connection [conn]. *)
Definition connected (env : DialEnv) (d : DB) (conn : Conn) : Prop :=
  exists cert peer,
    clusterCert d = Some cert /\ PublicKeyX509 cert = inl peer /\
    de_TLSClientConfig env = None /\ de_urlParse env = None /\
    de_tlsDial env = inl conn.

(** The request was written and the peer answered 101 with
    [Upgrade: dqlite]. *)
Definition exchange_ok (env : DialEnv) : bool :=
  match de_requestWrite env, de_ReadResponse env with
  | None, inl response =>
      (StatusCode response =? StatusSwitchingProtocols) &&
      String.eqb (Header_Get "Upgrade" (resp_Header response)) "dqlite"
  | _, _ => false
  end.

(** The request was written and the peer answered 426. *)
Definition upgrade_required (env : DialEnv) : bool :=
  match de_requestWrite env, de_ReadResponse env with
  | None, inl response => StatusCode response =? StatusUpgradeRequired
  | _, _ => false
  end.

(** The node would originate a round: the handle is open, the leader and
    its identity resolve, the leader's address is the engine's own, and the
    control-plane client can be created. *)
Definition leads (env : HbEnv) (d : DB) : bool :=
  IsOpen (Some d) &&
  match dqlite d, hb_Leader env, hb_LeaderInfo env with
  | Some app, None, inl info =>
      String.eqb (ni_Address info) (App_Address app) &&
      match hb_clientNew env with None => true | Some _ => false end
  | _, _, _ => false
  end.

Definition is_lock (e : Event) : bool :=
  match e with EvLock => true | _ => false end.

Definition is_unlock (e : Event) : bool :=
  match e with EvUnlock => true | _ => false end.

Definition is_spawn (e : Event) : bool :=
  match e with EvGoHeartbeat => true | _ => false end.

(** Events on an established connection. *)
Definition on_connection (e : Event) : bool :=
  match e with
  | EvExtractConn _ | EvSetTimeouts _ | EvRequestWrite _ _ | EvReadResponse _
  | EvBodyClose | EvConnClose _ => true
  | _ => false
  end.

(** The same collaborators, with other answers from [tcp.ExtractConn] and
    [tcp.SetTimeouts]. *)
Definition with_timeouts (e1 e2 : option error) (env : DialEnv) : DialEnv :=
  {| de_now := de_now env;
     de_TLSClientConfig := de_TLSClientConfig env;
     de_urlParse := de_urlParse env;
     de_tlsDial := de_tlsDial env;
     de_ExtractConn := e1;
     de_SetTimeouts := e2;
     de_requestWrite := de_requestWrite env;
     de_ReadResponse := de_ReadResponse env |}.

(** The result of a call, without its trace. *)
Definition result_of {A : Type} (r : go (A * list Event)) : go A :=
  match r with
  | Ret (a, _) => Ret a
  | Panic => Panic
  end.

(** Instructions an invocation may still issue: one until it has gone
    past [client.Heartbeat] or left the function. *)
Definition to_instruct (pc : Pc) : nat :=
  match pc with
  | PcUnlock _ | PcDone _ => 0
  | _ => 1
  end.

Definition total_to_instruct (ths : Threads) : nat :=
  foldr (fun t acc => (to_instruct (snd t) + acc)%nat) 0%nat ths.

(** An invocation of a leading node, consistent with its collaborators. *)
Definition leading (d : DB) (t : HbEnv * Pc) : Prop :=
  leads (fst t) d = true /\
  match snd t with
  | PcGate info => hb_LeaderInfo (fst t) = inl info
  | PcUnlock o | PcDone o => o = Returned
  | _ => True
  end.

(** The error the dial reports for status 426. *)
Definition upgrade_needed : error := Errorf "Upgrade needed" [].

End DB.

(* ===================================================================== *)
(** * The daemon: bootstrapping the first node *)
(* ===================================================================== *)

Module Daemon.

Import Cluster.

(** [type Daemon struct], the fields [StartAPI] reads and writes. *)
Record Daemon : Type := {
  d_Address : URL;
  d_os : OS;
  d_serverCert : option CertInfo;
  d_clusterCert : option CertInfo;
  d_db : option DB.DB
}.

Definition set_d_clusterCert (v : option CertInfo) (d : Daemon) : Daemon :=
  {| d_Address := d_Address d; d_os := d_os d; d_serverCert := d_serverCert d;
     d_clusterCert := v; d_db := d_db d |}.

Definition set_d_db (v : option DB.DB) (d : Daemon) : Daemon :=
  {| d_Address := d_Address d; d_os := d_os d; d_serverCert := d_serverCert d;
     d_clusterCert := d_clusterCert d; d_db := v |}.

(** [d.ClusterCert()] *)
Definition ClusterCert (d : Daemon) : option CertInfo := d_clusterCert d.

(** The world outside the daemon struct: the rows of the replicated
    [internal_cluster_members] table and what the [db] package did. *)
Record World : Type := {
  w_members : list InternalClusterMember;
  w_trace : list DB.Event
}.

(** What the collaborators answer during one [StartAPI]. *)
Record StartEnv : Type := {
  se_remotesAdd : option error;           (* error of trustStore.Remotes().Add *)
  se_LoadClusterCert : CertInfo + error;  (* util.LoadClusterCert *)
  se_endpointsAdd : option error;         (* error of d.endpoints.Add *)
  se_bootstrap : DB.Attempt;              (* the engine, during db.Bootstrap *)
  se_Refresh : option error;              (* error of d.trustStore.Refresh *)
  se_schemaVersion : Z;                   (* update.Schema().Version() *)
  se_coll : Collation;                    (* collation of the table's TEXT columns *)
  se_exec_err : option error;             (* the driver failing a statement *)
  se_commit_err : option error            (* the driver failing the commit *)
}.

(** AUTOINCREMENT: one more than the largest id in use. *)
Definition next_id (rows : list InternalClusterMember) : Z :=
  1 + fold_right (fun r acc => Z.max (ID r) acc) 0 rows.

(** Modelled from the spec: [CreateClusterMember] is generated by the
    mapper and not among the sources.  Per the spec's data model it adds
    one row, with an engine-assigned [id], and [address] and [name] are
    unique in the table.  [StartAPI] calls the row struct
    [cluster.ClusterMember]; its fields are those of
    [InternalClusterMember], which is the record used here. *)
Definition CreateClusterMember (tx : Tx) (m : InternalClusterMember)
    : Tx * (Z + error) :=
  match tx_exec_err tx with
  | Some err => (tx, inr err)
  | None =>
      if existsb (fun r => sql_text_eq (tx_coll tx) (Address r) (Address m)
                           || sql_text_eq (tx_coll tx) (Name r) (Name m))
                 (tx_rows tx)
      then (tx, inr (ErrOther "This cluster member already exists"))
      else
        let id := next_id (tx_rows tx) in
        let row := {| ID := id; Name := Name m; Address := Address m;
                      Certificate := Certificate m; Schema := Schema m;
                      Heartbeat := Heartbeat m; Role_ := Role_ m |} in
        (set_rows tx (tx_rows tx ++ [row]), inl id)
  end.

(** Modelled from the spec: [DB.Transaction] is a method of the [db]
    package whose file is not among the sources.  Per the spec the
    controller owns the transaction boundary: the writes of [f] become
    visible when [f] returns nil and the commit succeeds, and none of them
    otherwise. *)
Definition Transaction (env : StartEnv) (rows : list InternalClusterMember)
    (f : Tx -> Tx * option error) : list InternalClusterMember * option error :=
  let tx := {| tx_rows := rows; tx_coll := se_coll env;
               tx_exec_err := se_exec_err env;
               tx_rows_affected_err := None; tx_query_err := None |} in
  let '(tx', err) := f tx in
  match err with
  | Some e => (rows, Some e)
  | None =>
      match se_commit_err env with
      | Some e => (rows, Some e)
      | None => (tx_rows tx', None)
      end
  end.

Section StartAPI.
Context `{TP : TypesPkg}.

(** [trust.Remote] *)
Record Remote : Type := {
  r_Name : string;
  r_Address : AddrPort;
  r_Certificate : X509Certificate
}.

(** [Daemon.StartAPI(true)]: the function with [bootstrap] true.  The
    [if bootstrap] block ends in [return err], so nothing of the join path
    below it runs. *)
Definition StartAPI_bootstrap (env : StartEnv) (d : Daemon) (w : World)
    : go (Daemon * World * option error) :=
  match ParseAddrPort (url_Host (d_Address d)) with
  | inr err =>
      Ret (d, w, Some (ErrorfW "Failed to parse listen address when bootstrapping API: %w" [] err))
  | inl addr =>
  match d_serverCert d with
  | None => Panic
  | Some sc =>
  match PublicKeyX509 sc with
  | inr err =>
      Ret (d, w, Some (ErrorfW "Failed to parse server certificate when bootstrapping API: %w" [] err))
  | inl serverCert =>
  let localNode := {| r_Name := filepath_Base (StateDir (d_os d));
                      r_Address := addr;
                      r_Certificate := X509Certificate_of serverCert |} in
  match se_remotesAdd env with
  | Some err =>
      Ret (d, w, Some (ErrorfW "Failed to initialize local remote entry: %w" [] err))
  | None =>
  match se_LoadClusterCert env with
  | inr err => Ret (set_d_clusterCert None d, w, Some err)
  | inl cert =>
  let d1 := set_d_clusterCert (Some cert) d in
  match se_endpointsAdd env with
  | Some err => Ret (d1, w, Some err)
  | None =>
  (* If bootstrapping the first node, just open the database and create an
     entry for ourselves. *)
  match d_db d1 with
  | None => Panic
  | Some database =>
  let '(database', tr, err) :=
    DB.Bootstrap (se_bootstrap env) database (ClusterCert d1) (w_trace w) in
  let d2 := set_d_db (Some database') d1 in
  let w1 := {| w_members := w_members w; w_trace := tr |} in
  match err with
  | Some err => Ret (d2, w1, Some err)
  | None =>
  match se_Refresh env with
  | Some err => Ret (d2, w1, Some err)
  | None =>
  let '(rows, err) :=
    Transaction env (w_members w1) (fun tx =>
      let clusterMember :=
        {| ID := 0;
           Name := r_Name localNode;
           Address := AddrPort_String (r_Address localNode);
           Certificate := X509Certificate_String (r_Certificate localNode);
           Schema := se_schemaVersion env;
           Heartbeat := zeroTime;
           Role_ := Pending |} in
      let '(tx', r) := CreateClusterMember tx clusterMember in
      (tx', match r with inl _ => None | inr err => Some err end)) in
  Ret (d2, {| w_members := rows; w_trace := w_trace w1 |}, err)
  end end end end end end end end end.

End StartAPI.

(** ** Starting the API on a node that joins or rejoins *)

Section StartAPIJoin.
Context `{TP : TypesPkg}.

(** What the collaborators answer during [StartAPI(false, ...)]. *)
Record JoinEnv : Type := {
  je_LoadClusterCert : CertInfo + error;   (* util.LoadClusterCert *)
  je_endpointsAdd : option error;          (* error of d.endpoints.Add *)
  je_script : list DB.Attempt;             (* the engine, during db.Join *)
  je_Addresses_before : list (string * AddrPort);
    (* Remotes().Addresses() as ranged over by StartWithCluster *)
  je_Refresh : option error;               (* error of d.trustStore.Refresh *)
  je_Count : Z;                            (* Remotes().Count() after the refresh *)
  je_Addresses : list (string * AddrPort);
    (* Remotes().Addresses() in the order of the loop over it *)
  je_clientNew : URL -> option error;      (* error of client.New for this URL *)
  je_Query : list URL -> option error      (* cluster.Query over these clients *)
}.

(** [api.NewURL().Scheme("https").Host(addr.String())] *)
Definition member_url (addr : AddrPort) : URL :=
  {| url_Scheme := "https"; url_Host := AddrPort_String addr |}.

(** The loop that builds a client for every other cluster member; a client
    is represented by the URL it was made for, and [cluster] is the slice
    appended to. *)
Fixpoint build_clients (env : JoinEnv) (d : Daemon)
    (addrs : list (string * AddrPort)) (cluster : list URL)
    : go (list URL + error) :=
  match addrs with
  | [] => Ret (inl cluster)
  | (_, addr) :: rest =>
      if String.eqb (url_Host (d_Address d)) (AddrPort_String addr)
      then build_clients env d rest cluster           (* continue *)
      else
        match ClusterCert d with
        | None => Panic
        | Some cc =>
            match PublicKeyX509 cc with
            | inr err => Ret (inr err)
            | inl publicKey =>
                let url := member_url addr in
                match je_clientNew env url with
                | Some err => Ret (inr err)
                | None => build_clients env d rest (cluster ++ [url])
                end
            end
        end
  end.

(** [Daemon.StartAPI(false, joinAddresses...)]: the function with
    [bootstrap] false.  The result is [None] when the script of the engine
    ends while [Join] is still going round its loop. *)
Definition StartAPI_join (env : JoinEnv) (joinAddresses : list string)
    (d : Daemon) (w : World) : option (go (option error) * Daemon * World) :=
  match ParseAddrPort (url_Host (d_Address d)) with
  | inr err =>
      Some (Ret (Some (ErrorfW "Failed to parse listen address when bootstrapping API: %w"
                               [] err)), d, w)
  | inl addr =>
  match d_serverCert d with
  | None => Some (Panic, d, w)
  | Some sc =>
  match PublicKeyX509 sc with
  | inr err =>
      Some (Ret (Some (ErrorfW "Failed to parse server certificate when bootstrapping API: %w"
                               [] err)), d, w)
  | inl serverCert =>
  match je_LoadClusterCert env with
  | inr err => Some (Ret (Some err), set_d_clusterCert None d, w)
  | inl cert =>
  let d1 := set_d_clusterCert (Some cert) d in
  match je_endpointsAdd env with
  | Some err => Some (Ret (Some err), d1, w)
  | None =>
  match d_db d1 with
  | None => Some (Panic, d1, w)
  | Some database =>
  let joining := negb (Nat.eqb (length joinAddresses) 0) in
  let joined :=
    if joining
    then DB.Join (je_script env) database (ClusterCert d1) joinAddresses (w_trace w)
    else DB.StartWithCluster (je_script env) database (je_Addresses_before env)
           (d_clusterCert d1) (w_trace w) in
  match joined with
  | None => None
  | Some (r, database', tr) =>
  let d2 := set_d_db (Some database') d1 in
  let w1 := {| w_members := w_members w; w_trace := tr |} in
  match r with
  | Panic => Some (Panic, d2, w1)
  | Ret (Some err) =>
      Some (Ret (Some (ErrorfW (if joining
                                then "Failed to join cluster: %w"
                                else "Failed to re-establish cluster connection: %w")
                               [] err)), d2, w1)
  | Ret None =>
  match je_Refresh env with
  | Some err => Some (Ret (Some err), d2, w1)
  | None =>
  (* make(client.Cluster, 0, Count()-1) panics on a negative capacity *)
  if je_Count env - 1 <? 0 then Some (Panic, d2, w1)
  else
    match build_clients env d2 (je_Addresses env) [] with
    | Panic => Some (Panic, d2, w1)
    | Ret (inr err) => Some (Ret (Some err), d2, w1)
    | Ret (inl cluster) => Some (Ret (je_Query env cluster), d2, w1)
    end
  end end end end end end end end end.

(** The members a client is built for: all but the node's own address. *)
Definition other_members (d : Daemon) (addrs : list (string * AddrPort))
    : list AddrPort :=
  List.filter (fun a => negb (String.eqb (url_Host (d_Address d)) (AddrPort_String a)))
              (map snd addrs).

(** The addresses the engine is asked to join: the ones given, or else the
    ones of the trust store. *)
Definition engine_addresses (env : JoinEnv) (joinAddresses : list string)
    : list string :=
  if negb (Nat.eqb (length joinAddresses) 0) then joinAddresses
  else map (fun kv => AddrPort_String (snd kv)) (je_Addresses_before env).

End StartAPIJoin.

(** ** The HTTP server's routes *)

Section InitServer.
Variable Handlers : Type.   (* the actions of a [rest.Endpoint] *)

(** [rest.EndpointAlias], [rest.Endpoint] and [resources.Resources], as far
    as [initServer] looks into them. *)
Record EndpointAlias : Type := {
  al_Name : string;
  al_Path : string
}.

Record Endpoint : Type := {
  ep_Name : string;
  ep_Path : string;
  ep_Aliases : list EndpointAlias;
  ep_Handlers : Handlers
}.

Record Resources : Type := {
  rs_Path : string;
  rs_Endpoints : list Endpoint
}.

(** One call [rest.HandleEndpoint(state, mux, prefix, e)]. *)
Record Registration : Type := {
  reg_prefix : string;
  reg_endpoint : Endpoint
}.

(** [ae := e; ae.Name = alias.Name; ae.Path = alias.Path] *)
Definition aliased (e : Endpoint) (alias : EndpointAlias) : Endpoint :=
  {| ep_Name := al_Name alias; ep_Path := al_Path alias;
     ep_Aliases := ep_Aliases e; ep_Handlers := ep_Handlers e |}.

(** The router, as far as [initServer] fills it through
    [rest.HandleEndpoint]: the registrations made so far, oldest first. *)
Definition Mux : Type := list Registration.

(** [rest.HandleEndpoint(state, mux, prefix, e)] adds one registration. *)
Definition HandleEndpoint (mux : Mux) (prefix : string) (e : Endpoint) : Mux :=
  mux ++ [{| reg_prefix := prefix; reg_endpoint := e |}].

(** The loop over [e.Aliases]. *)
Definition handle_aliases (prefix : string) (e : Endpoint) (mux : Mux) : Mux :=
  fold_left (fun mux alias => HandleEndpoint mux prefix (aliased e alias))
            (ep_Aliases e) mux.

(** The loop over [endpoints.Endpoints]: the endpoint, then its aliases. *)
Definition handle_endpoints (endpoints : Resources) (mux : Mux) : Mux :=
  fold_left (fun mux e =>
               handle_aliases (rs_Path endpoints) e
                 (HandleEndpoint mux (rs_Path endpoints) e))
            (rs_Endpoints endpoints) mux.

(** The calls to [rest.HandleEndpoint] that [initServer] makes, in order:
    the loop over [resources], on a router with no endpoint yet. *)
Definition initServer (resources : list Resources) : Mux :=
  fold_left (fun mux endpoints => handle_endpoints endpoints mux) resources [].

End InitServer.

End Daemon.

(* ===================================================================== *)
(** * The daemon: configuration and start-up *)
(* ===================================================================== *)

Module Lifecycle.

Import Daemon.

(** What [os.Stat] answers, as the code tells the cases apart with
    [os.IsNotExist]. *)
Inductive stat : Type :=
| StatOk
| StatNotExist
| StatError (err : error).

(** [type Daemon struct] with the pointers that are nil until [Init] sets
    them, and the state of [ReadyChan].  A collaborator that fails is taken
    to return a nil pointer with its error, so an assignment such as
    [d.os, err = sys.DefaultOS(...)] leaves nil behind when it fails. *)
Record Proc : Type := {
  p_Address : URL;
  p_os : option OS;
  p_serverCert : option CertInfo;
  p_clusterCert : option CertInfo;
  p_db : option DB.DB;
  p_ready_closed : bool       (* ReadyChan has been closed *)
}.

(** [NewDaemon]. *)
Definition NewDaemon : Proc :=
  {| p_Address := {| url_Scheme := ""; url_Host := "" |};
     p_os := None; p_serverCert := None; p_clusterCert := None; p_db := None;
     p_ready_closed := false |}.

Definition set_p_Address (v : URL) (p : Proc) : Proc :=
  {| p_Address := v; p_os := p_os p; p_serverCert := p_serverCert p;
     p_clusterCert := p_clusterCert p; p_db := p_db p;
     p_ready_closed := p_ready_closed p |}.

Definition set_p_os (v : option OS) (p : Proc) : Proc :=
  {| p_Address := p_Address p; p_os := v; p_serverCert := p_serverCert p;
     p_clusterCert := p_clusterCert p; p_db := p_db p;
     p_ready_closed := p_ready_closed p |}.

Definition set_p_serverCert (v : option CertInfo) (p : Proc) : Proc :=
  {| p_Address := p_Address p; p_os := p_os p; p_serverCert := v;
     p_clusterCert := p_clusterCert p; p_db := p_db p;
     p_ready_closed := p_ready_closed p |}.

Definition set_p_db (v : option DB.DB) (p : Proc) : Proc :=
  {| p_Address := p_Address p; p_os := p_os p; p_serverCert := p_serverCert p;
     p_clusterCert := p_clusterCert p; p_db := v;
     p_ready_closed := p_ready_closed p |}.

Definition set_p_ready_closed (v : bool) (p : Proc) : Proc :=
  {| p_Address := p_Address p; p_os := p_os p; p_serverCert := p_serverCert p;
     p_clusterCert := p_clusterCert p; p_db := p_db p;
     p_ready_closed := v |}.

(** The fields [StartAPI] works on, once [d.os] is set, and back. *)
Definition to_daemon (os : OS) (p : Proc) : Daemon :=
  {| d_Address := p_Address p; d_os := os; d_serverCert := p_serverCert p;
     d_clusterCert := p_clusterCert p; d_db := p_db p |}.

Definition of_daemon (d : Daemon) (p : Proc) : Proc :=
  {| p_Address := d_Address d; p_os := Some (d_os d);
     p_serverCert := d_serverCert d; p_clusterCert := d_clusterCert d;
     p_db := d_db d;
     p_ready_closed := p_ready_closed p |}.

(** What start-up does outside the daemon struct and the database. *)
Inductive LEvent : Type :=
| LvDefaultOS (stateDir : string)       (* sys.DefaultOS(stateDir, true) *)
| LvLoadServerCert (dir : string)       (* util.LoadServerCert *)
| LvNewWatcher (dir : string)           (* sys.NewWatcher *)
| LvTrustInit (dir : string)            (* trust.Init *)
| LvNewSocket (path : string)           (* endpoints.NewSocket on the control socket *)
| LvEndpointsUp                         (* d.endpoints.Up() *)
| LvStatInfo (dir : string)             (* os.Stat of info.yaml in this directory *)
| LvWarn (msg : string)
| LvStartAPI                            (* d.StartAPI(false) *)
| LvRefresh                             (* d.trustStore.Refresh() *)
| LvCloseReady.                         (* close(d.ReadyChan) *)

Section Init.
Context `{TP : TypesPkg}.

(** What the collaborators answer during [Init]. *)
Record InitEnv : Type := {
  ie_getenv : string;                          (* os.Getenv(sys.StateDir) *)
  ie_isListenAddress : string -> option error; (* validate.IsListenAddress(true, true, false) *)
  ie_stat_stateDir : stat;                     (* os.Stat(stateDir) *)
  ie_DefaultOS : OS + error;                   (* sys.DefaultOS *)
  ie_LoadServerCert : CertInfo + error;        (* util.LoadServerCert *)
  ie_NewWatcher : option error;                (* error of sys.NewWatcher *)
  ie_trustInit : option error;                 (* error of trust.Init *)
  ie_endpointsUp : option error;               (* error of d.endpoints.Up *)
  ie_stat_info : stat;                         (* os.Stat of info.yaml *)
  ie_join : JoinEnv;                           (* during StartAPI(false) *)
  ie_Refresh : option error                    (* error of the last Refresh *)
}.

(** [Daemon.validateConfig]. *)
Definition validateConfig (env : InitEnv) (addr stateDir : string) (p : Proc)
    : Proc * option error :=
  let checked :=
    if negb (String.eqb addr "") then
      match ie_isListenAddress env addr with
      | Some err =>
          inr (ErrorfW "Invalid admin address %q: %w" [ArgString addr] err)
      | None => inl (set_p_Address {| url_Scheme := "https"; url_Host := addr |} p)
      end
    else inl p in
  match checked with
  | inr err => (p, Some err)
  | inl p1 =>
      if String.eqb stateDir ""
      then (p1, Some (Errorf "State directory must be specified" []))
      else
        match ie_stat_stateDir env with
        | StatError err => (p1, Some err)     (* err != nil && !os.IsNotExist(err) *)
        | _ => (p1, None)
        end
  end.

(** [Daemon.initStore]. *)
Definition initStore (env : InitEnv) (os : OS) (lt : list LEvent)
    : option error * list LEvent :=
  let lt1 := lt ++ [LvNewWatcher (StateDir os)] in
  match ie_NewWatcher env with
  | Some err => (Some err, lt1)
  | None =>
      let lt2 := lt1 ++ [LvTrustInit (TrustDir os)] in
      match ie_trustInit env with
      | Some err => (Some err, lt2)
      | None => (None, lt2)
      end
  end.

(** [Daemon.reloadIfBootstrapped]. *)
Definition reloadIfBootstrapped (env : InitEnv) (p : Proc) (w : World)
    (lt : list LEvent) : option (go (option error) * Proc * World * list LEvent) :=
  match p_os p with
  | None => Some (Panic, p, w, lt)
  | Some os =>
      let lt1 := lt ++ [LvStatInfo (DatabaseDir os)] in
      match ie_stat_info env with
      | StatNotExist =>
          Some (Ret None, p, w, lt1 ++ [LvWarn "microcluster database is uninitialized"])
      | StatError err => Some (Ret (Some err), p, w, lt1)
      | StatOk =>
          match StartAPI_join (ie_join env) [] (to_daemon os p) w with
          | None => None
          | Some (r, d', w') => Some (r, of_daemon d' p, w', lt1 ++ [LvStartAPI])
          end
      end
  end.

(** [Daemon.init]. *)
Definition init (env : InitEnv) (p : Proc) (w : World) (lt : list LEvent)
    : option (go (option error) * Proc * World * list LEvent) :=
  match p_os p with
  | None => Some (Panic, p, w, lt)
  | Some os =>
      let lt1 := lt ++ [LvLoadServerCert (StateDir os)] in
      match ie_LoadServerCert env with
      | inr err => Some (Ret (Some err), set_p_serverCert None p, w, lt1)
      | inl sc =>
          let p1 := set_p_serverCert (Some sc) p in
          match initStore env os lt1 with
          | (Some err, lt2) =>
              Some (Ret (Some (ErrorfW "Failed to initialize trust store: %w" [] err)),
                    p1, w, lt2)
          | (None, lt2) =>
              let p2 := set_p_db (Some (DB.NewDB (p_serverCert p1) os (p_Address p1))) p1 in
              let lt3 := lt2 ++ [LvNewSocket (ControlSocket os); LvEndpointsUp] in
              match ie_endpointsUp env with
              | Some err => Some (Ret (Some err), p2, w, lt3)
              | None =>
                  match reloadIfBootstrapped env p2 w lt3 with
                  | None => None
                  | Some (Ret None, p3, w3, lt4) =>
                      Some (Ret (ie_Refresh env), p3, w3, lt4 ++ [LvRefresh])
                  | Some (r, p3, w3, lt4) => Some (r, p3, w3, lt4)
                  end
              end
          end
      end
  end.

(** [Daemon.Init].  Closing [ReadyChan] a second time panics. *)
Definition Init (env : InitEnv) (addr stateDir : string) (p : Proc) (w : World)
    (lt : list LEvent) : option (go (option error) * Proc * World * list LEvent) :=
  let stateDir := if String.eqb stateDir "" then ie_getenv env else stateDir in
  let '(p1, err) := validateConfig env addr stateDir p in
  match err with
  | Some err =>
      Some (Ret (Some (ErrorfW "Invalid daemon configuration: %w" [] err)), p1, w, lt)
  | None =>
      let lt1 := lt ++ [LvDefaultOS stateDir] in
      match ie_DefaultOS env with
      | inr err =>
          Some (Ret (Some (ErrorfW "Failed to initialize directory structure: %w" [] err)),
                set_p_os None p1, w, lt1)
      | inl os =>
          match init env (set_p_os (Some os) p1) w lt1 with
          | None => None
          | Some (Ret None, p2, w2, lt2) =>
              if p_ready_closed p2 then Some (Panic, p2, w2, lt2)
              else Some (Ret None, set_p_ready_closed true p2, w2, lt2 ++ [LvCloseReady])
          | Some (Ret (Some err), p2, w2, lt2) =>
              Some (Ret (Some (ErrorfW "Daemon failed to start: %w" [] err)), p2, w2, lt2)
          | Some (Panic, p2, w2, lt2) => Some (Panic, p2, w2, lt2)
          end
      end
  end.

End Init.

End Lifecycle.

(* ===================================================================== *)
(** * A small instance of the [types] interface, to run the model on *)
(* ===================================================================== *)

Module Sample.

Import Cluster.

(** Has the text a colon in it? *)
Fixpoint has_colon (s : string) : bool :=
  match s with
  | EmptyString => false
  | String a s' => Ascii.eqb a ":"%char || has_colon s'
  end.

Inductive Status : Type := Online | Unreachable.

#[export] Instance types : TypesPkg := {|
  AddrPort := string;
  ParseAddrPort s :=
    if has_colon s then inl s else inr (ErrOther "missing port in address");
  AddrPort_String a := a;
  X509Certificate := string;
  X509Certificate_of c := c;
  ParseX509Certificate s :=
    if String.prefix "-----BEGIN CERTIFICATE-----" s then inl s
    else inr (ErrOther "Failed to decode certificate, invalid PEM found");
  X509Certificate_String c := c;
  MemberStatus := Status;
  MemberUnreachable := Unreachable
|}.

Definition member (name address role : string) (schema : Z) : InternalClusterMember :=
  {| ID := 0; Name := name; Address := address;
     Certificate := "-----BEGIN CERTIFICATE-----"; Schema := schema;
     Heartbeat := zeroTime; Role_ := role |}.

Definition tx_of (rows : list InternalClusterMember) : Tx :=
  {| tx_rows := rows; tx_coll := BINARY; tx_exec_err := None;
     tx_rows_affected_err := None; tx_query_err := None |}.

Definition cert : CertInfo :=
  {| ci_name := "cluster"; PublicKeyX509 := inl "cluster-public-key" |}.

Definition os : OS :=
  {| StateDir := "/var/lib/microcluster/node1";
     DatabaseDir := "/var/lib/microcluster/node1/database";
     TrustDir := "/var/lib/microcluster/node1/truststore";
     DatabasePath := "/var/lib/microcluster/node1/database/db.bin";
     ControlSocket := "/var/lib/microcluster/node1/control.socket" |}.

Definition listen : URL := {| url_Scheme := "https"; url_Host := "10.0.0.1:7000" |}.

Definition conn : Conn :=
  {| conn_id := 1; LocalAddr := "10.0.0.1:40000"; RemoteAddr := "10.0.0.2:7000" |}.

(** Collaborators that all succeed. *)
Definition quiet : DB.Attempt :=
  {| DB.att_getenv := ""; DB.att_new := None; DB.att_open := None;
     DB.att_close := None |}.

(** A handle that went through [Bootstrap] successfully. *)
Definition opened : DB.DB :=
  fst (fst (DB.Bootstrap quiet (DB.NewDB (Some cert) os listen) (Some cert) [])).

(** The engine reports a leader at another address. *)
Definition follower_env : DB.HbEnv :=
  {| DB.hb_Leader := None;
     DB.hb_LeaderInfo := inl {| DB.ni_ID := 2; DB.ni_Address := "10.0.0.2:7000" |};
     DB.hb_clientNew := None;
     DB.hb_Heartbeat := None |}.

(** The engine reports this node as the leader. *)
Definition leader_env : DB.HbEnv :=
  {| DB.hb_Leader := None;
     DB.hb_LeaderInfo := inl {| DB.ni_ID := 1; DB.ni_Address := "10.0.0.1:7000" |};
     DB.hb_clientNew := None;
     DB.hb_Heartbeat := None |}.

(** A peer that answers with the given status and [Upgrade] header. *)
Definition peer (status : Z) (upgrade : string) : DB.DialEnv :=
  {| DB.de_now := 63839664000 * 1000000000;
     DB.de_TLSClientConfig := None;
     DB.de_urlParse := None;
     DB.de_tlsDial := inl conn;
     DB.de_ExtractConn := None;
     DB.de_SetTimeouts := None;
     DB.de_requestWrite := None;
     DB.de_ReadResponse :=
       inl {| StatusCode := status;
              resp_Header := Header_Set "Upgrade" upgrade ∅ |} |}.

(** A daemon after [init] on a node with no cluster state, and collaborators
    that all succeed. *)
Definition server_cert : CertInfo :=
  {| ci_name := "server"; PublicKeyX509 := inl "-----BEGIN CERTIFICATE-----node1" |}.

Definition daemon : Daemon.Daemon :=
  {| Daemon.d_Address := listen;
     Daemon.d_os := os;
     Daemon.d_serverCert := Some server_cert;
     Daemon.d_clusterCert := None;
     Daemon.d_db := Some (DB.NewDB (Some server_cert) os listen) |}.

Definition start_env : Daemon.StartEnv :=
  {| Daemon.se_remotesAdd := None;
     Daemon.se_LoadClusterCert := inl cert;
     Daemon.se_endpointsAdd := None;
     Daemon.se_bootstrap := quiet;
     Daemon.se_Refresh := None;
     Daemon.se_schemaVersion := 2;
     Daemon.se_coll := BINARY;
     Daemon.se_exec_err := None;
     Daemon.se_commit_err := None |}.

Definition empty_world : Daemon.World :=
  {| Daemon.w_members := []; Daemon.w_trace := [] |}.

(** A node whose state directory exists and has never been bootstrapped:
    there is no [info.yaml]. *)
Definition join_env : Daemon.JoinEnv :=
  {| Daemon.je_LoadClusterCert := inl cert;
     Daemon.je_endpointsAdd := None;
     Daemon.je_script := [quiet];
     Daemon.je_Addresses_before := [("node1", "10.0.0.1:7000"); ("node2", "10.0.0.2:7000")];
     Daemon.je_Refresh := None;
     Daemon.je_Count := 2;
     Daemon.je_Addresses := [("node2", "10.0.0.2:7000"); ("node1", "10.0.0.1:7000");
                             ("node3", "10.0.0.3:7000")];
     Daemon.je_clientNew := fun _ => None;
     Daemon.je_Query := fun _ => None |}.

(** Collaborators that succeed up to the refresh of the trust store after
    the engine has been bootstrapped, which fails. *)
Definition stale_env : Daemon.StartEnv :=
  {| Daemon.se_remotesAdd := None;
     Daemon.se_LoadClusterCert := inl cert;
     Daemon.se_endpointsAdd := None;
     Daemon.se_bootstrap := quiet;
     Daemon.se_Refresh := Some (ErrOther "Failed to read trust store");
     Daemon.se_schemaVersion := 2;
     Daemon.se_coll := BINARY;
     Daemon.se_exec_err := None;
     Daemon.se_commit_err := None |}.

(** The same node with a trust store that is empty after the refresh. *)
Definition lonely_env : Daemon.JoinEnv :=
  {| Daemon.je_LoadClusterCert := inl cert;
     Daemon.je_endpointsAdd := None;
     Daemon.je_script := [quiet];
     Daemon.je_Addresses_before := [];
     Daemon.je_Refresh := None;
     Daemon.je_Count := 0;
     Daemon.je_Addresses := [];
     Daemon.je_clientNew := fun _ => None;
     Daemon.je_Query := fun _ => None |}.

Definition init_env : Lifecycle.InitEnv :=
  {| Lifecycle.ie_getenv := "/var/lib/microcluster/node1";
     Lifecycle.ie_isListenAddress :=
       fun addr => if has_colon addr then None
                   else Some (ErrOther "not an IP address or hostname with port");
     Lifecycle.ie_stat_stateDir := Lifecycle.StatOk;
     Lifecycle.ie_DefaultOS := inl os;
     Lifecycle.ie_LoadServerCert := inl server_cert;
     Lifecycle.ie_NewWatcher := None;
     Lifecycle.ie_trustInit := None;
     Lifecycle.ie_endpointsUp := None;
     Lifecycle.ie_stat_info := Lifecycle.StatNotExist;
     Lifecycle.ie_join := join_env;
     Lifecycle.ie_Refresh := None |}.

Definition deadline_ctx : Context :=
  {| ctx_deadline := Some (63839664000 * 1000000000 + 5000000000) |}.

End Sample.

(* ===================================================================== *)
(** * Properties of the membership store *)
(* ===================================================================== *)

Section ClusterFacts.
Import Cluster.

Lemma exec_update_schema_count coll version address rows :
  snd (exec_update_schema coll version address rows) = rows_matching coll address rows.
Proof. reflexivity. Qed.

Lemma rows_matching_nonneg coll address rows : 0 <= rows_matching coll address rows.
Proof. unfold rows_matching, exec_update_schema; simpl. lia. Qed.

Lemma UpdateClusterMemberSchemaVersion_result tx version address :
  snd (UpdateClusterMemberSchemaVersion tx version address) =
  match tx_exec_err tx with
  | Some err => Some err
  | None =>
      match tx_rows_affected_err tx with
      | Some err => Some err
      | None =>
          let n := rows_matching (tx_coll tx) address (tx_rows tx) in
          if n =? 1 then None
          else Some (Errorf "updated %d rows instead of 1" [ArgInt n])
      end
  end.
Proof.
  unfold UpdateClusterMemberSchemaVersion, rows_matching, exec_update_schema.
  destruct (tx_exec_err tx); [reflexivity|]. simpl.
  destruct (tx_rows_affected_err tx); [reflexivity|].
  destruct (_ =? 1); reflexivity.
Qed.

(** What the SELECT returns under the default collation: the [schema] of the
    rows whose role is not the text [pending], in table order. *)
Lemma select_schema_not_pending_binary rows :
  select_schema_not_pending BINARY rows =
  map Schema (filter (fun r => Role_ r <> "pending") rows).
Proof.
  unfold select_schema_not_pending. f_equal.
  induction rows as [|r rows IH]; [reflexivity|].
  rewrite !filter_cons, IH.
  unfold not_role_pending, sql_text_eq.
  destruct (String.eqb_spec (Role_ r) "pending") as [E|E]; simpl;
    repeat case_decide; try reflexivity; try congruence; contradiction.
Qed.

(** C2, at a table whose only row is a pending member: under SQLite's
    default collation the statement compares [role] with the text [pending]
    while rows are stored with the role [Pending], that is [PENDING], so the
    pending member's schema version is returned instead of being left out. *)
Theorem GetClusterMemberSchemaVersions_returns_pending_row :
  Role_ (Sample.member "node1" "10.0.0.1:7000" Pending 3) = Pending /\
  GetClusterMemberSchemaVersions
    (Sample.tx_of [Sample.member "node1" "10.0.0.1:7000" Pending 3]) = inl [3].
Proof. split; reflexivity. Qed.

(** A row is left out exactly when its role is spelled in lower case. *)
Example GetClusterMemberSchemaVersions_lower_case_row_skipped :
  GetClusterMemberSchemaVersions
    (Sample.tx_of [Sample.member "node1" "10.0.0.1:7000" "pending" 3;
                   Sample.member "node2" "10.0.0.2:7000" "voter" 4]) = inl [4].
Proof. reflexivity. Qed.

(** Were the column declared [COLLATE NOCASE], the pending row would be
    left out. *)
Example select_schema_not_pending_nocase :
  select_schema_not_pending NOCASE
    [Sample.member "node1" "10.0.0.1:7000" Pending 3;
     Sample.member "node2" "10.0.0.2:7000" "voter" 4] = [4].
Proof. reflexivity. Qed.

(** C8: [UpdateClusterMemberSchemaVersion] returns nil only when the update
    changed exactly one row, and when the driver reports a count [n] other
    than one (no row for the address, or two of them) it returns the error
    [updated n rows instead of 1]. *)
Theorem UpdateClusterMemberSchemaVersion_exactly_one tx version address :
  let n := rows_matching (tx_coll tx) address (tx_rows tx) in
  (snd (UpdateClusterMemberSchemaVersion tx version address) = None ->
     n = 1 /\ tx_exec_err tx = None /\ tx_rows_affected_err tx = None) /\
  (tx_exec_err tx = None -> tx_rows_affected_err tx = None ->
     (n <> 1 ->
        snd (UpdateClusterMemberSchemaVersion tx version address) =
        Some (Errorf "updated %d rows instead of 1" [ArgInt n])) /\
     (n = 1 -> snd (UpdateClusterMemberSchemaVersion tx version address) = None)).
Proof.
  intros n. rewrite UpdateClusterMemberSchemaVersion_result. cbv zeta. fold n.
  split.
  - destruct (tx_exec_err tx) as [e|]; [intros H; discriminate H|].
    destruct (tx_rows_affected_err tx) as [e|]; [intros H; discriminate H|].
    destruct (Z.eqb_spec n 1); [auto|intros H; discriminate H].
  - intros -> ->. split; intros Hn.
    + destruct (Z.eqb_spec n 1); [contradiction|reflexivity].
    + rewrite Hn. reflexivity.
Qed.

(** C8 at three tables: no row, one row and two rows for the address. *)
Lemma UpdateClusterMemberSchemaVersion_exactly_one_witness :
  let one := Sample.member "node1" "10.0.0.1:7000" Pending 3 in
  let two := Sample.member "node2" "10.0.0.1:7000" "voter" 3 in
  snd (UpdateClusterMemberSchemaVersion (Sample.tx_of []) 4 "10.0.0.1:7000") =
    Some (Errorf "updated %d rows instead of 1" [ArgInt 0]) /\
  snd (UpdateClusterMemberSchemaVersion (Sample.tx_of [one; two]) 4 "10.0.0.1:7000") =
    Some (Errorf "updated %d rows instead of 1" [ArgInt 2]) /\
  snd (UpdateClusterMemberSchemaVersion (Sample.tx_of [one]) 4 "10.0.0.1:7000") = None /\
  rows_matching BINARY "10.0.0.1:7000" [one] = 1.
Proof.
  intros one two.
  split; [|split; [|split]].
  - apply (UpdateClusterMemberSchemaVersion_exactly_one (Sample.tx_of []) 4 "10.0.0.1:7000");
      [reflexivity|reflexivity|vm_compute; discriminate].
  - apply (UpdateClusterMemberSchemaVersion_exactly_one (Sample.tx_of [one; two]) 4 "10.0.0.1:7000");
      [reflexivity|reflexivity|vm_compute; discriminate].
  - apply (UpdateClusterMemberSchemaVersion_exactly_one (Sample.tx_of [one]) 4 "10.0.0.1:7000");
      reflexivity.
  - apply (UpdateClusterMemberSchemaVersion_exactly_one (Sample.tx_of [one]) 4 "10.0.0.1:7000").
    reflexivity.
Defined.

(** The update itself: the rows of the address get the new version, the
    others are untouched, even when the count makes the call fail. *)
Lemma UpdateClusterMemberSchemaVersion_rows tx version address :
  tx_exec_err tx = None ->
  tx_rows (fst (UpdateClusterMemberSchemaVersion tx version address)) =
  map (fun r => if address_matches (tx_coll tx) address r
                then set_Schema version r else r) (tx_rows tx).
Proof.
  intros H. unfold UpdateClusterMemberSchemaVersion. rewrite H.
  unfold exec_update_schema.
  destruct (tx_rows_affected_err tx); [reflexivity|].
  destruct (negb _); reflexivity.
Qed.

Section ToAPIFacts.
Context `{TP : TypesPkg}.

(** C9: [ToAPI] fails exactly when the address or the certificate of the
    row does not parse, and the member it returns otherwise always has the
    status [MemberUnreachable]. *)
Theorem ToAPI_error_iff_unparsable (c : InternalClusterMember) :
  ((exists err, ToAPI c = inr err) <->
     (exists err, ParseAddrPort (Address c) = inr err) \/
     (exists err, ParseX509Certificate (Certificate c) = inr err)) /\
  (forall address certificate,
     ParseAddrPort (Address c) = inl address ->
     ParseX509Certificate (Certificate c) = inl certificate ->
     exists m, ToAPI c = inl m /\ cm_Status m = MemberUnreachable) /\
  (forall m, ToAPI c = inl m -> cm_Status m = MemberUnreachable).
Proof.
  unfold ToAPI.
  destruct (ParseAddrPort (Address c)) as [a|ea];
    [destruct (ParseX509Certificate (Certificate c)) as [x|ex]|].
  - split; [|split].
    + split; [intros [e He]; discriminate|].
      intros [[e He]|[e He]]; discriminate.
    + intros a' x' _ _. eexists; split; reflexivity.
    + intros m Hm. injection Hm as <-. reflexivity.
  - split; [|split].
    + split; [intros _; right; eauto|intros _; eauto].
    + intros a' x' _ Hx. discriminate.
    + intros m Hm. discriminate.
  - split; [|split].
    + split; [intros _; left; eauto|intros _; eauto].
    + intros a' x' Ha. discriminate.
    + intros m Hm. discriminate.
Qed.

End ToAPIFacts.

(** C9 on three rows of the sample instance: a good one, one with a bad
    address and one with a bad certificate. *)
Lemma ToAPI_error_iff_unparsable_witness :
  let good := Sample.member "node1" "10.0.0.1:7000" "voter" 3 in
  (exists m, ToAPI (TP := Sample.types) good = inl m /\
             cm_Status m = Sample.Unreachable) /\
  (exists err, ToAPI (TP := Sample.types)
                 (Sample.member "node1" "10.0.0.1" "voter" 3) = inr err).
Proof.
  intros good. split.
  - apply (ToAPI_error_iff_unparsable (TP := Sample.types) good)
      with (address := "10.0.0.1:7000")
           (certificate := "-----BEGIN CERTIFICATE-----"); reflexivity.
  - apply (ToAPI_error_iff_unparsable (TP := Sample.types)
             (Sample.member "node1" "10.0.0.1" "voter" 3)).
    left. eexists. reflexivity.
Defined.

End ClusterFacts.

(* ===================================================================== *)
(** * Properties of the cluster controller *)
(* ===================================================================== *)

Section ControllerFacts.
Import DB.

Lemma set_upgradeCh_same d : set_upgradeCh (upgradeCh d) d = d.
Proof. destruct d; reflexivity. Qed.

(** A send on an unbuffered channel nobody is receiving from takes the
    [default] case. *)
Lemma select_send_default_unbuffered ch :
  ch_cap ch = 0%nat -> ch_receivers ch = 0%nat ->
  select_send_default ch = (ch, false).
Proof.
  intros Hc Hr. unfold select_send_default. rewrite Hr, Hc.
  destruct (ch_buffered ch); reflexivity.
Qed.

(** With a consumer blocked in the receive, the value is handed to it and
    nothing stays behind in the channel. *)
Lemma select_send_default_handoff ch r :
  ch_receivers ch = S r ->
  select_send_default ch =
  ({| ch_cap := ch_cap ch; ch_buffered := ch_buffered ch; ch_receivers := r |}, true).
Proof. intros Hr. unfold select_send_default. rewrite Hr. reflexivity. Qed.

Lemma NewDB_upgradeCh sc o la : upgradeCh (NewDB sc o la) = make_chan 0.
Proof. reflexivity. Qed.

(** C3 as stated fails: after two calls on a fresh handle, with no consumer
    waiting, the number of pending notifications is not one. *)
Lemma NotifyUpgraded_twice_not_one_pending :
  ~ (forall sc o la,
       pending_notifications (NotifyUpgraded (NotifyUpgraded (NewDB sc o la))) = 1%nat).
Proof.
  intros H. specialize (H None Sample.os Sample.listen). discriminate H.
Qed.

(** C3, amended: on a handle whose upgrade channel is as [NewDB] made it
    (unbuffered) and on which no consumer is waiting, [NotifyUpgraded]
    returns and changes nothing, the first time and the second time, and no
    notification is pending afterwards: the notification is dropped. *)
Theorem NotifyUpgraded_without_consumer_is_dropped (d : DB) :
  upgradeCh d = make_chan 0 ->
  NotifyUpgraded d = d /\
  NotifyUpgraded (NotifyUpgraded d) = d /\
  pending_notifications (NotifyUpgraded (NotifyUpgraded d)) = 0%nat.
Proof.
  intros H.
  assert (E : NotifyUpgraded d = d).
  { unfold NotifyUpgraded.
    rewrite select_send_default_unbuffered by (rewrite H; reflexivity).
    apply set_upgradeCh_same. }
  rewrite !E. repeat split.
  unfold pending_notifications. rewrite H. reflexivity.
Qed.

Lemma NotifyUpgraded_without_consumer_is_dropped_witness :
  let d := NewDB (Some Sample.cert) Sample.os Sample.listen in
  NotifyUpgraded d = d /\
  NotifyUpgraded (NotifyUpgraded d) = d /\
  pending_notifications (NotifyUpgraded (NotifyUpgraded d)) = 0%nat.
Proof.
  intros d. apply (NotifyUpgraded_without_consumer_is_dropped d). reflexivity.
Defined.

(** Whatever the state of the channel, a call adds at most one pending
    notification and never exceeds the capacity it found room in. *)
Lemma NotifyUpgraded_pending_le d :
  (pending_notifications (NotifyUpgraded d) <= S (pending_notifications d))%nat /\
  (pending_notifications d <= ch_cap (upgradeCh d) ->
   pending_notifications (NotifyUpgraded d) <= ch_cap (upgradeCh d))%nat.
Proof.
  unfold NotifyUpgraded, pending_notifications, select_send_default.
  destruct d as [? ? ? ? ? ? ? ? [c b r] ? ? ?]; simpl.
  destruct r; simpl; [|lia].
  destruct (Nat.ltb_spec b c); simpl; lia.
Qed.

(** With one consumer waiting in [Join], the notification reaches it. *)
Lemma NotifyUpgraded_wakes_consumer d r :
  ch_receivers (upgradeCh d) = S r ->
  ch_receivers (upgradeCh (NotifyUpgraded d)) = r /\
  pending_notifications (NotifyUpgraded d) = pending_notifications d.
Proof.
  intros H. unfold NotifyUpgraded, pending_notifications.
  rewrite (select_send_default_handoff _ r H).
  destruct d; simpl. split; reflexivity.
Qed.

(** ** The dial timeout *)

Lemma time_Until_zeroTime_negative now :
  zeroTime < now -> time_Until now zeroTime < 0.
Proof.
  unfold time_Until, time_Sub, zeroTime, minDuration, maxDuration. intros H.
  destruct (Z.ltb_spec (0 - now) (- 2 ^ 63)); [lia|].
  destruct (Z.ltb_spec (2 ^ 63 - 1) (0 - now)); lia.
Qed.

Example dial_timeout_background_2024 :
  Timeout (dial_dialer (63839664000 * 1000000000) context_Background) = minDuration.
Proof. reflexivity. Qed.

End ControllerFacts.

(* ===================================================================== *)
(** * Properties of [Join] *)
(* ===================================================================== *)

Section JoinFacts.
Import DB.

Lemma count_app p tr1 tr2 : count p (tr1 ++ tr2) = (count p tr1 + count p tr2)%nat.
Proof. unfold count. rewrite List.filter_app, length_app. reflexivity. Qed.

Lemma join_app_restart_state d cert addrs att att' :
  join_app (restart_state d cert addrs att) addrs att' = join_app d addrs att'.
Proof. reflexivity. Qed.

Lemma restart_events_restart_state d cert addrs att att' :
  restart_events (restart_state d cert addrs att) cert addrs att' =
  restart_events d cert addrs att'.
Proof. reflexivity. Qed.

(** One trip round the loop. *)
Lemma Join_restart att script d cert addrs tr :
  graceful_restart att = true ->
  Join (att :: script) d cert addrs tr =
  Join script (restart_state d cert addrs att) cert addrs
       (tr ++ restart_events d cert addrs att).
Proof.
  unfold graceful_restart. intros H. simpl.
  destruct (att_new att) as [e|]; [discriminate|].
  destruct (att_open att) as [e|]; [|discriminate].
  unfold Open. rewrite H. simpl. rewrite H.
  unfold restart_events, restart_state, join_app.
  destruct (att_close att); rewrite <- ?List.app_assoc; simpl; reflexivity.
Qed.

(** The iteration that ends the loop. *)
Lemma Join_terminal att script d cert addrs tr :
  terminal att = true ->
  exists d',
    Join (att :: script) d cert addrs tr =
    Some (Ret (att_open att), d',
          tr ++ [EvDqliteNew (join_app d addrs att) cert; EvOpen false]) /\
    IsOpen (Some d') = match att_open att with None => true | Some _ => IsOpen (Some d) end.
Proof.
  unfold terminal. intros H. simpl.
  destruct (att_new att) as [e|]; [discriminate|].
  destruct (att_open att) as [e|].
  - unfold Open. apply negb_true_iff in H. rewrite H. simpl. rewrite H.
    eexists. split.
    + rewrite <- List.app_assoc. reflexivity.
    + reflexivity.
  - unfold Open. simpl. eexists. split.
    + rewrite <- List.app_assoc. reflexivity.
    + reflexivity.
Qed.

(** [dqlite.New] failing ends the loop too, with the error wrapped. *)
Lemma Join_new_fails att script d cert addrs tr err :
  att_new att = Some err ->
  Join (att :: script) d cert addrs tr =
  Some (Ret (Some (ErrorfW "Failed to join dqlite cluster %w" [] err)),
        set_dqlite None (set_clusterCert cert d),
        tr ++ [EvDqliteNew (join_app d addrs att) cert]).
Proof. intros H. simpl. rewrite H. reflexivity. Qed.

Lemma restart_events_counts d cert addrs att :
  count is_close (restart_events d cert addrs att) = 1%nat /\
  count is_open (restart_events d cert addrs att) = 1%nat /\
  count is_new (restart_events d cert addrs att) = 1%nat.
Proof. unfold restart_events. destruct (att_close att); repeat split. Qed.

Lemma restarts_counts d cert addrs pre :
  count is_close (flat_map (restart_events d cert addrs) pre) = length pre /\
  count is_open (flat_map (restart_events d cert addrs) pre) = length pre /\
  count is_new (flat_map (restart_events d cert addrs) pre) = length pre.
Proof.
  induction pre as [|att pre (IH1 & IH2 & IH3)]; [repeat split|].
  destruct (restart_events_counts d cert addrs att) as (H1 & H2 & H3).
  cbn [flat_map length]. rewrite !count_app, H1, H2, H3, IH1, IH2, IH3.
  repeat split.
Qed.

(** Every engine start in the restarts asks for the same peers under the
    same cluster certificate. *)
Lemma restarts_same_parameters d cert addrs pre :
  Forall (fun e => forall app c, e = EvDqliteNew app c ->
                     c = cert /\ app_cluster app = addrs)
         (flat_map (restart_events d cert addrs) pre).
Proof.
  induction pre as [|att pre IH]; [constructor|].
  cbn [flat_map]. apply Forall_app. split; [|exact IH].
  unfold restart_events.
  repeat (apply Forall_cons; split; [intros app c E; try discriminate E|]).
  - injection E as <- <-. split; reflexivity.
  - destruct (att_close att); [|apply Forall_nil; exact I].
    apply Forall_cons; split; [intros app c E; discriminate E|].
    apply Forall_nil; exact I.
Qed.

Lemma Join_restarts pre script d cert addrs tr :
  forallb graceful_restart pre = true ->
  exists d0,
    Join (pre ++ script) d cert addrs tr =
    Join script d0 cert addrs (tr ++ flat_map (restart_events d cert addrs) pre) /\
    (forall att, join_app d0 addrs att = join_app d addrs att) /\
    IsOpen (Some d0) = IsOpen (Some d).
Proof.
  revert d tr. induction pre as [|att pre IH]; intros d tr H.
  - exists d. simpl. rewrite app_nil_r. auto.
  - simpl in H. apply andb_true_iff in H as [Ha Hp].
    cbn [app flat_map]. rewrite (Join_restart _ _ _ _ _ _ Ha).
    destruct (IH (restart_state d cert addrs att)
                 (tr ++ restart_events d cert addrs att) Hp) as (d0 & E & Happ & Ho).
    exists d0. split; [|split].
    + rewrite E, <- List.app_assoc. reflexivity.
    + intros a. rewrite Happ. apply join_app_restart_state.
    + rewrite Ho. reflexivity.
Qed.

(** C1: when the first [N] iterations of [Join] end in the graceful-restart
    condition and the next one ends otherwise, [Join] returns what that
    [Open] returned (nil, or the other error as it is).  What it has done
    by then is, for each of the [N] restarts in turn, to start the engine
    with the same cluster certificate and peer addresses, to attempt the
    open, to log that it closes the database and to close it, logging an
    error and carrying on when the close fails, and only then to start the
    engine and attempt the open once more.  So the database was closed
    exactly [N] times before the [(N+1)]-th open attempt, each close
    between the open that failed and the next engine start. *)
Theorem Join_closes_once_per_graceful_restart
    (pre : list Attempt) (last : Attempt) (rest : list Attempt)
    (d : DB) (cert : option CertInfo) (addrs : list string) (tr : list Event) :
  forallb graceful_restart pre = true ->
  terminal last = true ->
  let iteration := fun att : Attempt =>
    [EvDqliteNew (join_app d addrs att) cert;
     EvOpen false;
     EvLog Debug "Closing database after upgrade notification";
     EvDBClose] ++
    match att_close att with
    | Some _ => [EvLog Error "Failed to close database"]
    | None => []
    end in
  let ev := flat_map iteration pre in
  exists d',
    Join (pre ++ last :: rest) d cert addrs tr =
    Some (Ret (att_open last), d',
          tr ++ ev ++ [EvDqliteNew (join_app d addrs last) cert; EvOpen false]) /\
    count is_close ev = length pre /\
    count is_open ev = length pre /\
    count is_new ev = length pre /\
    count is_close (ev ++ [EvDqliteNew (join_app d addrs last) cert; EvOpen false])
      = length pre /\
    Forall (fun e => forall app c, e = EvDqliteNew app c ->
                       c = cert /\ app_cluster app = addrs) ev /\
    count (fun e => match e with EvLog Error _ => true | _ => false end) ev =
      length (List.filter (fun att => match att_close att with
                                      | Some _ => true | None => false end) pre).
Proof.
  intros Hpre Hlast iteration ev.
  destruct (Join_restarts pre (last :: rest) d cert addrs tr Hpre) as (d0 & E & Happ & _).
  destruct (Join_terminal last rest d0 cert addrs
              (tr ++ flat_map (restart_events d cert addrs) pre) Hlast) as (d' & E' & _).
  destruct (restarts_counts d cert addrs pre) as (H1 & H2 & H3).
  change ev with (flat_map (restart_events d cert addrs) pre).
  exists d'.
  split; [|repeat split].
  - rewrite E, E', Happ, <- app_assoc. reflexivity.
  - exact H1.
  - exact H2.
  - exact H3.
  - rewrite count_app, H1. unfold count. simpl. lia.
  - apply restarts_same_parameters.
  - clear. induction pre as [|att pre IH]; [reflexivity|].
    cbn [flat_map List.filter]. rewrite count_app.
    unfold restart_events at 1.
    destruct (att_close att); cbn [length]; rewrite IH; reflexivity.
Qed.

(** C1 on a script with two graceful restarts, the first of which fails to
    close the database, followed by a successful open. *)
Lemma Join_closes_once_per_graceful_restart_witness :
  let restart1 := {| att_getenv := ""; att_new := None;
                     att_open := Some ErrGracefulAbort;
                     att_close := Some (ErrOther "sql: database is closed") |} in
  let restart2 := {| att_getenv := ""; att_new := None;
                     att_open := Some (ErrorfW "schema: %w" [] ErrGracefulAbort);
                     att_close := None |} in
  let good := {| att_getenv := ""; att_new := None; att_open := None;
                 att_close := None |} in
  let d := NewDB (Some Sample.cert) Sample.os Sample.listen in
  let app := join_app d ["10.0.0.2:7000"] good in
  exists d',
    Join ([restart1; restart2] ++ good :: []) d (Some Sample.cert) ["10.0.0.2:7000"] [] =
    Some (Ret None, d',
          [EvDqliteNew app (Some Sample.cert);
           EvOpen false;
           EvLog Debug "Closing database after upgrade notification";
           EvDBClose;
           EvLog Error "Failed to close database";
           EvDqliteNew app (Some Sample.cert);
           EvOpen false;
           EvLog Debug "Closing database after upgrade notification";
           EvDBClose;
           EvDqliteNew app (Some Sample.cert);
           EvOpen false]).
Proof.
  intros restart1 restart2 good d app.
  destruct (Join_closes_once_per_graceful_restart [restart1; restart2] good [] d
              (Some Sample.cert) ["10.0.0.2:7000"] [] eq_refl eq_refl)
    as (d' & E & _).
  exists d'. exact E.
Defined.

(** A script of graceful restarts only never leaves the loop: the code puts
    no bound on the number of iterations. *)
Lemma Join_keeps_restarting script d cert addrs tr :
  forallb graceful_restart script = true ->
  Join script d cert addrs tr = None.
Proof.
  intros H.
  destruct (Join_restarts script [] d cert addrs tr H) as (d0 & E & _).
  rewrite app_nil_r in E. rewrite E. reflexivity.
Qed.

End JoinFacts.

(* ===================================================================== *)
(** * Properties of the heartbeat *)
(* ===================================================================== *)

Section HeartbeatFacts.
Import DB.

Lemma set_heartbeatLock_release d :
  heartbeatLock d = false ->
  set_heartbeatLock false (set_heartbeatLock true d) = d.
Proof. destruct d; simpl; intros ->; reflexivity. Qed.

(** The statements under the lock only append to the trace, and what they
    append has a control-plane client or an instruction in it only when the
    leader's own address is the local one. *)
Lemma heartbeat_locked_events env d tr :
  exists ev,
    snd (heartbeat_locked env d tr) = tr ++ ev /\
    (forall e, In e ev -> is_instruction e = true \/ is_client e = true ->
       (forall b, e = EvHeartbeat b -> b = true) /\
       exists app info,
         dqlite d = Some app /\ hb_Leader env = None /\
         hb_LeaderInfo env = inl info /\
         ni_Address info = App_Address app) /\
    fst (heartbeat_locked env d tr) =
      match dqlite d with Some _ => Returned | None => Panicked end.
Proof.
  unfold heartbeat_locked.
  destruct (dqlite d) as [app|] eqn:Hd.
  2:{ exists []. rewrite app_nil_r. simpl.
      split; [reflexivity|]. split; [intros e []|]. reflexivity. }
  destruct (hb_Leader env) as [e1|] eqn:HL.
  { eexists. simpl. rewrite <- !List.app_assoc. split; [reflexivity|]. split.
    - simpl. intros e [<-|[<-|[]]] [H|H]; discriminate H.
    - reflexivity. }
  destruct (hb_LeaderInfo env) as [info|e2] eqn:HI.
  2:{ eexists. simpl. rewrite <- !List.app_assoc. split; [reflexivity|]. split.
      - simpl. intros e [<-|[<-|[<-|[]]]] [H|H]; discriminate H.
      - reflexivity. }
  destruct (String.eqb_spec (ni_Address info) (App_Address app)) as [Ha|Ha]; simpl.
  2:{ eexists. rewrite <- !List.app_assoc. split; [reflexivity|]. split.
      - simpl. intros e [<-|[<-|[]]] [H|H]; discriminate H.
      - reflexivity. }
  assert (Hleader : exists app0 info0,
             Some app = Some app0 /\ @None error = None /\
             @inl NodeInfo error info = inl info0 /\
             ni_Address info0 = App_Address app0).
  { exists app, info. repeat split. exact Ha. }
  destruct (hb_clientNew env) as [e3|].
  { eexists. simpl. rewrite <- !List.app_assoc. split; [reflexivity|]. split.
    - simpl. intros e [<-|[<-|[<-|[<-|[]]]]] [H|H]; try discriminate H;
        (split; [intros b Hb; discriminate Hb|exact Hleader]).
    - reflexivity. }
  destruct (hb_Heartbeat env) as [e4|].
  - eexists. simpl. rewrite <- !List.app_assoc. split; [reflexivity|]. split.
    + simpl. intros e [<-|[<-|[<-|[<-|[<-|[]]]]]] [H|H]; try discriminate H;
        (split; [intros b Hb; try discriminate Hb; injection Hb as <-; reflexivity
                |exact Hleader]).
    + reflexivity.
  - eexists. simpl. rewrite <- !List.app_assoc. split; [reflexivity|]. split.
    + simpl. intros e [<-|[<-|[<-|[<-|[]]]]] [H|H]; try discriminate H;
        (split; [intros b Hb; try discriminate Hb; injection Hb as <-; reflexivity
                |exact Hleader]).
    + reflexivity.
Qed.

(** C7: an invocation of [heartbeat] only appends to the trace; a
    [begin heartbeat round] instruction appears in what it appends only on
    an open handle whose engine address is the address the leader reports
    for itself; on a non-leader no instruction is issued and no
    control-plane client is created, the invocation does not panic, and
    with the lock free it returns and leaves the handle as it was. *)
Theorem heartbeat_only_from_leader (env : HbEnv) (d : DB) (tr : list Event) :
  exists o d' ev,
    heartbeat env d tr = (o, d', tr ++ ev) /\
    (forall b, In (EvHeartbeat b) ev ->
       b = true /\ IsOpen (Some d) = true /\
       exists app info,
         dqlite d = Some app /\ hb_LeaderInfo env = inl info /\
         ni_Address info = App_Address app) /\
    (non_leader env d ->
       (forall e, In e ev -> is_instruction e = false /\ is_client e = false) /\
       (dqlite d <> None -> o <> Panicked) /\
       (dqlite d <> None -> heartbeatLock d = false -> o = Returned /\ d' = d)).
Proof.
  unfold heartbeat.
  destruct (IsOpen (Some d)) eqn:Hopen; simpl.
  2:{ exists Returned, d, [EvLog Debug "Database is not yet open, aborting heartbeat"].
      split; [reflexivity|]. split.
      - intros b [H|[]]; discriminate H.
      - intros _. split; [|split].
        + intros e [<-|[]]. split; reflexivity.
        + discriminate.
        + intros _ _. split; reflexivity. }
  destruct (heartbeatLock d) eqn:Hlock.
  { exists Blocked, d, []. rewrite app_nil_r.
    split; [reflexivity|]. split.
    - intros b [].
    - intros _. split; [|split].
      + intros e [].
      + discriminate.
      + intros _ H; discriminate H. }
  destruct (heartbeat_locked_events env (set_heartbeatLock true d) (tr ++ [EvLock]))
    as (ev & Hev & Hin & Hpanic).
  destruct (heartbeat_locked env (set_heartbeatLock true d) (tr ++ [EvLock]))
    as [o tr1]; simpl in Hev, Hpanic. subst tr1.
  exists o, (set_heartbeatLock false (set_heartbeatLock true d)),
         ([EvLock] ++ ev ++ [EvUnlock]).
  split; [rewrite <- !List.app_assoc; reflexivity|]. split.
  - intros b Hb. simpl in Hb. destruct Hb as [Hb|Hb]; [discriminate Hb|].
    apply in_app_or in Hb as [Hb|[Hb|[]]]; [|discriminate Hb].
    destruct (Hin _ Hb (or_introl eq_refl)) as (Hb' & app & info & H1 & _ & H3 & H4).
    split; [exact (Hb' b eq_refl)|]. split; [reflexivity|].
    exists app, info. auto.
  - intros Hnl. split; [|split].
    + intros e He. simpl in He. destruct He as [<-|He]; [split; reflexivity|].
      apply in_app_or in He as [He|[<-|[]]]; [|split; reflexivity].
      destruct (is_instruction e) eqn:E1; [|destruct (is_client e) eqn:E2]; auto.
      * destruct (Hin _ He (or_introl E1)) as (_ & app & info & H1 & _ & H3 & H4).
        destruct (Hnl app info H1 H3 H4).
      * destruct (Hin _ He (or_intror E2)) as (_ & app & info & H1 & _ & H3 & H4).
        destruct (Hnl app info H1 H3 H4).
    + intros Hd Ho. rewrite Ho in Hpanic.
      destruct (dqlite d); [discriminate Hpanic|exact (Hd eq_refl)].
    + intros Hd _. split; [|apply set_heartbeatLock_release; exact Hlock].
      rewrite Hpanic. destruct (dqlite d); [reflexivity|destruct (Hd eq_refl)].
Qed.

(** C7 on an open handle whose engine reports another node as leader. *)
Lemma heartbeat_only_from_leader_witness :
  non_leader Sample.follower_env Sample.opened /\
  exists o d' ev,
    heartbeat Sample.follower_env Sample.opened [] = (o, d', [] ++ ev) /\
    (forall e, In e ev -> is_instruction e = false /\ is_client e = false) /\
    o = Returned /\ d' = Sample.opened.
Proof.
  assert (Hnl : non_leader Sample.follower_env Sample.opened).
  { intros app info Happ Hinfo. injection Happ as <-. injection Hinfo as <-.
    discriminate. }
  split; [exact Hnl|].
  destruct (heartbeat_only_from_leader Sample.follower_env Sample.opened [])
    as (o & d' & ev & E & _ & H).
  destruct (H Hnl) as (Hev & _ & Hret).
  destruct Hret as [Ho Hd]; [discriminate|reflexivity|].
  exists o, d', ev. split; [exact E|]. split; [exact Hev|]. split; assumption.
Defined.

Example heartbeat_follower_run :
  heartbeat Sample.follower_env Sample.opened [] =
  (Returned, Sample.opened, [EvLock; EvLeader; EvLeaderInfo; EvUnlock]).
Proof. reflexivity. Qed.

Example heartbeat_leader_run :
  heartbeat Sample.leader_env Sample.opened [] =
  (Returned, Sample.opened,
   [EvLock; EvLeader; EvLeaderInfo;
    EvClientNew "/var/lib/microcluster/node1/control.socket";
    EvHeartbeat true; EvUnlock]).
Proof. reflexivity. Qed.

Example heartbeat_not_open_run :
  heartbeat Sample.leader_env (NewDB (Some Sample.cert) Sample.os Sample.listen) [] =
  (Returned, NewDB (Some Sample.cert) Sample.os Sample.listen,
   [EvLog Debug "Database is not yet open, aborting heartbeat"]).
Proof. reflexivity. Qed.

(** ** Invocations running concurrently *)

(** Alone on a handle whose mutex is free, the statements taken one at a
    time do what the function does. *)
Lemma heartbeat_run_alone env d tr :
  heartbeatLock d = false ->
  exists o tr',
    heartbeat env d tr = (o, d, tr') /\
    run d (replicate 8 0%nat) (spawn [env] tr) =
    ([(env, PcDone o)], {| sh_lock := false; sh_trace := tr' |}).
Proof.
  intros Hlock.
  destruct d as [cc sc la nm o sq dq ac uc [cn] cx hl]. simpl in Hlock. subst hl.
  destruct env as [l li cl hb].
  unfold heartbeat, heartbeat_locked, spawn.
  destruct cn; [|cbn; eexists; eexists; split; reflexivity].
  destruct dq as [app|]; [|cbn; eexists; eexists; split; reflexivity].
  destruct l as [e1|];
    [cbn; rewrite <- ?List.app_assoc; cbn; eexists; eexists; split; reflexivity|].
  destruct li as [info|e2];
    [|cbn; rewrite <- ?List.app_assoc; cbn; eexists; eexists; split; reflexivity].
  destruct (String.eqb (ni_Address info) (App_Address app)) eqn:E;
    [|cbn; rewrite E; cbn; rewrite <- ?List.app_assoc; cbn;
      eexists; eexists; split; reflexivity].
  destruct cl as [e3|];
    [cbn; rewrite E; cbn; rewrite <- ?List.app_assoc; cbn;
     eexists; eexists; split; reflexivity|].
  destruct hb as [e4|];
    cbn; rewrite E; cbn; rewrite <- ?List.app_assoc; cbn;
    eexists; eexists; split; reflexivity.
Qed.

(** What one statement does to a non-leader: it stays on the quiet side of
    the gate and adds neither a client nor an instruction to the trace. *)
Lemma thread_step_before_gate env d pc sh pc' sh' :
  dqlite d <> None -> non_leader env d ->
  before_gate env pc -> silent (sh_trace sh) ->
  thread_step env d pc sh = Some (pc', sh') ->
  before_gate env pc' /\ silent (sh_trace sh').
Proof.
  intros Hd Hnl Hpc Hs.
  assert (Hemit : forall evs,
            Forall (fun e => is_instruction e = false /\ is_client e = false) evs ->
            silent (sh_trace (sh_emit evs sh))).
  { intros evs Hevs. unfold silent, sh_emit; simpl.
    apply Forall_app. split; assumption. }
  destruct pc; cbn [thread_step before_gate] in *.
  - destruct (negb (IsOpen (Some d))); intros H; injection H as <- <-.
    + split; [reflexivity|]. apply Hemit. repeat constructor.
    + split; [exact I|exact Hs].
  - destruct (sh_lock sh); [discriminate|]. intros H; injection H as <- <-.
    split; [exact I|]. simpl. apply Forall_app. split; [exact Hs|repeat constructor].
  - destruct (dqlite d); [|destruct (Hd eq_refl)].
    destruct (hb_Leader env); intros H; injection H as <- <-.
    + split; [reflexivity|]. apply Hemit. repeat constructor.
    + split; [exact I|]. apply Hemit. repeat constructor.
  - destruct (hb_LeaderInfo env) as [info|e] eqn:Hi; intros H; injection H as <- <-.
    + split; [exact Hi|]. apply Hemit. repeat constructor.
    + split; [reflexivity|]. apply Hemit. repeat constructor.
  - destruct (dqlite d) as [app|] eqn:Happ; [|destruct (Hd eq_refl)].
    destruct (String.eqb_spec (ni_Address info) (App_Address app)) as [E|E]; simpl.
    + destruct (Hnl app info Happ Hpc E).
    + intros H; injection H as <- <-. split; [reflexivity|exact Hs].
  - destruct Hpc.
  - destruct Hpc.
  - intros H; injection H as <- <-. split; [exact Hpc|]. simpl.
    apply Forall_app. split; [exact Hs|repeat constructor].
  - discriminate.
Qed.

Lemma run_app d s1 s2 st : run d (s1 ++ s2) st = run d s2 (run d s1 st).
Proof.
  revert st. induction s1 as [|i s1 IH]; intros st; [reflexivity|].
  simpl. destruct (system_step d i st); apply IH.
Qed.

Lemma system_step_inv d i ths sh st' :
  system_step d i (ths, sh) = Some st' ->
  exists env pc pc' sh',
    ths !! i = Some (env, pc) /\
    thread_step env d pc sh = Some (pc', sh') /\
    st' = (<[i := (env, pc')]> ths, sh').
Proof.
  unfold system_step. cbn [fst snd].
  destruct (ths !! i) as [[env pc]|]; [|discriminate].
  destruct (thread_step env d pc sh) as [[pc' sh']|] eqn:Hstep; [|discriminate].
  intros H; injection H as <-. exists env, pc, pc', sh'. auto.
Qed.

(** Safety under any schedule. *)
Lemma run_before_gate d schedule ths sh :
  dqlite d <> None ->
  Forall (fun t => non_leader (fst t) d /\ before_gate (fst t) (snd t)) ths ->
  silent (sh_trace sh) ->
  Forall (fun t => non_leader (fst t) d /\ before_gate (fst t) (snd t))
         (fst (run d schedule (ths, sh))) /\
  silent (sh_trace (snd (run d schedule (ths, sh)))).
Proof.
  intros Hd. revert ths sh.
  induction schedule as [|i schedule IH]; intros ths sh Hths Hs; [split; assumption|].
  cbn [run].
  destruct (system_step d i (ths, sh)) as [st'|] eqn:Hstep; [|apply IH; assumption].
  apply system_step_inv in Hstep as (env & pc & pc' & sh' & Hi & Hstep & ->).
  pose proof (Forall_lookup_1 _ _ _ _ Hths Hi) as [Hnl Hpc]. simpl in Hnl, Hpc.
  destruct (thread_step_before_gate _ _ _ _ _ _ Hd Hnl Hpc Hs Hstep) as [Hpc' Hs'].
  apply IH; [|exact Hs'].
  apply Forall_insert; [exact Hths|]. split; assumption.
Qed.

(** ** The mutex and termination *)

Lemma holders_insert ths i env pc pc' :
  ths !! i = Some (env, pc) ->
  (holders (<[i := (env, pc')]> ths) + (if holds_lock pc then 1 else 0) =
   holders ths + (if holds_lock pc' then 1 else 0))%nat.
Proof.
  unfold holders. revert i. induction ths as [|t ths IH]; intros i Hi; [discriminate|].
  destruct i as [|i]; simpl in *.
  - injection Hi as ->. simpl.
    destruct (holds_lock pc), (holds_lock pc'); simpl; lia.
  - specialize (IH i Hi).
    destruct (holds_lock (snd t)); simpl; [f_equal|]; exact IH.
Qed.

Lemma total_steps_left_insert ths i env pc pc' :
  ths !! i = Some (env, pc) ->
  (total_steps_left (<[i := (env, pc')]> ths) + steps_left pc =
   total_steps_left ths + steps_left pc')%nat.
Proof.
  unfold total_steps_left. revert i.
  induction ths as [|t ths IH]; intros i Hi; [discriminate|].
  destruct i as [|i]; simpl in *.
  - injection Hi as ->. simpl. lia.
  - specialize (IH i Hi). rewrite <- !Nat.add_assoc. f_equal. exact IH.
Qed.

Lemma holders_pos ths :
  (0 < holders ths)%nat ->
  exists i env pc, ths !! i = Some (env, pc) /\ holds_lock pc = true.
Proof.
  unfold holders. induction ths as [|[env pc] ths IH]; simpl; [lia|].
  destruct (holds_lock pc) eqn:H; simpl.
  - intros _. exists 0%nat, env, pc. split; [reflexivity|exact H].
  - intros Hpos. destruct (IH Hpos) as (i & env' & pc' & Hi & Hh).
    exists (S i), env', pc'. split; assumption.
Qed.

Lemma holders_zero ths i env pc :
  holders ths = 0%nat -> ths !! i = Some (env, pc) -> holds_lock pc = false.
Proof.
  unfold holders. revert i. induction ths as [|t ths IH]; intros i H Hi; [discriminate|].
  simpl in H. destruct (holds_lock (snd t)) eqn:Ht; [discriminate H|].
  destruct i as [|i]; simpl in Hi.
  - injection Hi as ->. exact Ht.
  - exact (IH i H Hi).
Qed.

Lemma total_steps_left_pos ths :
  (0 < total_steps_left ths)%nat ->
  exists i env pc, ths !! i = Some (env, pc) /\ (0 < steps_left pc)%nat.
Proof.
  unfold total_steps_left. induction ths as [|[env pc] ths IH]; simpl; [lia|].
  destruct (steps_left pc) eqn:H; simpl.
  - intros Hpos. destruct (IH Hpos) as (i & env' & pc' & Hi & Hh).
    exists (S i), env', pc'. split; assumption.
  - intros _. exists 0%nat, env, pc. split; [reflexivity|lia].
Qed.

Lemma total_steps_left_zero ths :
  total_steps_left ths = 0%nat -> Forall (fun t => is_done t = true) ths.
Proof.
  unfold total_steps_left. induction ths as [|[env pc] ths IH]; simpl; intros H.
  - constructor.
  - constructor; [|apply IH; lia].
    destruct pc; simpl in H; try lia. reflexivity.
Qed.

(** A statement moves an invocation strictly closer to its end, and takes
    and releases the mutex as [Lock] and [Unlock] do. *)
Lemma thread_step_effect env d pc sh pc' sh' :
  thread_step env d pc sh = Some (pc', sh') ->
  (steps_left pc' < steps_left pc)%nat /\
  ((holds_lock pc = true -> sh_lock sh = true) ->
   ((if sh_lock sh' then 1 else 0) + (if holds_lock pc then 1 else 0) =
    (if sh_lock sh then 1 else 0) + (if holds_lock pc' then 1 else 0))%nat).
Proof.
  destruct pc; cbn [thread_step].
  - destruct (negb _); intros H; injection H as <- <-; simpl;
      (split; [lia|intros _; destruct (sh_lock sh); reflexivity]).
  - destruct (sh_lock sh) eqn:L; [discriminate|].
    intros H; injection H as <- <-; simpl. split; [lia|reflexivity].
  - destruct (dqlite d); [destruct (hb_Leader env)|];
      intros H; injection H as <- <-; simpl;
      (split; [lia|intros ->; reflexivity]).
  - destruct (hb_LeaderInfo env); intros H; injection H as <- <-; simpl;
      (split; [lia|intros ->; reflexivity]).
  - destruct (dqlite d); [destruct (negb _)|];
      intros H; injection H as <- <-; simpl;
      (split; [lia|intros L; rewrite L; reflexivity]).
  - destruct (hb_clientNew env); intros H; injection H as <- <-; simpl;
      (split; [lia|intros ->; reflexivity]).
  - destruct (hb_Heartbeat env); intros H; injection H as <- <-; simpl;
      (split; [lia|intros ->; reflexivity]).
  - intros H; injection H as <- <-; simpl.
    split; [lia|intros ->; reflexivity].
  - discriminate.
Qed.

(** An invocation can move unless it is over or waits for a held mutex. *)
Lemma thread_step_enabled env d pc sh :
  (0 < steps_left pc)%nat ->
  (holds_lock pc = false -> sh_lock sh = false) ->
  exists pc' sh', thread_step env d pc sh = Some (pc', sh').
Proof.
  destruct pc; cbn [thread_step steps_left holds_lock]; intros Hpos Hl; eauto.
  - destruct (negb _); eauto.
  - rewrite (Hl eq_refl). eauto.
  - destruct (dqlite d); [destruct (hb_Leader env)|]; eauto.
  - destruct (hb_LeaderInfo env); eauto.
  - destruct (dqlite d); [destruct (negb _)|]; eauto.
  - destruct (hb_clientNew env); eauto.
  - destruct (hb_Heartbeat env); eauto.
  - lia.
Qed.

Lemma holders_lookup ths i env pc :
  ths !! i = Some (env, pc) -> holds_lock pc = true -> (0 < holders ths)%nat.
Proof.
  intros Hi Hh. destruct (holders ths) eqn:E; [|lia].
  rewrite (holders_zero _ _ _ _ E Hi) in Hh. discriminate Hh.
Qed.

Lemma system_step_lock_inv d i st st' :
  lock_inv st -> system_step d i st = Some st' ->
  lock_inv st' /\ (total_steps_left (fst st') < total_steps_left (fst st))%nat.
Proof.
  destruct st as [ths sh]. unfold lock_inv. cbn [fst snd]. intros Hinv Hsys.
  apply system_step_inv in Hsys as (env & pc & pc' & sh' & Hi & Hstep & ->).
  cbn [fst snd].
  destruct (thread_step_effect _ _ _ _ _ _ Hstep) as [Hlt Hlock].
  pose proof (holders_insert ths i env pc pc' Hi) as Hh.
  pose proof (total_steps_left_insert ths i env pc pc' Hi) as Ht.
  assert (Hheld : holds_lock pc = true -> sh_lock sh = true).
  { intros Hp. pose proof (holders_lookup _ _ _ _ Hi Hp) as Hpos.
    destruct (sh_lock sh); [reflexivity|lia]. }
  specialize (Hlock Hheld). split; lia.
Qed.

Lemma run_lock_inv d schedule st : lock_inv st -> lock_inv (run d schedule st).
Proof.
  revert st. induction schedule as [|i schedule IH]; intros st Hinv; [exact Hinv|].
  simpl. destruct (system_step d i st) as [st'|] eqn:Hstep; [|apply IH; exact Hinv].
  apply IH. exact (proj1 (system_step_lock_inv _ _ _ _ Hinv Hstep)).
Qed.

(** No deadlock: as long as an invocation is not over, one of them can move. *)
Lemma system_progress d st :
  lock_inv st -> (0 < total_steps_left (fst st))%nat ->
  exists i st', system_step d i st = Some st'.
Proof.
  destruct st as [ths sh]. unfold lock_inv. simpl. intros Hinv Hpos.
  assert (Hgo : forall i env pc,
            ths !! i = Some (env, pc) -> (0 < steps_left pc)%nat ->
            (holds_lock pc = false -> sh_lock sh = false) ->
            exists i' st', system_step d i' (ths, sh) = Some st').
  { intros i env pc Hi Hp Hl.
    destruct (thread_step_enabled env d pc sh Hp Hl) as (pc' & sh' & Hstep).
    exists i. unfold system_step. cbn [fst snd]. rewrite Hi, Hstep. eauto. }
  destruct (sh_lock sh) eqn:L.
  - destruct (holders_pos ths) as (i & env & pc & Hi & Hh); [lia|].
    apply (Hgo i env pc Hi).
    + destruct pc; simpl in *; try discriminate; lia.
    + rewrite Hh. discriminate.
  - destruct (total_steps_left_pos ths Hpos) as (i & env & pc & Hi & Hp).
    apply (Hgo i env pc Hi Hp). reflexivity.
Qed.

(** Termination: from any state the mutex discipline allows, some schedule
    runs every invocation to its end. *)
Lemma run_to_completion d st :
  lock_inv st ->
  exists schedule, Forall (fun t => is_done t = true) (fst (run d schedule st)).
Proof.
  remember (total_steps_left (fst st)) as n eqn:Hn.
  revert st Hn. induction n as [n IH] using lt_wf_ind. intros st Hn Hinv.
  destruct (Nat.eq_dec n 0%nat) as [->|Hpos].
  - exists []. apply total_steps_left_zero. symmetry. exact Hn.
  - destruct (system_progress d st Hinv) as (i & st' & Hstep); [lia|].
    destruct (system_step_lock_inv _ _ _ _ Hinv Hstep) as [Hinv' Hlt].
    destruct (IH (total_steps_left (fst st')) ltac:(lia) st' eq_refl Hinv')
      as (schedule & Hdone).
    exists (i :: schedule). simpl. rewrite Hstep. exact Hdone.
Qed.

Lemma spawn_lock_inv envs tr : lock_inv (spawn envs tr).
Proof.
  unfold lock_inv, spawn, holders. simpl.
  induction envs as [|env envs IH]; [reflexivity|exact IH].
Qed.

Lemma holders_done ths :
  Forall (fun t => is_done t = true) ths -> holders ths = 0%nat.
Proof.
  unfold holders. induction 1 as [|[env pc] ths Hd _ IH]; [reflexivity|].
  simpl. unfold is_done in Hd. simpl in Hd.
  destruct pc; try discriminate Hd. exact IH.
Qed.

(** X12: heartbeats started concurrently on a non-leader, under any schedule:
    the trace never gets a client or an instruction, and whatever has
    happened so far the invocations can all still run to their end, where
    each has returned and the mutex is free. *)
Theorem heartbeat_concurrent_non_leaders d envs tr schedule :
  dqlite d <> None ->
  Forall (fun env => non_leader env d) envs ->
  silent tr ->
  silent (sh_trace (snd (run d schedule (spawn envs tr)))) /\
  exists more,
    let st := run d (schedule ++ more) (spawn envs tr) in
    Forall (fun t => snd t = PcDone Returned) (fst st) /\
    silent (sh_trace (snd st)) /\
    sh_lock (snd st) = false.
Proof.
  intros Hd Hnl Hs.
  assert (Hstart : Forall (fun t => non_leader (fst t) d /\ before_gate (fst t) (snd t))
                     (map (fun env => (env, PcStart)) envs)).
  { induction Hnl as [|env envs Henv _ IH]; constructor.
    - split; [exact Henv|exact I].
    - exact IH. }
  pose proof (fun s => run_before_gate d s _ {| sh_lock := false; sh_trace := tr |}
                         Hd Hstart Hs) as Hsafe.
  fold (spawn envs tr) in Hsafe.
  split; [apply Hsafe|].
  destruct (run_to_completion d (run d schedule (spawn envs tr))) as (more & Hdone).
  { apply run_lock_inv, spawn_lock_inv. }
  exists more. cbv zeta.
  destruct (Hsafe (schedule ++ more)) as [Hths Hsilent].
  pose proof (run_lock_inv d (schedule ++ more) _ (spawn_lock_inv envs tr)) as Hinv.
  rewrite run_app in Hths, Hsilent, Hinv |- *.
  split; [|split].
  - apply Forall_lookup_2. intros i [env pc] Hi.
    pose proof (Forall_lookup_1 _ _ _ _ Hths Hi) as [_ Hpc].
    pose proof (Forall_lookup_1 _ _ _ _ Hdone Hi) as Hd'.
    unfold is_done in Hd'. simpl in *.
    destruct pc; try discriminate Hd'. rewrite Hpc. reflexivity.
  - exact Hsilent.
  - unfold lock_inv in Hinv. rewrite (holders_done _ Hdone) in Hinv.
    destruct (sh_lock _); [discriminate Hinv|reflexivity].
Qed.

(** Two invocations on the sample follower, their statements taken in
    turn: the second waits for the mutex, and neither instructs. *)
Example heartbeat_two_goroutines_run :
  run Sample.opened [0; 1; 0; 1; 0; 1; 0; 0; 0; 1; 1; 1; 1; 1]%nat
      (spawn [Sample.follower_env; Sample.follower_env] []) =
  ([(Sample.follower_env, PcDone Returned); (Sample.follower_env, PcDone Returned)],
   {| sh_lock := false;
      sh_trace := [EvLock; EvLeader; EvLeaderInfo; EvUnlock;
                   EvLock; EvLeader; EvLeaderInfo; EvUnlock] |}).
Proof. reflexivity. Qed.

End HeartbeatFacts.

(* ===================================================================== *)
(** * Properties of the tunnel dial *)
(* ===================================================================== *)

Section DialFacts.
Import DB.

Lemma count_conn_close_self conn :
  count (is_conn_close conn) [EvConnClose conn] = 1%nat.
Proof. unfold count. simpl. rewrite Z.eqb_refl. reflexivity. Qed.

Ltac dial_events_tail :=
  intros e He; simpl in He;
  repeat (destruct He as [<-|He]; [discriminate|]); destruct He.

Ltac dial_fails :=
  right; split; [reflexivity|]; eexists; split; [reflexivity|];
  match goal with
  | |- exists ev0, ?l = _ /\ _ => exists (removelast l)
  end;
  split; [reflexivity|unfold count; simpl; reflexivity].

Ltac dial_succeeds :=
  left; split; [reflexivity|]; split; [reflexivity|];
  unfold count; simpl; reflexivity.

Ltac dial_error_kind :=
  first [left; split; reflexivity
        |right; split; [reflexivity|intros H; discriminate H]].

Ltac dial_case :=
  unfold return_; simpl; rewrite <- ?List.app_assoc; simpl;
  eexists; eexists; split; [reflexivity|];
  split; [first [dial_fails|dial_succeeds]|];
  split; [dial_error_kind|dial_events_tail].

(** Every way the function can end once the TLS connection stands. *)
Lemma dial_connected_cases env ctx addr d tr conn :
  connected env d conn ->
  exists r ev,
    dqliteNetworkDial env ctx addr d tr = Ret (r, tr ++ ev) /\
    ((exchange_ok env = true /\ r = inl conn /\
      count (is_conn_close conn) ev = 0%nat) \/
     (exchange_ok env = false /\
      exists err,
        r = inr err /\
        exists ev0, ev = ev0 ++ [EvConnClose conn] /\
                    count (is_conn_close conn) ev0 = 0%nat)) /\
    ((upgrade_required env = true /\ r = inr upgrade_needed) \/
     (upgrade_required env = false /\ r <> inr upgrade_needed)) /\
    (forall e, In e ev -> e <> EvGoHeartbeat).
Proof.
  intros (cert & peer & Hc & Hp & Ht & Hu & Hd).
  unfold dqliteNetworkDial, exchange_ok, upgrade_required.
  rewrite Hc, Hp, Ht, Hu, Hd.
  destruct (de_ExtractConn env) as [e1|];
    [|destruct (de_SetTimeouts env) as [e2|]];
    (destruct (de_requestWrite env) as [e3|]; [dial_case|]);
    (destruct (de_ReadResponse env) as [response|e4]; [|dial_case]);
    (destruct (StatusCode response =? StatusUpgradeRequired) eqn:H426;
       [apply Z.eqb_eq in H426; rewrite H426; dial_case|]);
    (destruct (StatusCode response =? StatusSwitchingProtocols) eqn:H101;
       [|dial_case]);
    (destruct (String.eqb (Header_Get "Upgrade" (resp_Header response)) "dqlite") eqn:Hh;
       dial_case).
Qed.

(** C4: once the TLS connection stands, the dial returns the error
    [Upgrade needed] exactly when the request went out and the peer answered
    with status 426; no other failure of the exchange yields that error; the
    connection is closed before the dial returns, and [dialFunc] hands the
    engine the wrapped error, no connection, and starts no heartbeat. *)
Theorem dial_status_426_is_upgrade_needed
    (env : DialEnv) (ctx : Context) (addr : string) (d : DB)
    (tr : list Event) (conn : Conn) :
  connected env d conn ->
  exists r ev,
    dqliteNetworkDial env ctx addr d tr = Ret (r, tr ++ ev) /\
    (r = inr upgrade_needed <-> upgrade_required env = true) /\
    (upgrade_required env = true ->
       (exists ev0, ev = ev0 ++ [EvConnClose conn]) /\
       dialFunc env d ctx addr tr =
         Ret (inr (ErrorfW "Failed to dial https socket: %w" [] upgrade_needed),
              tr ++ ev) /\
       ~ In EvGoHeartbeat ev).
Proof.
  intros Hconn.
  destruct (dial_connected_cases env ctx addr d tr conn Hconn)
    as (r & ev & E & Hclose & Hkind & Hev).
  exists r, ev. split; [exact E|]. split.
  - destruct Hkind as [[Hu Hr]|[Hu Hr]]; rewrite Hu; split; intros H;
      try assumption; try reflexivity; try discriminate H; contradiction.
  - intros Hu.
    destruct Hkind as [[_ Hr]|[Hu' _]]; [|rewrite Hu in Hu'; discriminate Hu'].
    split; [|split].
    + destruct Hclose as [(_ & Hr' & _)|(_ & err & _ & ev0 & Hev0 & _)].
      * rewrite Hr in Hr'. discriminate Hr'.
      * exists ev0. exact Hev0.
    + unfold dialFunc. rewrite E, Hr. reflexivity.
    + intros Hin. exact (Hev _ Hin eq_refl).
Qed.

(** C5: once the TLS connection stands, the dial returns the connection
    exactly when the request was written and the answer was 101 with
    [Upgrade: dqlite], and then the connection has not been closed; in
    every other case (write failure, read failure, another status, another
    [Upgrade] header) it returns an error, and the last thing it did before
    returning was to close the connection, once. *)
Theorem dial_failure_closes_connection
    (env : DialEnv) (ctx : Context) (addr : string) (d : DB)
    (tr : list Event) (conn : Conn) :
  connected env d conn ->
  exists r ev,
    dqliteNetworkDial env ctx addr d tr = Ret (r, tr ++ ev) /\
    (r = inl conn <-> exchange_ok env = true) /\
    (forall c, r = inl c -> c = conn /\ count (is_conn_close conn) ev = 0%nat) /\
    (forall err, r = inr err ->
       exchange_ok env = false /\
       exists ev0, ev = ev0 ++ [EvConnClose conn] /\
                   count (is_conn_close conn) ev0 = 0%nat) /\
    (exchange_ok env = false -> exists err, r = inr err).
Proof.
  intros Hconn.
  destruct (dial_connected_cases env ctx addr d tr conn Hconn)
    as (r & ev & E & Hclose & _ & _).
  exists r, ev. split; [exact E|].
  destruct Hclose as [(Hok & Hr & Hn)|(Hok & err & Hr & ev0 & Hev0 & Hn)];
    rewrite Hok, Hr.
  - split; [split; reflexivity|]. split; [|split].
    + intros c Hc. injection Hc as <-. split; [reflexivity|exact Hn].
    + intros err H. discriminate H.
    + intros H. discriminate H.
  - split; [split; intros H; discriminate H|]. split; [|split].
    + intros c H. discriminate H.
    + intros err' _. split; [reflexivity|]. exists ev0. split; assumption.
    + intros _. exists err. reflexivity.
Qed.

(** The four failures C5 names, written out on the environment. *)
Lemma exchange_ok_false_iff env :
  exchange_ok env = false <->
  (exists err, de_requestWrite env = Some err) \/
  (exists err, de_ReadResponse env = inr err) \/
  (exists response, de_ReadResponse env = inl response /\
     (StatusCode response <> 101 \/
      Header_Get "Upgrade" (resp_Header response) <> "dqlite")).
Proof.
  unfold exchange_ok, StatusSwitchingProtocols.
  destruct (de_requestWrite env) as [e|].
  { split; [intros _; left; eauto|reflexivity]. }
  destruct (de_ReadResponse env) as [response|e].
  2:{ split; [intros _; right; left; eauto|reflexivity]. }
  rewrite andb_false_iff, Z.eqb_neq, String.eqb_neq. split.
  - intros H. right. right. exists response. auto.
  - intros [[e H]|[[e H]|(r & Hr & H)]]; try discriminate.
    injection Hr as <-. exact H.
Qed.

(** C4 against a peer that answers 426 with the right [Upgrade] header. *)
Lemma dial_status_426_is_upgrade_needed_witness :
  exists r ev,
    dqliteNetworkDial (Sample.peer 426 "dqlite") Sample.deadline_ctx
      "10.0.0.2:7000" Sample.opened [] = Ret (r, [] ++ ev) /\
    (r = inr upgrade_needed <-> upgrade_required (Sample.peer 426 "dqlite") = true) /\
    (upgrade_required (Sample.peer 426 "dqlite") = true ->
       (exists ev0, ev = ev0 ++ [EvConnClose Sample.conn]) /\
       dialFunc (Sample.peer 426 "dqlite") Sample.opened Sample.deadline_ctx
         "10.0.0.2:7000" [] =
         Ret (inr (ErrorfW "Failed to dial https socket: %w" [] upgrade_needed),
              [] ++ ev) /\
       ~ In EvGoHeartbeat ev).
Proof.
  apply (dial_status_426_is_upgrade_needed (Sample.peer 426 "dqlite")
           Sample.deadline_ctx "10.0.0.2:7000" Sample.opened [] Sample.conn).
  exists Sample.cert, "cluster-public-key". repeat split.
Defined.

Example dial_426_run :
  dqliteNetworkDial (Sample.peer 426 "dqlite") Sample.deadline_ctx
    "10.0.0.2:7000" Sample.opened [] =
  Ret (inr upgrade_needed,
       [EvTLSDial "10.0.0.2:7000" {| Timeout := 5000000000 |};
        EvLog Debug "Dqlite connected outbound";
        EvExtractConn Sample.conn; EvSetTimeouts Sample.conn;
        EvRequestWrite Sample.conn (dial_request Sample.deadline_ctx "10.0.0.2:7000");
        EvReadResponse Sample.conn; EvBodyClose; EvConnClose Sample.conn]).
Proof. vm_compute. reflexivity. Qed.

(** C5 against a peer that answers 101 with another [Upgrade] header. *)
Lemma dial_failure_closes_connection_witness :
  exists r ev,
    dqliteNetworkDial (Sample.peer 101 "websocket") Sample.deadline_ctx
      "10.0.0.2:7000" Sample.opened [] = Ret (r, [] ++ ev) /\
    (r = inl Sample.conn <-> exchange_ok (Sample.peer 101 "websocket") = true) /\
    (forall c, r = inl c ->
       c = Sample.conn /\ count (is_conn_close Sample.conn) ev = 0%nat) /\
    (forall err, r = inr err ->
       exchange_ok (Sample.peer 101 "websocket") = false /\
       exists ev0, ev = ev0 ++ [EvConnClose Sample.conn] /\
                   count (is_conn_close Sample.conn) ev0 = 0%nat) /\
    (exchange_ok (Sample.peer 101 "websocket") = false -> exists err, r = inr err).
Proof.
  apply (dial_failure_closes_connection (Sample.peer 101 "websocket")
           Sample.deadline_ctx "10.0.0.2:7000" Sample.opened [] Sample.conn).
  exists Sample.cert, "cluster-public-key". repeat split.
Defined.

Example dial_bad_upgrade_header_run :
  dqliteNetworkDial (Sample.peer 101 "websocket") Sample.deadline_ctx
    "10.0.0.2:7000" Sample.opened [] =
  Ret (inr (Errorf "Missing or unexpected Upgrade header in response" []),
       [EvTLSDial "10.0.0.2:7000" {| Timeout := 5000000000 |};
        EvLog Debug "Dqlite connected outbound";
        EvExtractConn Sample.conn; EvSetTimeouts Sample.conn;
        EvRequestWrite Sample.conn (dial_request Sample.deadline_ctx "10.0.0.2:7000");
        EvReadResponse Sample.conn; EvBodyClose; EvConnClose Sample.conn]).
Proof. vm_compute. reflexivity. Qed.

Example dial_ok_run :
  dialFunc (Sample.peer 101 "dqlite") Sample.opened Sample.deadline_ctx
    "10.0.0.2:7000" [] =
  Ret (inl Sample.conn,
       [EvTLSDial "10.0.0.2:7000" {| Timeout := 5000000000 |};
        EvLog Debug "Dqlite connected outbound";
        EvExtractConn Sample.conn; EvSetTimeouts Sample.conn;
        EvRequestWrite Sample.conn (dial_request Sample.deadline_ctx "10.0.0.2:7000");
        EvReadResponse Sample.conn; EvBodyClose; EvGoHeartbeat]).
Proof. vm_compute. reflexivity. Qed.

(** The timeout of the dialer the function builds. *)
Lemma dial_dialer_timeout now ctx :
  Timeout (dial_dialer now ctx) = time_Until now (fst (ctx_Deadline ctx)).
Proof. unfold dial_dialer. destruct (ctx_Deadline ctx); reflexivity. Qed.

(** Once the certificate, the TLS configuration and the URL are in order,
    the next thing the function does is the TLS dial, with that dialer. *)
Lemma dial_reaches_tls_dial env ctx addr d tr cert peer :
  clusterCert d = Some cert -> PublicKeyX509 cert = inl peer ->
  de_TLSClientConfig env = None -> de_urlParse env = None ->
  exists r ev,
    dqliteNetworkDial env ctx addr d tr =
    Ret (r, tr ++ EvTLSDial addr (dial_dialer (de_now env) ctx) :: ev).
Proof.
  intros Hc Hp Ht Hu. unfold dqliteNetworkDial. rewrite Hc, Hp, Ht, Hu.
  destruct (de_tlsDial env) as [conn|e0];
    [|unfold return_; simpl; rewrite <- ?List.app_assoc; simpl;
      eexists; eexists; reflexivity].
  destruct (de_ExtractConn env) as [e1|];
    [|destruct (de_SetTimeouts env) as [e2|]];
    (destruct (de_requestWrite env) as [e3|];
       [unfold return_; simpl; rewrite <- ?List.app_assoc; simpl;
        eexists; eexists; reflexivity|]);
    (destruct (de_ReadResponse env) as [response|e4];
       [|unfold return_; simpl; rewrite <- ?List.app_assoc; simpl;
         eexists; eexists; reflexivity]);
    destruct (StatusCode response =? StatusUpgradeRequired);
    destruct (StatusCode response =? StatusSwitchingProtocols);
    destruct (String.eqb (Header_Get "Upgrade" (resp_Header response)) "dqlite");
    unfold return_; simpl; rewrite <- ?List.app_assoc; simpl;
    eexists; eexists; reflexivity.
Qed.

(** C10: the dial hands [tls.DialWithDialer] a dialer whose timeout is
    [time.Until] of the first result of [ctx.Deadline()], whether or not
    the context has a deadline; for a context without one that is the
    duration until the zero time, which is negative, so the dialer does get
    a deadline, and one that has already passed. *)
Theorem dial_timeout_ignores_missing_deadline
    (env : DialEnv) (ctx : Context) (addr : string) (d : DB) (tr : list Event)
    (cert : CertInfo) (peer : x509_Certificate) :
  clusterCert d = Some cert -> PublicKeyX509 cert = inl peer ->
  de_TLSClientConfig env = None -> de_urlParse env = None ->
  exists r dialer ev,
    dqliteNetworkDial env ctx addr d tr = Ret (r, tr ++ EvTLSDial addr dialer :: ev) /\
    Timeout dialer = time_Until (de_now env) (fst (ctx_Deadline ctx)) /\
    (ctx_deadline ctx = None -> zeroTime < de_now env ->
       Timeout dialer = time_Until (de_now env) zeroTime /\
       Timeout dialer < 0 /\
       exists t, dialer_deadline dialer (de_now env) = Some t /\ t < de_now env).
Proof.
  intros Hc Hp Ht Hu.
  destruct (dial_reaches_tls_dial env ctx addr d tr cert peer Hc Hp Ht Hu)
    as (r & ev & E).
  exists r, (dial_dialer (de_now env) ctx), ev.
  split; [exact E|]. split; [apply dial_dialer_timeout|].
  intros Hnone Hnow. rewrite dial_dialer_timeout.
  unfold ctx_Deadline. rewrite Hnone. cbn [fst].
  pose proof (time_Until_zeroTime_negative _ Hnow) as Hneg.
  split; [reflexivity|]. split; [exact Hneg|].
  unfold dialer_deadline. rewrite dial_dialer_timeout.
  unfold ctx_Deadline. rewrite Hnone. cbn [fst].
  destruct (Z.eqb_spec (time_Until (de_now env) zeroTime) 0); [lia|].
  eexists; split; [reflexivity|lia].
Qed.

(** C10 on 1 January 2024 (63839664000 seconds after the zero time), with
    the background context and a peer that would answer properly. *)
Lemma dial_timeout_ignores_missing_deadline_witness :
  exists r dialer ev,
    dqliteNetworkDial (Sample.peer 101 "dqlite") context_Background
      "10.0.0.2:7000" Sample.opened [] =
      Ret (r, [] ++ EvTLSDial "10.0.0.2:7000" dialer :: ev) /\
    Timeout dialer = minDuration /\
    Timeout dialer < 0 /\
    exists t, dialer_deadline dialer (de_now (Sample.peer 101 "dqlite")) = Some t /\
              t < de_now (Sample.peer 101 "dqlite").
Proof.
  destruct (dial_timeout_ignores_missing_deadline (Sample.peer 101 "dqlite")
              context_Background "10.0.0.2:7000" Sample.opened []
              Sample.cert "cluster-public-key" eq_refl eq_refl eq_refl eq_refl)
    as (r & dialer & ev & E & _ & H).
  destruct (H eq_refl eq_refl) as (H1 & H2 & H3).
  exists r, dialer, ev. split; [exact E|]. split; [exact H1|]. split; [exact H2|exact H3].
Defined.

End DialFacts.

(* ===================================================================== *)
(** * Properties of bootstrapping the first node *)
(* ===================================================================== *)

Section BootstrapFacts.
Import Cluster DB Daemon.

Lemma IsOpen_NewDB sc o la : IsOpen (Some (NewDB sc o la)) = false.
Proof. reflexivity. Qed.

(** A successful [Bootstrap] leaves the handle open, whatever it was. *)
Lemma Bootstrap_success_is_open att d cert tr d' tr' :
  Bootstrap att d cert tr = (d', tr', None) -> IsOpen (Some d') = true.
Proof.
  unfold Bootstrap, Open.
  destruct (att_new att); [discriminate|].
  destruct (att_open att) as [e|].
  - destruct (errors_Is e ErrGracefulAbort); discriminate.
  - intros H. injection H as <- _. reflexivity.
Qed.

(** A failed [Bootstrap] leaves a fresh handle closed. *)
Lemma Bootstrap_failure_not_open att sc o la cert tr d' tr' err :
  Bootstrap att (NewDB sc o la) cert tr = (d', tr', Some err) ->
  IsOpen (Some d') = false.
Proof.
  unfold Bootstrap, Open.
  destruct (att_new att); [intros H; injection H as <- _ _; reflexivity|].
  destruct (att_open att) as [e|]; [|discriminate].
  destruct (errors_Is e ErrGracefulAbort); intros H; injection H as <- _ _; reflexivity.
Qed.

Section WithTypes.
Context `{TP : TypesPkg}.

(** C6: when [StartAPI(true)] succeeds on a daemon whose database handle is
    the one [init] made with [NewDB], for a cluster whose membership table
    is still empty, the handle was not open before and is open afterwards,
    and the table holds exactly one row: role [PENDING], the local schema
    version, and the node's own name, address and certificate. *)
Theorem StartAPI_bootstrap_opens_and_creates_member
    (env : StartEnv) (dmn : Daemon) (w : World) (dmn' : Daemon) (w' : World) :
  d_db dmn = Some (NewDB (d_serverCert dmn) (d_os dmn) (d_Address dmn)) ->
  w_members w = [] ->
  StartAPI_bootstrap env dmn w = Ret (dmn', w', None) ->
  IsOpen (d_db dmn) = false /\
  IsOpen (d_db dmn') = true /\
  exists addr sc serverCert,
    ParseAddrPort (url_Host (d_Address dmn)) = inl addr /\
    d_serverCert dmn = Some sc /\
    PublicKeyX509 sc = inl serverCert /\
    w_members w' =
      [{| ID := 1;
          Name := filepath_Base (StateDir (d_os dmn));
          Address := AddrPort_String addr;
          Certificate := X509Certificate_String (X509Certificate_of serverCert);
          Schema := se_schemaVersion env;
          Heartbeat := zeroTime;
          Role_ := Pending |}].
Proof.
  intros Hdb Hw Hrun.
  split; [rewrite Hdb; apply IsOpen_NewDB|].
  revert Hrun. unfold StartAPI_bootstrap.
  destruct (ParseAddrPort (url_Host (d_Address dmn))) as [addr|e]; [|discriminate].
  destruct (d_serverCert dmn) as [sc|] eqn:Hsc; [|discriminate].
  destruct (PublicKeyX509 sc) as [serverCert|e] eqn:Hpk; [|discriminate].
  destruct (se_remotesAdd env); [discriminate|].
  destruct (se_LoadClusterCert env) as [cert|e]; [|discriminate].
  destruct (se_endpointsAdd env); [discriminate|].
  cbn [d_db set_d_clusterCert]. rewrite Hdb.
  destruct (Bootstrap _ _ _ _) as [[database' tr] err] eqn:Hboot.
  destruct err as [e|]; [discriminate|].
  destruct (se_Refresh env); [discriminate|].
  apply Bootstrap_success_is_open in Hboot.
  unfold Transaction, CreateClusterMember. cbn [tx_exec_err tx_rows tx_coll w_members].
  rewrite Hw.
  destruct (se_exec_err env); [discriminate|]. cbn.
  destruct (se_commit_err env); [discriminate|].
  intros H. injection H as <- <-. cbn.
  split; [exact Hboot|].
  exists addr, sc, serverCert. repeat split. exact Hpk.
Qed.

End WithTypes.

(** C6 on the sample daemon. *)
Lemma StartAPI_bootstrap_opens_and_creates_member_witness :
  exists dmn' w',
    StartAPI_bootstrap (TP := Sample.types) Sample.start_env Sample.daemon
      Sample.empty_world = Ret (dmn', w', None) /\
    IsOpen (d_db Sample.daemon) = false /\
    IsOpen (d_db dmn') = true /\
    w_members w' =
      [{| ID := 1; Name := "node1"; Address := "10.0.0.1:7000";
          Certificate := "-----BEGIN CERTIFICATE-----node1";
          Schema := 2; Heartbeat := zeroTime; Role_ := "PENDING" |}].
Proof.
  eexists. eexists. split; [reflexivity|].
  destruct (StartAPI_bootstrap_opens_and_creates_member (TP := Sample.types)
              Sample.start_env Sample.daemon Sample.empty_world _ _
              eq_refl eq_refl eq_refl)
    as (H1 & H2 & addr & sc & serverCert & Ha & Hs & Hp & Hrows).
  split; [exact H1|]. split; [exact H2|].
  injection Ha as <-. injection Hs as <-. injection Hp as <-.
  exact Hrows.
Defined.

(** A second bootstrap into a table that already has the node's row fails
    in the transaction and adds nothing. *)
Example StartAPI_bootstrap_twice :
  exists dmn' w' err,
    StartAPI_bootstrap (TP := Sample.types) Sample.start_env Sample.daemon
      {| w_members := [Sample.member "node1" "10.0.0.1:7000" Pending 2];
         w_trace := [] |} = Ret (dmn', w', Some err) /\
    w_members w' = [Sample.member "node1" "10.0.0.1:7000" Pending 2].
Proof. eexists. eexists. eexists. split; reflexivity. Qed.

End BootstrapFacts.

(* ===================================================================== *)
(** * Further properties of the membership store *)
(* ===================================================================== *)

Section ClusterMore.
Import Cluster.

Lemma address_matches_set_Schema coll address version r :
  address_matches coll address (set_Schema version r) = address_matches coll address r.
Proof. reflexivity. Qed.

Lemma not_role_pending_set_Schema coll version r :
  not_role_pending coll (set_Schema version r) = not_role_pending coll r.
Proof. reflexivity. Qed.

Lemma address_matches_updated coll version address r :
  address_matches coll address (updated coll version address r) =
  address_matches coll address r.
Proof. unfold updated. destruct (address_matches coll address r) eqn:E; [|exact E]. exact E. Qed.

Lemma updated_idem coll version address r :
  updated coll version address (updated coll version address r) =
  updated coll version address r.
Proof.
  unfold updated at 1. rewrite address_matches_updated.
  unfold updated. destruct (address_matches coll address r); reflexivity.
Qed.

Lemma rows_matching_cons coll address r rows :
  rows_matching coll address (r :: rows) =
  (if address_matches coll address r then 1 else 0) + rows_matching coll address rows.
Proof.
  unfold rows_matching, exec_update_schema. cbn [snd].
  rewrite filter_cons. destruct (address_matches coll address r) eqn:E.
  - case_decide; [|congruence]. cbn [length]. lia.
  - case_decide; [congruence|]. lia.
Qed.

Lemma rows_matching_map_updated coll version address rows :
  rows_matching coll address (map (updated coll version address) rows) =
  rows_matching coll address rows.
Proof.
  induction rows as [|r rows IH]; [reflexivity|].
  cbn [map]. rewrite !rows_matching_cons, IH, address_matches_updated. reflexivity.
Qed.

Lemma UpdateClusterMemberSchemaVersion_fst tx version address :
  tx_exec_err tx = None ->
  fst (UpdateClusterMemberSchemaVersion tx version address) =
  set_rows tx (map (updated (tx_coll tx) version address) (tx_rows tx)).
Proof.
  intros H. unfold UpdateClusterMemberSchemaVersion. rewrite H.
  unfold exec_update_schema.
  destruct (tx_rows_affected_err tx); [reflexivity|].
  destruct (negb _); reflexivity.
Qed.

(** When exactly one row matches, it sits at one index and no other row
    matches. *)
Lemma rows_matching_one coll address rows :
  rows_matching coll address rows = 1 ->
  exists i r,
    rows !! i = Some r /\ address_matches coll address r = true /\
    forall j r', j <> i -> rows !! j = Some r' ->
                 address_matches coll address r' = false.
Proof.
  induction rows as [|r rows IH]; [discriminate|].
  rewrite rows_matching_cons.
  pose proof (rows_matching_nonneg coll address rows) as Hnn.
  destruct (address_matches coll address r) eqn:E; intros H.
  - exists 0%nat, r. split; [reflexivity|]. split; [exact E|].
    intros [|j] r' Hj Hl; [congruence|]. cbn in Hl.
    assert (H0 : rows_matching coll address rows = 0) by lia.
    clear - H0 Hl. revert j Hl. induction rows as [|r0 rows IH]; intros j Hl; [discriminate|].
    rewrite rows_matching_cons in H0.
    pose proof (rows_matching_nonneg coll address rows) as Hnn.
    destruct (address_matches coll address r0) eqn:E0; [lia|].
    destruct j as [|j]; cbn in Hl; [injection Hl as <-; exact E0|].
    apply (IH ltac:(lia) j Hl).
  - destruct (IH ltac:(lia)) as (i & r0 & Hi & Hm & Hother).
    exists (S i), r0. split; [exact Hi|]. split; [exact Hm|].
    intros [|j] r' Hj Hl; cbn in Hl.
    + injection Hl as <-. exact E.
    + apply (Hother j r'); [lia|exact Hl].
Qed.

(** X1: when [UpdateClusterMemberSchemaVersion] returns nil, the table has
    as many rows as before, a row with the address now carries the new
    version and is otherwise as it was, and every other row is untouched. *)
Theorem UpdateClusterMemberSchemaVersion_success_effect
    (tx : Tx) (version : Z) (address : string) :
  snd (UpdateClusterMemberSchemaVersion tx version address) = None ->
  let rows' := tx_rows (fst (UpdateClusterMemberSchemaVersion tx version address)) in
  length rows' = length (tx_rows tx) /\
  exists i r,
    tx_rows tx !! i = Some r /\
    address_matches (tx_coll tx) address r = true /\
    rows' !! i = Some (set_Schema version r) /\
    forall j, j <> i -> rows' !! j = tx_rows tx !! j.
Proof.
  intros Hnil rows'.
  assert (Hex : tx_exec_err tx = None /\
                rows_matching (tx_coll tx) address (tx_rows tx) = 1).
  { rewrite UpdateClusterMemberSchemaVersion_result in Hnil.
    destruct (tx_exec_err tx); [discriminate Hnil|].
    destruct (tx_rows_affected_err tx); [discriminate Hnil|].
    cbv zeta in Hnil.
    destruct (Z.eqb_spec (rows_matching (tx_coll tx) address (tx_rows tx)) 1);
      [auto|discriminate Hnil]. }
  destruct Hex as [Hexec Hone].
  subst rows'. rewrite (UpdateClusterMemberSchemaVersion_fst _ _ _ Hexec).
  cbn [tx_rows set_rows]. split; [apply length_map|].
  destruct (rows_matching_one _ _ _ Hone) as (i & r & Hi & Hm & Hother).
  exists i, r. split; [exact Hi|]. split; [exact Hm|]. split.
  - change (map ?f ?l) with (f <$> l). rewrite list_lookup_fmap, Hi. cbn.
    unfold updated. rewrite Hm. reflexivity.
  - intros j Hj. change (map ?f ?l) with (f <$> l). rewrite list_lookup_fmap.
    destruct (tx_rows tx !! j) as [r'|] eqn:Hl; [|reflexivity]. cbn.
    unfold updated. rewrite (Hother j r' Hj Hl). reflexivity.
Qed.

Lemma UpdateClusterMemberSchemaVersion_success_effect_witness :
  let tx := Sample.tx_of [Sample.member "node1" "10.0.0.1:7000" "voter" 3;
                          Sample.member "node2" "10.0.0.2:7000" "voter" 3] in
  let rows' := tx_rows (fst (UpdateClusterMemberSchemaVersion tx 4 "10.0.0.2:7000")) in
  length rows' = length (tx_rows tx) /\
  exists i r,
    tx_rows tx !! i = Some r /\
    address_matches (tx_coll tx) "10.0.0.2:7000" r = true /\
    rows' !! i = Some (set_Schema 4 r) /\
    forall j, j <> i -> rows' !! j = tx_rows tx !! j.
Proof.
  intros tx.
  apply (UpdateClusterMemberSchemaVersion_success_effect tx 4 "10.0.0.2:7000").
  reflexivity.
Defined.

(** X2: the count check comes after the statement has run.  When [Exec]
    fails the transaction is as it was; when [Exec] succeeds every row of
    the address carries the new version afterwards, also when the call then
    reports an error because the count is not one. *)
Theorem UpdateClusterMemberSchemaVersion_writes_before_check
    (tx : Tx) (version : Z) (address : string) :
  (forall err, tx_exec_err tx = Some err ->
     UpdateClusterMemberSchemaVersion tx version address = (tx, Some err)) /\
  (tx_exec_err tx = None ->
     let tx' := fst (UpdateClusterMemberSchemaVersion tx version address) in
     rows_matching (tx_coll tx') address (tx_rows tx') =
       rows_matching (tx_coll tx) address (tx_rows tx) /\
     Forall (fun r => address_matches (tx_coll tx) address r = true ->
                      Schema r = version) (tx_rows tx')).
Proof.
  split.
  - intros err H. unfold UpdateClusterMemberSchemaVersion. rewrite H. reflexivity.
  - intros H tx'. subst tx'. rewrite (UpdateClusterMemberSchemaVersion_fst _ _ _ H).
    cbn [tx_rows tx_coll set_rows]. split; [apply rows_matching_map_updated|].
    apply Forall_forall. intros r Hin.
    apply list_elem_of_In, in_map_iff in Hin as (r0 & <- & _).
    rewrite address_matches_updated. intros Hm.
    unfold updated. rewrite Hm. reflexivity.
Qed.

(** Two rows share the address: the call fails, and both rows have been
    updated all the same. *)
Lemma UpdateClusterMemberSchemaVersion_writes_before_check_witness :
  let tx := Sample.tx_of [Sample.member "node1" "10.0.0.1:7000" "voter" 3;
                          Sample.member "node2" "10.0.0.1:7000" "voter" 3] in
  let tx' := fst (UpdateClusterMemberSchemaVersion tx 4 "10.0.0.1:7000") in
  snd (UpdateClusterMemberSchemaVersion tx 4 "10.0.0.1:7000") =
    Some (Errorf "updated %d rows instead of 1" [ArgInt 2]) /\
  rows_matching (tx_coll tx') "10.0.0.1:7000" (tx_rows tx') = 2 /\
  Forall (fun r => address_matches (tx_coll tx) "10.0.0.1:7000" r = true ->
                   Schema r = 4) (tx_rows tx').
Proof.
  intros tx tx'. split; [reflexivity|].
  apply (UpdateClusterMemberSchemaVersion_writes_before_check tx 4 "10.0.0.1:7000").
  reflexivity.
Defined.




(** X4: repeating an update changes nothing more: the second call with the
    same version and address leaves the transaction as the first one left
    it and reports the same result. *)
Theorem UpdateClusterMemberSchemaVersion_idempotent
    (tx : Tx) (version : Z) (address : string) :
  UpdateClusterMemberSchemaVersion
    (fst (UpdateClusterMemberSchemaVersion tx version address)) version address =
  UpdateClusterMemberSchemaVersion tx version address.
Proof.
  destruct (tx_exec_err tx) as [e|] eqn:He.
  { unfold UpdateClusterMemberSchemaVersion. rewrite He. cbn [fst]. rewrite He.
    reflexivity. }
  rewrite (UpdateClusterMemberSchemaVersion_fst _ _ _ He).
  unfold UpdateClusterMemberSchemaVersion at 1 2.
  cbn [tx_exec_err tx_rows tx_coll tx_rows_affected_err set_rows]. rewrite He.
  unfold exec_update_schema. fold (updated (tx_coll tx) version address).
  assert (Hmap : map (updated (tx_coll tx) version address)
                   (map (updated (tx_coll tx) version address) (tx_rows tx)) =
                 map (updated (tx_coll tx) version address) (tx_rows tx)).
  { rewrite map_map. apply map_ext. intros r. apply updated_idem. }
  assert (Hcount :
            Z.of_nat (length (filter
              (fun r => address_matches (tx_coll tx) address r = true)
              (map (updated (tx_coll tx) version address) (tx_rows tx)))) =
            Z.of_nat (length (filter
              (fun r => address_matches (tx_coll tx) address r = true) (tx_rows tx)))).
  { exact (rows_matching_map_updated (tx_coll tx) version address (tx_rows tx)). }
  rewrite Hmap, Hcount. unfold set_rows. cbn.
  destruct (tx_rows_affected_err tx); [reflexivity|].
  destruct (negb _); reflexivity.
Qed.

Section ToAPIMore.
Context `{TP : TypesPkg}.

(** X5: [ToAPI] looks at the address first: when the address does not
    parse, the error wraps the address parser's error and quotes the
    address, whatever the certificate is; and a member that is returned has
    the row's name, role, schema version and heartbeat time, with the
    parsed address and certificate. *)
Theorem ToAPI_fields_and_error_order (c : InternalClusterMember) :
  (forall err, ParseAddrPort (Address c) = inr err ->
     ToAPI c = inr (ErrorfW "Failed to parse address %q of database cluster member: %w"
                            [ArgString (Address c)] err)) /\
  (forall address err,
     ParseAddrPort (Address c) = inl address ->
     ParseX509Certificate (Certificate c) = inr err ->
     ToAPI c = inr (ErrorfW
       "Failed to parse certificate of database cluster member with address %q: %w"
       [ArgString (Address c)] err)) /\
  (forall m, ToAPI c = inl m ->
     cml_Name (cm_Local m) = Name c /\
     ParseAddrPort (Address c) = inl (cml_Address (cm_Local m)) /\
     ParseX509Certificate (Certificate c) = inl (cml_Certificate (cm_Local m)) /\
     cm_Role m = Role_ c /\
     cm_SchemaVersion m = Schema c /\
     cm_LastHeartbeat m = Heartbeat c).
Proof.
  unfold ToAPI. split; [|split].
  - intros err ->. reflexivity.
  - intros address err -> ->. reflexivity.
  - intros m.
    destruct (ParseAddrPort (Address c)) as [a|e]; [|discriminate].
    destruct (ParseX509Certificate (Certificate c)) as [x|e]; [|discriminate].
    intros H. injection H as <-. repeat split.
Qed.

End ToAPIMore.

(** X5 on a row whose address and certificate are both bad: the address is
    the one reported. *)
Lemma ToAPI_fields_and_error_order_witness :
  let bad := {| ID := 7; Name := "node1"; Address := "nowhere";
                Certificate := "garbage"; Schema := 3; Heartbeat := zeroTime;
                Role_ := "voter" |} in
  ToAPI (TP := Sample.types) bad =
  inr (ErrorfW "Failed to parse address %q of database cluster member: %w"
               [ArgString "nowhere"] (ErrOther "missing port in address")).
Proof.
  intros bad.
  apply (ToAPI_fields_and_error_order (TP := Sample.types) bad). reflexivity.
Defined.

End ClusterMore.

(* ===================================================================== *)
(** * Further properties of [Join] and [NotifyUpgraded] *)
(* ===================================================================== *)

Section JoinMore.
Import DB.

(** X6: [dqlite.New] failing ends [Join] at whatever iteration it happens:
    after [N] graceful restarts and a failing engine start, [Join] returns
    that error wrapped, leaves [db.dqlite] nil, has closed the database [N]
    times and opened it [N] times, and makes no further open attempt. *)
Theorem Join_engine_start_failure
    (pre : list Attempt) (last : Attempt) (rest : list Attempt)
    (d : DB) (cert : option CertInfo) (addrs : list string) (tr : list Event)
    (err : error) :
  forallb graceful_restart pre = true ->
  att_new last = Some err ->
  exists d' ev,
    Join (pre ++ last :: rest) d cert addrs tr =
    Some (Ret (Some (ErrorfW "Failed to join dqlite cluster %w" [] err)), d',
          tr ++ ev ++ [EvDqliteNew (join_app d addrs last) cert]) /\
    dqlite d' = None /\
    count is_close (ev ++ [EvDqliteNew (join_app d addrs last) cert]) = length pre /\
    count is_open (ev ++ [EvDqliteNew (join_app d addrs last) cert]) = length pre.
Proof.
  intros Hpre Hnew.
  destruct (Join_restarts pre (last :: rest) d cert addrs tr Hpre) as (d0 & E & Happ & _).
  destruct (restarts_counts d cert addrs pre) as (H1 & H2 & _).
  exists (set_dqlite None (set_clusterCert cert d0)),
         (flat_map (restart_events d cert addrs) pre).
  split; [|split; [reflexivity|]].
  - rewrite E, (Join_new_fails _ _ _ _ _ _ _ Hnew), Happ, <- List.app_assoc.
    reflexivity.
  - rewrite !count_app, H1, H2. unfold count. simpl. lia.
Qed.

Lemma Join_engine_start_failure_witness :
  let restart := {| att_getenv := ""; att_new := None;
                    att_open := Some ErrGracefulAbort; att_close := None |} in
  let broken := {| att_getenv := ""; att_new := Some (ErrOther "listen: address in use");
                   att_open := None; att_close := None |} in
  let d := NewDB (Some Sample.cert) Sample.os Sample.listen in
  exists d' ev,
    Join ([restart] ++ broken :: []) d (Some Sample.cert) ["10.0.0.2:7000"] [] =
    Some (Ret (Some (ErrorfW "Failed to join dqlite cluster %w" []
                             (ErrOther "listen: address in use"))), d',
          [] ++ ev ++ [EvDqliteNew (join_app d ["10.0.0.2:7000"] broken)
                                   (Some Sample.cert)]) /\
    dqlite d' = None /\
    count is_close (ev ++ [EvDqliteNew (join_app d ["10.0.0.2:7000"] broken)
                                       (Some Sample.cert)]) = 1%nat /\
    count is_open (ev ++ [EvDqliteNew (join_app d ["10.0.0.2:7000"] broken)
                                      (Some Sample.cert)]) = 1%nat.
Proof.
  intros restart broken d.
  apply (Join_engine_start_failure [restart] broken [] d (Some Sample.cert)
           ["10.0.0.2:7000"] [] (ErrOther "listen: address in use")); reflexivity.
Defined.

(** X7: the loop of [Join] has no bound.  However long the script, as long
    as every iteration ends in the graceful-restart condition [Join] has
    not returned when the script is used up. *)
Theorem Join_retries_without_bound
    (script : list Attempt) (d : DB) (cert : option CertInfo)
    (addrs : list string) (tr : list Event) :
  forallb graceful_restart script = true ->
  Join script d cert addrs tr = None /\
  forall more,
    Join (script ++ more) d cert addrs tr =
    Join more (fold_left (fun d0 att => restart_state d0 cert addrs att) script d)
         cert addrs (tr ++ flat_map (restart_events d cert addrs) script).
Proof.
  intros H. split.
  - destruct (Join_restarts script [] d cert addrs tr H) as (d0 & E & _).
    rewrite app_nil_r in E. rewrite E. reflexivity.
  - revert d tr H. induction script as [|att script IH]; intros d tr H more.
    + cbn. rewrite app_nil_r. reflexivity.
    + cbn [forallb] in H. apply andb_true_iff in H as [Ha Hs].
      cbn [app fold_left flat_map]. rewrite (Join_restart _ _ _ _ _ _ Ha).
      rewrite (IH _ _ Hs more), <- List.app_assoc. reflexivity.
Qed.

Lemma Join_retries_without_bound_witness :
  let restart := {| att_getenv := ""; att_new := None;
                    att_open := Some ErrGracefulAbort; att_close := None |} in
  Join (replicate 50 restart) (NewDB (Some Sample.cert) Sample.os Sample.listen)
       (Some Sample.cert) ["10.0.0.2:7000"] [] = None.
Proof.
  intros restart.
  apply (Join_retries_without_bound (replicate 50 restart)
           (NewDB (Some Sample.cert) Sample.os Sample.listen)
           (Some Sample.cert) ["10.0.0.2:7000"] []).
  reflexivity.
Defined.

(** X8: the graceful-restart condition never leaves [Join] through the
    [return err] after [Open]: an error [Join] returns either is the
    wrapped error of [dqlite.New], or does not match
    [schema.ErrGracefulAbort]. *)
Theorem Join_returns_no_graceful_abort_from_open
    (script : list Attempt) (d : DB) (cert : option CertInfo)
    (addrs : list string) (tr : list Event)
    (err : error) (d' : DB) (tr' : list Event) :
  Join script d cert addrs tr = Some (Ret (Some err), d', tr') ->
  (exists e, err = ErrorfW "Failed to join dqlite cluster %w" [] e) \/
  errors_Is err ErrGracefulAbort = false.
Proof.
  revert d tr. induction script as [|att script IH]; intros d tr; [discriminate|].
  cbn [Join].
  destruct (att_new att) as [e|].
  { intros H. injection H as <- _ _. left. eauto. }
  unfold Open.
  destruct (att_open att) as [e|]; [|discriminate].
  destruct (errors_Is e ErrGracefulAbort) eqn:Hg.
  - cbn [db set_db]. rewrite Hg. apply IH.
  - rewrite Hg. intros H. injection H as <- _ _. right. exact Hg.
Qed.

Lemma Join_returns_no_graceful_abort_from_open_witness :
  let restart := {| att_getenv := ""; att_new := None;
                    att_open := Some ErrGracefulAbort; att_close := None |} in
  let fatal := {| att_getenv := ""; att_new := None;
                  att_open := Some (ErrOther "no such table"); att_close := None |} in
  (exists e, ErrOther "no such table" = ErrorfW "Failed to join dqlite cluster %w" [] e) \/
  errors_Is (ErrOther "no such table") ErrGracefulAbort = false.
Proof.
  intros restart fatal.
  eapply (Join_returns_no_graceful_abort_from_open [restart; fatal]
            (NewDB (Some Sample.cert) Sample.os Sample.listen)
            (Some Sample.cert) ["10.0.0.2:7000"] []).
  reflexivity.
Defined.

Lemma NotifyUpgraded_unbuffered_step d :
  ch_cap (upgradeCh d) = 0%nat ->
  ch_receivers (upgradeCh (NotifyUpgraded d)) = Nat.pred (ch_receivers (upgradeCh d)) /\
  pending_notifications (NotifyUpgraded d) = pending_notifications d /\
  ch_cap (upgradeCh (NotifyUpgraded d)) = 0%nat.
Proof.
  unfold NotifyUpgraded, pending_notifications, select_send_default.
  destruct d as [? ? ? ? ? ? ? ? [c b r] ? ? ?]. cbn. intros ->.
  destruct r as [|r]; cbn; [|repeat split].
  destruct b; repeat split.
Qed.

(** X9: with consumers blocked on the upgrade channel, each
    [NotifyUpgraded] wakes one of them and puts nothing into the channel;
    once none is left, further calls are dropped.  After [k] calls, [k] of
    the [r] waiting consumers have been served, or all of them if [k]
    exceeds [r]. *)
Theorem NotifyUpgraded_serves_waiting_consumers (k : nat) (d : DB) :
  ch_cap (upgradeCh d) = 0%nat ->
  ch_receivers (upgradeCh (Nat.iter k NotifyUpgraded d)) =
    (ch_receivers (upgradeCh d) - k)%nat /\
  pending_notifications (Nat.iter k NotifyUpgraded d) = pending_notifications d /\
  ch_cap (upgradeCh (Nat.iter k NotifyUpgraded d)) = 0%nat.
Proof.
  intros Hcap. induction k as [|k (IHr & IHp & IHc)].
  - cbn. repeat split; [lia|exact Hcap].
  - change (Nat.iter (S k) NotifyUpgraded d)
      with (NotifyUpgraded (Nat.iter k NotifyUpgraded d)).
    destruct (NotifyUpgraded_unbuffered_step _ IHc) as (Hr & Hp & Hc).
    rewrite Hr, Hp, IHr, IHp. repeat split; [lia|exact Hc].
Qed.

Lemma NotifyUpgraded_serves_waiting_consumers_witness :
  let waiting :=
    set_upgradeCh {| ch_cap := 0; ch_buffered := 0; ch_receivers := 2 |}
      (NewDB (Some Sample.cert) Sample.os Sample.listen) in
  ch_receivers (upgradeCh (Nat.iter 3 NotifyUpgraded waiting)) = 0%nat /\
  pending_notifications (Nat.iter 3 NotifyUpgraded waiting) = 0%nat /\
  ch_cap (upgradeCh (Nat.iter 3 NotifyUpgraded waiting)) = 0%nat.
Proof.
  intros waiting.
  apply (NotifyUpgraded_serves_waiting_consumers 3 waiting). reflexivity.
Defined.

End JoinMore.

(* ===================================================================== *)
(** * Further properties of the heartbeat *)
(* ===================================================================== *)

Section HeartbeatMore.
Import DB.

Ltac hb_tail :=
  match goal with
  | |- exists ev0, EvLock :: ?l = _ => exists (removelast l); reflexivity
  end.

Ltac hb_case E :=
  cbn; rewrite ?E; cbn; rewrite <- ?List.app_assoc; cbn;
  eexists; eexists; split; [reflexivity|];
  unfold leads, count; cbn; rewrite ?E; cbn;
  repeat split;
  try (intros _; hb_tail);
  try discriminate;
  repeat (apply List.Forall_cons;
          [intros b Hb; try discriminate Hb; injection Hb as <-; reflexivity|]);
  try apply List.Forall_nil.

(** Every way an invocation can go when the mutex is free. *)
Lemma heartbeat_free_cases env d tr :
  heartbeatLock d = false ->
  exists o ev,
    heartbeat env d tr = (o, d, tr ++ ev) /\
    o = (if IsOpen (Some d) then
           match dqlite d with Some _ => Returned | None => Panicked end
         else Returned) /\
    count is_instruction ev = (if leads env d then 1 else 0)%nat /\
    count is_lock ev = (if IsOpen (Some d) then 1 else 0)%nat /\
    count is_unlock ev = (if IsOpen (Some d) then 1 else 0)%nat /\
    (IsOpen (Some d) = true -> exists ev0, ev = EvLock :: ev0 ++ [EvUnlock]) /\
    Forall (fun e => forall b, e = EvHeartbeat b -> b = true) ev.
Proof.
  intros Hlock.
  destruct d as [cc sc la nm o sq dq ac uc [cn] cx hl]. simpl in Hlock. subst hl.
  destruct env as [l li cl hb].
  unfold heartbeat, heartbeat_locked.
  destruct cn; [|hb_case I].
  destruct dq as [app|]; [|hb_case I].
  destruct l as [e1|]; [hb_case I|].
  destruct li as [info|e2]; [|hb_case I].
  destruct (String.eqb (ni_Address info) (App_Address app)) eqn:E; [|hb_case E].
  destruct cl as [e3|]; [hb_case E|].
  destruct hb as [e4|]; hb_case E.
Qed.

(** X10: failures inside a heartbeat are absorbed.  Whatever the
    collaborators answer, an invocation on a handle that has an engine and
    whose mutex is free returns, leaves the handle exactly as it found it
    (the mutex is released again), and on an open handle everything it did
    lies between one [Lock] and one [Unlock]. *)
Theorem heartbeat_absorbs_failures (env : HbEnv) (d : DB) (tr : list Event) :
  heartbeatLock d = false ->
  dqlite d <> None ->
  exists ev,
    heartbeat env d tr = (Returned, d, tr ++ ev) /\
    count is_lock ev = count is_unlock ev /\
    (IsOpen (Some d) = true ->
       count is_lock ev = 1%nat /\ exists ev0, ev = EvLock :: ev0 ++ [EvUnlock]) /\
    (IsOpen (Some d) = false -> count is_lock ev = 0%nat).
Proof.
  intros Hlock Hd.
  destruct (heartbeat_free_cases env d tr Hlock)
    as (o & ev & E & Ho & _ & Hl & Hu & Hshape & _).
  exists ev. split; [|split; [|split]].
  - rewrite E, Ho. destruct (IsOpen (Some d)); [|reflexivity].
    destruct (dqlite d); [reflexivity|destruct (Hd eq_refl)].
  - rewrite Hl, Hu. reflexivity.
  - intros Hopen. split; [rewrite Hl, Hopen; reflexivity|exact (Hshape Hopen)].
  - intros Hopen. rewrite Hl, Hopen. reflexivity.
Qed.

(** X10 on the sample leader whose control-plane client rejects the
    instruction. *)
Lemma heartbeat_absorbs_failures_witness :
  let env := {| hb_Leader := None;
                hb_LeaderInfo := inl {| ni_ID := 1; ni_Address := "10.0.0.1:7000" |};
                hb_clientNew := None;
                hb_Heartbeat := Some (ErrOther "heartbeat rejected") |} in
  exists ev,
    heartbeat env Sample.opened [] = (Returned, Sample.opened, [] ++ ev) /\
    count is_lock ev = 1%nat /\ count is_unlock ev = 1%nat.
Proof.
  intros env.
  destruct (heartbeat_absorbs_failures env Sample.opened [] eq_refl ltac:(discriminate))
    as (ev & E & Hb & Hopen & _).
  exists ev. split; [exact E|].
  destruct (Hopen eq_refl) as [H1 _]. split; [exact H1|].
  rewrite <- Hb. exact H1.
Defined.

(** X11: an invocation with the mutex free issues exactly one
    [begin heartbeat round] instruction when the handle is open, the leader
    and its identity resolve, the leader's address is the engine's own and
    the control-plane client can be created; in every other case it issues
    none.  The instruction always has [BeginRound] set, and it counts as
    issued also when the client then reports an error. *)
Theorem heartbeat_instructs_exactly_when_leading
    (env : HbEnv) (d : DB) (tr : list Event) :
  heartbeatLock d = false ->
  exists o ev,
    heartbeat env d tr = (o, d, tr ++ ev) /\
    count is_instruction ev = (if leads env d then 1 else 0)%nat /\
    Forall (fun e => forall b, e = EvHeartbeat b -> b = true) ev.
Proof.
  intros Hlock.
  destruct (heartbeat_free_cases env d tr Hlock)
    as (o & ev & E & _ & Hi & _ & _ & _ & Hb).
  exists o, ev. auto.
Qed.

Lemma heartbeat_instructs_exactly_when_leading_witness :
  (exists o ev,
     heartbeat Sample.leader_env Sample.opened [] = (o, Sample.opened, [] ++ ev) /\
     count is_instruction ev = 1%nat) /\
  (exists o ev,
     heartbeat Sample.follower_env Sample.opened [] = (o, Sample.opened, [] ++ ev) /\
     count is_instruction ev = 0%nat).
Proof.
  split.
  - destruct (heartbeat_instructs_exactly_when_leading Sample.leader_env
                Sample.opened [] eq_refl) as (o & ev & E & H & _).
    exists o, ev. split; [exact E|exact H].
  - destruct (heartbeat_instructs_exactly_when_leading Sample.follower_env
                Sample.opened [] eq_refl) as (o & ev & E & H & _).
    exists o, ev. split; [exact E|exact H].
Defined.

(** ** More on concurrent invocations *)

Lemma run_length d schedule st :
  length (fst (run d schedule st)) = length (fst st).
Proof.
  revert st. induction schedule as [|i schedule IH]; intros st; [reflexivity|].
  cbn [run]. destruct (system_step d i st) as [st'|] eqn:Hstep; [|apply IH].
  rewrite IH. destruct st as [ths sh].
  apply system_step_inv in Hstep as (env & pc & pc' & sh' & _ & _ & ->).
  cbn [fst]. apply length_insert.
Qed.

(** X13: mutual exclusion.  However the statements of concurrent
    invocations interleave, at most one invocation is between [Lock] and
    [Unlock], and the mutex is held exactly when one is. *)
Theorem heartbeat_mutual_exclusion
    (d : DB) (envs : list HbEnv) (tr : list Event) (schedule : list nat) :
  let st := run d schedule (spawn envs tr) in
  (holders (fst st) <= 1)%nat /\
  (sh_lock (snd st) = true <-> holders (fst st) = 1%nat) /\
  length (fst st) = length envs.
Proof.
  intros st.
  pose proof (run_lock_inv d schedule _ (spawn_lock_inv envs tr)) as Hinv.
  fold st in Hinv. unfold lock_inv in Hinv.
  split; [|split].
  - rewrite Hinv. destruct (sh_lock (snd st)); lia.
  - rewrite Hinv. destruct (sh_lock (snd st)); split; intros H;
      try reflexivity; discriminate H.
  - subst st. rewrite run_length. unfold spawn. cbn [fst]. apply length_map.
Qed.

Lemma count_instruction_emit evs sh :
  count is_instruction (sh_trace (sh_emit evs sh)) =
  (count is_instruction (sh_trace sh) + count is_instruction evs)%nat.
Proof. unfold sh_emit. cbn [sh_trace]. apply count_app. Qed.

(** One statement issues at most the instruction the invocation still had
    to issue. *)
Lemma thread_step_to_instruct env d pc sh pc' sh' :
  thread_step env d pc sh = Some (pc', sh') ->
  (count is_instruction (sh_trace sh') + to_instruct pc' <=
   count is_instruction (sh_trace sh) + to_instruct pc)%nat.
Proof.
  destruct pc; cbn [thread_step].
  - destruct (negb _); intros H; injection H as <- <-;
      rewrite ?count_instruction_emit; cbn; lia.
  - destruct (sh_lock sh); [discriminate|]. intros H; injection H as <- <-.
    cbn [sh_trace]. rewrite count_app. cbn. lia.
  - destruct (dqlite d); [destruct (hb_Leader env)|];
      intros H; injection H as <- <-; rewrite ?count_instruction_emit; cbn; lia.
  - destruct (hb_LeaderInfo env); intros H; injection H as <- <-;
      rewrite ?count_instruction_emit; cbn; lia.
  - destruct (dqlite d); [destruct (negb _)|];
      intros H; injection H as <- <-; cbn; lia.
  - destruct (hb_clientNew env); intros H; injection H as <- <-;
      rewrite ?count_instruction_emit; cbn; lia.
  - destruct (hb_Heartbeat env); intros H; injection H as <- <-;
      rewrite ?count_instruction_emit; cbn; lia.
  - intros H; injection H as <- <-. cbn [sh_trace]. rewrite count_app. cbn. lia.
  - discriminate.
Qed.

(** On a leading node every statement keeps the balance: the instruction
    is neither lost nor issued twice. *)
Lemma thread_step_leading env d pc sh pc' sh' :
  leading d (env, pc) ->
  thread_step env d pc sh = Some (pc', sh') ->
  leading d (env, pc') /\
  (count is_instruction (sh_trace sh') + to_instruct pc' =
   count is_instruction (sh_trace sh) + to_instruct pc)%nat.
Proof.
  intros [Hl0 Hpc]. cbn [fst snd] in Hl0, Hpc.
  assert (Hgoal : forall pc1 (sh1 sh2 : Shared) (n1 n2 : nat),
            match pc1 with
            | PcGate info => hb_LeaderInfo env = inl info
            | PcUnlock o | PcDone o => o = Returned
            | _ => True
            end ->
            (n1 = n2)%nat ->
            leading d (env, pc1) /\ n1 = n2).
  { intros pc1 _ _ n1 n2 H1 H2. split; [split; [exact Hl0|exact H1]|exact H2]. }
  pose proof Hl0 as Hl. unfold leads in Hl.
  apply andb_true_iff in Hl as [Hopen Hl].
  destruct (dqlite d) as [app|] eqn:Hd; [|discriminate Hl].
  destruct (hb_Leader env) as [e|] eqn:HL; [discriminate Hl|].
  destruct (hb_LeaderInfo env) as [info|e] eqn:Hinfo; [|discriminate Hl].
  apply andb_true_iff in Hl as [Haddr Hcl].
  destruct (hb_clientNew env) as [e|] eqn:Hc; [discriminate Hcl|].
  destruct pc; cbn [thread_step]; rewrite ?Hopen, ?Hd, ?HL, ?Hinfo, ?Hc; cbn [negb].
  - intros H; injection H as <- <-.
    apply (Hgoal _ sh sh); [exact I|reflexivity].
  - destruct (sh_lock sh); [discriminate|]. intros H; injection H as <- <-.
    apply (Hgoal _ sh sh); [exact I|].
    cbn [sh_trace]. rewrite count_app. cbn. lia.
  - intros H; injection H as <- <-.
    apply (Hgoal _ sh sh); [exact I|]. rewrite count_instruction_emit. cbn. lia.
  - intros H; injection H as <- <-.
    apply (Hgoal _ sh sh); [reflexivity|]. rewrite count_instruction_emit. cbn. lia.
  - injection Hpc as <-. rewrite Haddr. cbn [negb]. intros H; injection H as <- <-.
    apply (Hgoal _ sh sh); [exact I|reflexivity].
  - intros H; injection H as <- <-.
    apply (Hgoal _ sh sh); [exact I|]. rewrite count_instruction_emit. cbn. lia.
  - destruct (hb_Heartbeat env); intros H; injection H as <- <-;
      (apply (Hgoal _ sh sh); [reflexivity|]);
      rewrite count_instruction_emit; cbn; lia.
  - intros H; injection H as <- <-.
    apply (Hgoal _ sh sh); [exact Hpc|].
    cbn [sh_trace]. rewrite count_app. cbn. lia.
  - discriminate.
Qed.

Lemma total_to_instruct_insert ths i env pc pc' :
  ths !! i = Some (env, pc) ->
  (total_to_instruct (<[i := (env, pc')]> ths) + to_instruct pc =
   total_to_instruct ths + to_instruct pc')%nat.
Proof.
  unfold total_to_instruct. revert i.
  induction ths as [|t ths IH]; intros i Hi; [discriminate|].
  destruct i as [|i]; simpl in *.
  - injection Hi as ->. simpl. lia.
  - specialize (IH i Hi). rewrite <- !Nat.add_assoc. f_equal. exact IH.
Qed.

Lemma total_to_instruct_done ths :
  Forall (fun t => is_done t = true) ths -> total_to_instruct ths = 0%nat.
Proof.
  unfold total_to_instruct. induction 1 as [|[env pc] ths Hd _ IH]; [reflexivity|].
  cbn. rewrite IH. unfold is_done in Hd. cbn in Hd.
  destruct pc; try discriminate Hd. reflexivity.
Qed.

Lemma total_to_instruct_spawn envs tr :
  total_to_instruct (fst (spawn envs tr)) = length envs.
Proof.
  unfold spawn, total_to_instruct. cbn [fst].
  induction envs as [|env envs IH]; [reflexivity|]. cbn. rewrite IH. reflexivity.
Qed.

Lemma balance_le (c c' p p' T T' : nat) :
  (c' + p' <= c + p)%nat -> (T' + p = T + p')%nat -> (c' + T' <= c + T)%nat.
Proof. lia. Qed.

Lemma balance_eq (c c' p p' T T' : nat) :
  (c' + p' = c + p)%nat -> (T' + p = T + p')%nat -> (c' + T' = c + T)%nat.
Proof. lia. Qed.

Lemma run_to_instruct d schedule st :
  (count is_instruction (sh_trace (snd (run d schedule st))) +
   total_to_instruct (fst (run d schedule st)) <=
   count is_instruction (sh_trace (snd st)) + total_to_instruct (fst st))%nat.
Proof.
  revert st. induction schedule as [|i schedule IH]; intros st; [reflexivity|].
  cbn [run]. destruct (system_step d i st) as [st'|] eqn:Hstep; [|apply IH].
  etransitivity; [apply IH|]. destruct st as [ths sh].
  apply system_step_inv in Hstep as (env & pc & pc' & sh' & Hi & Hstep & ->).
  cbn [fst snd].
  exact (balance_le _ _ _ _ _ _
           (thread_step_to_instruct _ _ _ _ _ _ Hstep)
           (total_to_instruct_insert ths i env pc pc' Hi)).
Qed.

Lemma run_leading d schedule st :
  Forall (leading d) (fst st) ->
  Forall (leading d) (fst (run d schedule st)) /\
  (count is_instruction (sh_trace (snd (run d schedule st))) +
   total_to_instruct (fst (run d schedule st)) =
   count is_instruction (sh_trace (snd st)) + total_to_instruct (fst st))%nat.
Proof.
  revert st. induction schedule as [|i schedule IH]; intros st Hst; [auto|].
  cbn [run]. destruct (system_step d i st) as [st'|] eqn:Hstep; [|apply IH; exact Hst].
  destruct st as [ths sh].
  apply system_step_inv in Hstep as (env & pc & pc' & sh' & Hi & Hstep & ->).
  cbn [fst snd] in *.
  pose proof (Forall_lookup_1 _ _ _ _ Hst Hi) as Hlead.
  destruct (thread_step_leading _ _ _ _ _ _ Hlead Hstep) as [Hlead' Hbal].
  pose proof (total_to_instruct_insert ths i env pc pc' Hi) as Hins.
  destruct (IH (<[i := (env, pc')]> ths, sh')) as [IH1 IH2].
  { cbn [fst]. apply Forall_insert; assumption. }
  split; [exact IH1|]. cbn [fst snd] in IH2.
  etransitivity; [exact IH2|]. exact (balance_eq _ _ _ _ _ _ Hbal Hins).
Qed.

(** X14: no coalescing and no duplication.  Concurrent invocations never
    issue more instructions than there are invocations, under any
    interleaving; and on a node that leads, once all of them are over, each
    has issued its own: [n] invocations issue exactly [n] instructions, one
    after the other. *)
Theorem heartbeat_concurrent_instruction_count
    (d : DB) (envs : list HbEnv) (tr : list Event) (schedule : list nat) :
  let st := run d schedule (spawn envs tr) in
  (count is_instruction (sh_trace (snd st)) <=
   count is_instruction tr + length envs)%nat /\
  (Forall (fun env => leads env d = true) envs ->
   Forall (fun t => is_done t = true) (fst st) ->
   count is_instruction (sh_trace (snd st)) =
   (count is_instruction tr + length envs)%nat).
Proof.
  intros st. split.
  - pose proof (run_to_instruct d schedule (spawn envs tr)) as H. fold st in H.
    rewrite total_to_instruct_spawn in H. cbn [spawn snd sh_trace] in H. lia.
  - intros Hlead Hdone.
    assert (Hstart : Forall (leading d) (map (fun env => (env, PcStart)) envs)).
    { clear - Hlead. induction Hlead as [|env envs Henv _ IH]; [constructor|].
      constructor; [split; [exact Henv|exact I]|exact IH]. }
    destruct (run_leading d schedule (spawn envs tr) Hstart) as [_ H].
    fold st in H. rewrite total_to_instruct_spawn in H.
    rewrite (total_to_instruct_done _ Hdone) in H.
    cbn [spawn snd sh_trace] in H. lia.
Qed.

(** Two invocations on the sample leader, interleaved: two instructions. *)
Lemma heartbeat_concurrent_instruction_count_witness :
  let st := run Sample.opened [0; 1; 0; 1; 0; 0; 0; 0; 0; 0; 1; 1; 1; 1; 1; 1; 1]%nat
                (spawn [Sample.leader_env; Sample.leader_env] []) in
  count is_instruction (sh_trace (snd st)) = 2%nat.
Proof.
  intros st.
  apply (heartbeat_concurrent_instruction_count Sample.opened
           [Sample.leader_env; Sample.leader_env] []
           [0; 1; 0; 1; 0; 0; 0; 0; 0; 0; 1; 1; 1; 1; 1; 1; 1]%nat).
  - repeat constructor.
  - repeat constructor.
Defined.

(** Two non-leaders on the sample handle: whatever the schedule, nothing is
    issued and both can finish. *)
Lemma heartbeat_concurrent_non_leaders_witness :
  silent (sh_trace (snd (run Sample.opened [1; 0; 1; 1; 0]%nat
                           (spawn [Sample.follower_env; Sample.follower_env] [])))) /\
  exists more,
    let st := run Sample.opened ([1; 0; 1; 1; 0]%nat ++ more)
                  (spawn [Sample.follower_env; Sample.follower_env] []) in
    Forall (fun t => snd t = PcDone Returned) (fst st) /\
    silent (sh_trace (snd st)) /\
    sh_lock (snd st) = false.
Proof.
  assert (Hnl : non_leader Sample.follower_env Sample.opened).
  { intros app info Happ Hinfo. injection Happ as <-. injection Hinfo as <-.
    discriminate. }
  apply (heartbeat_concurrent_non_leaders Sample.opened
           [Sample.follower_env; Sample.follower_env] [] [1; 0; 1; 1; 0]%nat).
  - discriminate.
  - repeat constructor; exact Hnl.
  - constructor.
Defined.

End HeartbeatMore.

(* ===================================================================== *)
(** * Further properties of the tunnel dial *)
(* ===================================================================== *)

Section DialMore.
Import DB.

(** X15: a dial that does not get a TLS connection does nothing on one.
    When the cluster certificate, the TLS configuration or the URL is bad,
    or the TLS dial itself fails, the function returns an error and has
    neither written a request, nor read a response, nor closed anything;
    before the TLS dial it has not touched the network at all, and the
    certificate and URL errors come back as they are. *)
Theorem dial_without_connection
    (env : DialEnv) (ctx : Context) (addr : string) (d : DB) (tr : list Event)
    (cert : CertInfo) :
  clusterCert d = Some cert ->
  (forall conn, ~ connected env d conn) ->
  exists err ev,
    dqliteNetworkDial env ctx addr d tr = Ret (inr err, tr ++ ev) /\
    Forall (fun e => on_connection e = false) ev /\
    (forall e, PublicKeyX509 cert = inr e -> err = e /\ ev = []) /\
    (forall peer e, PublicKeyX509 cert = inl peer -> de_TLSClientConfig env = Some e ->
       err = ErrorfW "Failed to parse TLS config: %w" [] e /\ ev = []) /\
    (forall peer e, PublicKeyX509 cert = inl peer -> de_TLSClientConfig env = None ->
       de_urlParse env = Some e -> err = e /\ ev = []) /\
    (forall peer e, PublicKeyX509 cert = inl peer -> de_TLSClientConfig env = None ->
       de_urlParse env = None -> de_tlsDial env = inr e ->
       err = ErrorfW "Failed connecting to HTTP endpoint %q: %w" [ArgString addr] e /\
       ev = [EvTLSDial addr (dial_dialer (de_now env) ctx)]).
Proof.
  intros Hc Hnot. unfold dqliteNetworkDial. rewrite Hc.
  destruct (PublicKeyX509 cert) as [peer|e0] eqn:Hp.
  2:{ exists e0, []. rewrite app_nil_r. split; [reflexivity|]. split; [constructor|].
      repeat split; intros; try discriminate; try congruence. }
  destruct (de_TLSClientConfig env) as [e1|] eqn:Ht.
  { eexists. exists []. rewrite app_nil_r. split; [reflexivity|]. split; [constructor|].
    repeat split; intros; try discriminate; try congruence. }
  destruct (de_urlParse env) as [e2|] eqn:Hu.
  { exists e2, []. rewrite app_nil_r. split; [reflexivity|]. split; [constructor|].
    repeat split; intros; try discriminate; try congruence. }
  destruct (de_tlsDial env) as [conn|e3] eqn:Hd.
  { destruct (Hnot conn). exists cert, peer. auto. }
  unfold return_. cbn. eexists. eexists. split; [reflexivity|].
  split; [repeat constructor|].
  repeat split; intros; try discriminate; try congruence.
Qed.

Lemma dial_without_connection_witness :
  let env := {| de_now := 63839664000 * 1000000000;
                de_TLSClientConfig := None; de_urlParse := None;
                de_tlsDial := inr (ErrOther "dial tcp 10.0.0.2:7000: i/o timeout");
                de_ExtractConn := None; de_SetTimeouts := None;
                de_requestWrite := None;
                de_ReadResponse := inr (ErrOther "unused") |} in
  exists err ev,
    dqliteNetworkDial env context_Background "10.0.0.2:7000" Sample.opened [] =
      Ret (inr err, [] ++ ev) /\
    Forall (fun e => on_connection e = false) ev /\
    err = ErrorfW "Failed connecting to HTTP endpoint %q: %w"
                  [ArgString "10.0.0.2:7000"]
                  (ErrOther "dial tcp 10.0.0.2:7000: i/o timeout") /\
    ev = [EvTLSDial "10.0.0.2:7000" {| Timeout := minDuration |}].
Proof.
  intros env.
  destruct (dial_without_connection env context_Background "10.0.0.2:7000"
              Sample.opened [] Sample.cert eq_refl)
    as (err & ev & E & Hq & _ & _ & _ & Hdial).
  { intros conn (c & p & _ & _ & _ & _ & H). discriminate H. }
  destruct (Hdial "cluster-public-key" _ eq_refl eq_refl eq_refl eq_refl) as [He Hev].
  exists err, ev. split; [exact E|]. split; [exact Hq|]. split; [exact He|exact Hev].
Defined.

(** Every run of the dial on a handle with a cluster certificate: it
    returns, only appends to the trace, and starts no heartbeat itself. *)
Lemma dial_appends env ctx addr d tr cert :
  clusterCert d = Some cert ->
  exists r ev,
    dqliteNetworkDial env ctx addr d tr = Ret (r, tr ++ ev) /\
    count is_spawn ev = 0%nat.
Proof.
  intros Hc. unfold dqliteNetworkDial. rewrite Hc.
  destruct (PublicKeyX509 cert) as [peer|e0];
    [|eexists; exists []; rewrite app_nil_r; split; reflexivity].
  destruct (de_TLSClientConfig env) as [e1|];
    [eexists; exists []; rewrite app_nil_r; split; reflexivity|].
  destruct (de_urlParse env) as [e2|];
    [eexists; exists []; rewrite app_nil_r; split; reflexivity|].
  destruct (de_tlsDial env) as [conn|e3];
    [|unfold return_; cbn; eexists; eexists; split; reflexivity].
  destruct (de_ExtractConn env) as [e4|];
    [|destruct (de_SetTimeouts env) as [e5|]];
    (destruct (de_requestWrite env) as [e6|];
       [unfold return_; cbn; rewrite <- ?List.app_assoc; cbn;
        eexists; eexists; split; reflexivity|]);
    (destruct (de_ReadResponse env) as [response|e7];
       [|unfold return_; cbn; rewrite <- ?List.app_assoc; cbn;
         eexists; eexists; split; reflexivity]);
    destruct (StatusCode response =? StatusUpgradeRequired);
    destruct (StatusCode response =? StatusSwitchingProtocols);
    destruct (String.eqb (Header_Get "Upgrade" (resp_Header response)) "dqlite");
    unfold return_; cbn; rewrite <- ?List.app_assoc; cbn;
    eexists; eexists; split; reflexivity.
Qed.

(** X16: what [dialFunc] gives the engine.  It starts the heartbeat
    goroutine exactly when it returns a connection, and that connection is
    the dial's; every error of the dial comes back wrapped once, with the
    dial's error as the one [errors.Unwrap] yields. *)
Theorem dialFunc_spawns_heartbeat_on_success
    (env : DialEnv) (d : DB) (ctx : Context) (addr : string) (tr : list Event)
    (cert : CertInfo) :
  clusterCert d = Some cert ->
  exists r ev,
    dialFunc env d ctx addr tr = Ret (r, tr ++ ev) /\
    count is_spawn ev = (match r with inl _ => 1 | inr _ => 0 end)%nat /\
    (forall conn, r = inl conn ->
       result_of (dqliteNetworkDial env ctx addr d tr) = Ret (inl conn) /\
       exists ev0, ev = ev0 ++ [EvGoHeartbeat]) /\
    (forall err, r = inr err ->
       exists cause,
         result_of (dqliteNetworkDial env ctx addr d tr) = Ret (inr cause) /\
         err = ErrorfW "Failed to dial https socket: %w" [] cause /\
         errors_Unwrap err = Some cause).
Proof.
  intros Hc.
  destruct (dial_appends env ctx addr d tr cert Hc) as (r0 & ev0 & E & Hs).
  unfold dialFunc. rewrite E. cbn [result_of].
  destruct r0 as [conn|cause].
  - exists (inl conn), (ev0 ++ [EvGoHeartbeat]).
    split; [rewrite List.app_assoc; reflexivity|].
    split; [rewrite count_app, Hs; reflexivity|].
    split.
    + intros c H. injection H as <-. split; [reflexivity|]. exists ev0. reflexivity.
    + intros err H. discriminate H.
  - exists (inr (ErrorfW "Failed to dial https socket: %w" [] cause)), ev0.
    split; [reflexivity|]. split; [exact Hs|]. split.
    + intros c H. discriminate H.
    + intros err H. injection H as <-. exists cause. repeat split.
Qed.

Lemma dialFunc_spawns_heartbeat_on_success_witness :
  exists r ev,
    dialFunc (Sample.peer 101 "dqlite") Sample.opened Sample.deadline_ctx
      "10.0.0.2:7000" [] = Ret (r, [] ++ ev) /\
    r = inl Sample.conn /\
    count is_spawn ev = 1%nat.
Proof.
  destruct (dialFunc_spawns_heartbeat_on_success (Sample.peer 101 "dqlite")
              Sample.opened Sample.deadline_ctx "10.0.0.2:7000" [] Sample.cert eq_refl)
    as (r & ev & E & Hs & _).
  exists r, ev. split; [exact E|].
  assert (Hr : r = inl Sample.conn).
  { clear Hs. vm_compute in E. injection E as <- _. reflexivity. }
  split; [exact Hr|]. rewrite Hs, Hr. reflexivity.
Defined.

(** X17: the TCP timeouts are best effort.  Whether [tcp.ExtractConn] and
    [tcp.SetTimeouts] succeed or fail makes no difference to what the dial
    returns. *)
Theorem dial_result_ignores_timeout_errors
    (env : DialEnv) (e1 e2 : option error) (ctx : Context) (addr : string)
    (d : DB) (tr : list Event) :
  result_of (dqliteNetworkDial (with_timeouts e1 e2 env) ctx addr d tr) =
  result_of (dqliteNetworkDial env ctx addr d tr).
Proof.
  destruct env as [now tls url dial ex st wr rd].
  unfold with_timeouts, dqliteNetworkDial.
  cbn [de_now de_TLSClientConfig de_urlParse de_tlsDial de_ExtractConn
       de_SetTimeouts de_requestWrite de_ReadResponse].
  destruct (clusterCert d) as [cert|]; [|reflexivity].
  destruct (PublicKeyX509 cert); [|reflexivity].
  destruct tls; [reflexivity|].
  destruct url; [reflexivity|].
  destruct dial as [conn|]; [|reflexivity].
  destruct wr; [reflexivity|].
  destruct rd as [response|]; [|reflexivity].
  destruct (StatusCode response =? StatusUpgradeRequired); [reflexivity|].
  destruct (negb (StatusCode response =? StatusSwitchingProtocols)); [reflexivity|].
  destruct (negb (String.eqb (Header_Get "Upgrade" (resp_Header response)) "dqlite"));
    reflexivity.
Qed.

(** X18: with a deadline in the context, the dialer's timeout is the time
    left until it (as long as that fits a [Duration]); the dial's own
    deadline is then the context's deadline, except when the deadline is
    the present instant: the timeout is zero then, which [net.Dialer] reads
    as no timeout at all. *)
Theorem dial_timeout_with_deadline
    (env : DialEnv) (ctx : Context) (addr : string) (d : DB) (tr : list Event)
    (cert : CertInfo) (peer : x509_Certificate) (t : Time) :
  clusterCert d = Some cert -> PublicKeyX509 cert = inl peer ->
  de_TLSClientConfig env = None -> de_urlParse env = None ->
  ctx_deadline ctx = Some t ->
  minDuration <= t - de_now env <= maxDuration ->
  exists r dialer ev,
    dqliteNetworkDial env ctx addr d tr = Ret (r, tr ++ EvTLSDial addr dialer :: ev) /\
    Timeout dialer = t - de_now env /\
    dialer_deadline dialer (de_now env) =
      (if t =? de_now env then None else Some t).
Proof.
  intros Hc Hp Ht Hu Hdl Hfit.
  destruct (dial_reaches_tls_dial env ctx addr d tr cert peer Hc Hp Ht Hu)
    as (r & ev & E).
  exists r, (dial_dialer (de_now env) ctx), ev. split; [exact E|].
  assert (Hto : Timeout (dial_dialer (de_now env) ctx) = t - de_now env).
  { rewrite dial_dialer_timeout. unfold ctx_Deadline. rewrite Hdl. cbn [fst].
    unfold time_Until, time_Sub.
    destruct (Z.ltb_spec (t - de_now env) minDuration); [lia|].
    destruct (Z.ltb_spec maxDuration (t - de_now env)); [lia|reflexivity]. }
  split; [exact Hto|].
  unfold dialer_deadline. rewrite Hto.
  destruct (Z.eqb_spec (t - de_now env) 0), (Z.eqb_spec t (de_now env));
    try lia; [reflexivity|f_equal; lia].
Qed.

Lemma dial_timeout_with_deadline_witness :
  exists r dialer ev,
    dqliteNetworkDial (Sample.peer 101 "dqlite") Sample.deadline_ctx
      "10.0.0.2:7000" Sample.opened [] =
      Ret (r, [] ++ EvTLSDial "10.0.0.2:7000" dialer :: ev) /\
    Timeout dialer = 5000000000 /\
    dialer_deadline dialer (de_now (Sample.peer 101 "dqlite")) =
      Some (63839664000 * 1000000000 + 5000000000).
Proof.
  assert (Hfit : minDuration <=
                 63839664000 * 1000000000 + 5000000000 - de_now (Sample.peer 101 "dqlite")
                 <= maxDuration).
  { split; vm_compute; discriminate. }
  destruct (dial_timeout_with_deadline (Sample.peer 101 "dqlite") Sample.deadline_ctx
              "10.0.0.2:7000" Sample.opened [] Sample.cert "cluster-public-key"
              (63839664000 * 1000000000 + 5000000000)
              eq_refl eq_refl eq_refl eq_refl eq_refl Hfit)
    as (r & dialer & ev & E & Hto & Hdl).
  exists r, dialer, ev. split; [exact E|]. split.
  - rewrite Hto. reflexivity.
  - rewrite Hdl. reflexivity.
Defined.

End DialMore.

(* ===================================================================== *)
(** * Properties of the daemon's start-up *)
(* ===================================================================== *)

Section LifecycleFacts.
Import Cluster DB Daemon Lifecycle.

Section InitServerFacts.
Variable Handlers : Type.

(** What one endpoint adds to the router, written as a list. *)
Lemma handle_aliases_app (prefix : string) (e : Endpoint Handlers)
    (aliases : list EndpointAlias) (mux : Mux Handlers) :
  fold_left (fun mux alias => HandleEndpoint Handlers mux prefix (aliased Handlers e alias))
            aliases mux =
  mux ++ map (fun alias => {| reg_prefix := prefix;
                              reg_endpoint := aliased Handlers e alias |}) aliases.
Proof.
  revert mux. induction aliases as [|alias aliases IH]; intros mux.
  - cbn. rewrite app_nil_r. reflexivity.
  - cbn [fold_left map]. rewrite IH. unfold HandleEndpoint.
    rewrite <- List.app_assoc. reflexivity.
Qed.

Lemma handle_endpoints_app (prefix : string) (es : list (Endpoint Handlers))
    (mux : Mux Handlers) :
  fold_left (fun mux e =>
               handle_aliases Handlers prefix e (HandleEndpoint Handlers mux prefix e))
            es mux =
  mux ++ flat_map (fun e =>
           {| reg_prefix := prefix; reg_endpoint := e |} ::
           map (fun alias => {| reg_prefix := prefix;
                                reg_endpoint := aliased Handlers e alias |})
               (ep_Aliases Handlers e)) es.
Proof.
  revert mux. induction es as [|e es IH]; intros mux.
  - cbn. rewrite app_nil_r. reflexivity.
  - cbn [fold_left flat_map]. rewrite IH. unfold handle_aliases.
    rewrite handle_aliases_app. unfold HandleEndpoint.
    rewrite <- !List.app_assoc. reflexivity.
Qed.

Lemma initServer_app (resources : list (Resources Handlers)) (mux : Mux Handlers) :
  fold_left (fun mux endpoints => handle_endpoints Handlers endpoints mux) resources mux =
  mux ++ flat_map (fun rs =>
           flat_map (fun e =>
             {| reg_prefix := rs_Path Handlers rs; reg_endpoint := e |} ::
             map (fun alias => {| reg_prefix := rs_Path Handlers rs;
                                  reg_endpoint := aliased Handlers e alias |})
                 (ep_Aliases Handlers e))
             (rs_Endpoints Handlers rs)) resources.
Proof.
  revert mux. induction resources as [|rs resources IH]; intros mux.
  - cbn. rewrite app_nil_r. reflexivity.
  - cbn [fold_left flat_map]. rewrite IH. unfold handle_endpoints.
    rewrite handle_endpoints_app, <- List.app_assoc. reflexivity.
Qed.

(** X19: the calls [initServer] makes to register routes.  The three
    nested loops make, resource after resource and endpoint after endpoint,
    one call for the endpoint under its own name and path, followed by one
    call for each of its aliases, in their order, for a copy of the
    endpoint that has the alias's name and path and is otherwise the
    endpoint (same handlers, same alias list); all of them under the path
    prefix of the resource.  So a call is made exactly for the endpoints
    and for every alias of every endpoint, and their number is the number
    of endpoints plus the number of aliases. *)
Theorem initServer_registers_endpoints_and_aliases
    (resources : list (Resources Handlers)) :
  initServer Handlers resources =
    flat_map (fun rs =>
      flat_map (fun e =>
        {| reg_prefix := rs_Path Handlers rs; reg_endpoint := e |} ::
        map (fun alias =>
               {| reg_prefix := rs_Path Handlers rs;
                  reg_endpoint := {| ep_Name := al_Name alias;
                                     ep_Path := al_Path alias;
                                     ep_Aliases := ep_Aliases Handlers e;
                                     ep_Handlers := ep_Handlers Handlers e |} |})
            (ep_Aliases Handlers e))
        (rs_Endpoints Handlers rs)) resources /\
  length (initServer Handlers resources) =
    fold_right (fun rs n =>
      (fold_right (fun e m => (1 + length (ep_Aliases Handlers e) + m)%nat) 0%nat
                  (rs_Endpoints Handlers rs) + n)%nat) 0%nat resources /\
  (forall reg, In reg (initServer Handlers resources) <->
     exists rs e,
       In rs resources /\ In e (rs_Endpoints Handlers rs) /\
       reg_prefix Handlers reg = rs_Path Handlers rs /\
       (reg_endpoint Handlers reg = e \/
        exists alias, In alias (ep_Aliases Handlers e) /\
          reg_endpoint Handlers reg =
            {| ep_Name := al_Name alias; ep_Path := al_Path alias;
               ep_Aliases := ep_Aliases Handlers e;
               ep_Handlers := ep_Handlers Handlers e |})).
Proof.
  assert (E : initServer Handlers resources =
    flat_map (fun rs =>
      flat_map (fun e =>
        {| reg_prefix := rs_Path Handlers rs; reg_endpoint := e |} ::
        map (fun alias => {| reg_prefix := rs_Path Handlers rs;
                             reg_endpoint := aliased Handlers e alias |})
            (ep_Aliases Handlers e))
        (rs_Endpoints Handlers rs)) resources).
  { unfold initServer. rewrite initServer_app. reflexivity. }
  split; [exact E|]. rewrite E. clear E. split.
  - induction resources as [|rs resources IH]; [reflexivity|].
    cbn [flat_map fold_right]. rewrite length_app, IH. f_equal.
    induction (rs_Endpoints Handlers rs) as [|e es IHe]; [reflexivity|].
    cbn [flat_map fold_right]. rewrite length_app, IHe.
    cbn [length]. rewrite length_map. lia.
  - intros reg. split.
    + intros Hin.
      apply in_flat_map in Hin as (rs & Hrs & Hin).
      apply in_flat_map in Hin as (e & He & Hin).
      exists rs, e. split; [exact Hrs|]. split; [exact He|].
      destruct Hin as [<-|Hin].
      * cbn. auto.
      * apply in_map_iff in Hin as (alias & <- & Halias). cbn.
        split; [reflexivity|]. right. exists alias. auto.
    + intros (rs & e & Hrs & He & Hprefix & Hreg).
      apply in_flat_map. exists rs. split; [exact Hrs|].
      apply in_flat_map. exists e. split; [exact He|].
      destruct reg as [prefix e0]. cbn in Hprefix, Hreg. subst prefix.
      destruct Hreg as [->|(alias & Halias & ->)]; [left; reflexivity|].
      right. apply in_map_iff. exists alias. split; [reflexivity|exact Halias].
Qed.

End InitServerFacts.

(** X19 on one resource with an endpoint that has two aliases and one that
    has none. *)
Example initServer_two_aliases :
  let e1 := {| ep_Name := "cluster"; ep_Path := "cluster";
               ep_Aliases := [{| al_Name := "members"; al_Path := "members" |};
                              {| al_Name := "nodes"; al_Path := "nodes" |}];
               ep_Handlers := tt |} in
  let e2 := {| ep_Name := "ready"; ep_Path := "ready"; ep_Aliases := [];
               ep_Handlers := tt |} in
  map (fun reg => (reg_prefix unit reg, ep_Path unit (reg_endpoint unit reg)))
      (initServer unit [{| rs_Path := "/cluster/1.0"; rs_Endpoints := [e1; e2] |}]) =
  [("/cluster/1.0", "cluster"); ("/cluster/1.0", "members");
   ("/cluster/1.0", "nodes"); ("/cluster/1.0", "ready")].
Proof. reflexivity. Qed.

Section WithTypes.
Context `{TP : TypesPkg}.

(** What [validateConfig] decides, and what it has stored by then. *)
Lemma validateConfig_spec (env : InitEnv) (addr stateDir : string) (p : Proc) :
  let address_ok := orb (String.eqb addr "")
                        (match ie_isListenAddress env addr with
                         | None => true | Some _ => false end) in
  let stat_ok := match ie_stat_stateDir env with StatError _ => false | _ => true end in
  (snd (validateConfig env addr stateDir p) = None <->
     address_ok && negb (String.eqb stateDir "") && stat_ok = true) /\
  fst (validateConfig env addr stateDir p) =
    (if negb (String.eqb addr "") && address_ok
     then set_p_Address {| url_Scheme := "https"; url_Host := addr |} p
     else p).
Proof.
  unfold validateConfig.
  destruct (String.eqb addr ""); cbn [negb orb andb].
  - destruct (String.eqb stateDir ""); cbn; [split; [split; discriminate|reflexivity]|].
    destruct (ie_stat_stateDir env); cbn; split; try reflexivity;
      split; intros H; try reflexivity; discriminate H.
  - destruct (ie_isListenAddress env addr); cbn;
      [split; [split; discriminate|reflexivity]|].
    destruct (String.eqb stateDir ""); cbn; [split; [split; discriminate|reflexivity]|].
    destruct (ie_stat_stateDir env); cbn; split; try reflexivity;
      split; intros H; try reflexivity; discriminate H.
Qed.

Lemma validateConfig_nil_iff (env : InitEnv) (addr stateDir : string) (p : Proc) :
  snd (validateConfig env addr stateDir p) = None <->
    (addr = "" \/ ie_isListenAddress env addr = None) /\
    stateDir <> "" /\
    (forall err, ie_stat_stateDir env <> StatError err).
Proof.
  destruct (validateConfig_spec env addr stateDir p) as [Hiff _].
  rewrite Hiff. clear Hiff.
  destruct (String.eqb_spec addr ""), (String.eqb_spec stateDir "");
    destruct (ie_isListenAddress env addr), (ie_stat_stateDir env); cbn;
    split; intros H; try discriminate H; try reflexivity;
    try (repeat split; auto; try discriminate; fail);
    try (destruct H as (H1 & H2 & H3); try contradiction;
         try (destruct H1 as [H1|H1]; [contradiction|discriminate H1]);
         try (destruct (H3 _ eq_refl)); fail).
Qed.

Lemma validateConfig_frame (env : InitEnv) (addr stateDir : string) (p : Proc) :
  p_os (fst (validateConfig env addr stateDir p)) = p_os p /\
  p_db (fst (validateConfig env addr stateDir p)) = p_db p /\
  p_ready_closed (fst (validateConfig env addr stateDir p)) = p_ready_closed p.
Proof.
  destruct (validateConfig_spec env addr stateDir p) as [_ ->].
  destruct (negb _ && _); repeat split.
Qed.

(** X20: [validateConfig] accepts an empty address, and then leaves
    [d.Address] alone, and a state directory that does not exist yet; it
    rejects an address the validator refuses, an empty state directory and
    a state directory that cannot be examined.  The state directory is
    looked at after the address: a call that fails on it has already
    stored a valid address in [d.Address]. *)
Theorem validateConfig_accepts_and_stores
    (env : InitEnv) (addr stateDir : string) (p : Proc) :
  (snd (validateConfig env addr stateDir p) = None <->
     (addr = "" \/ ie_isListenAddress env addr = None) /\
     stateDir <> "" /\
     (forall err, ie_stat_stateDir env <> StatError err)) /\
  (addr <> "" -> ie_isListenAddress env addr = None ->
     p_Address (fst (validateConfig env addr stateDir p)) =
       {| url_Scheme := "https"; url_Host := addr |}) /\
  (addr = "" \/ ie_isListenAddress env addr <> None ->
     fst (validateConfig env addr stateDir p) = p) /\
  p_os (fst (validateConfig env addr stateDir p)) = p_os p /\
  p_db (fst (validateConfig env addr stateDir p)) = p_db p /\
  p_ready_closed (fst (validateConfig env addr stateDir p)) = p_ready_closed p.
Proof.
  split; [apply validateConfig_nil_iff|].
  destruct (validateConfig_spec env addr stateDir p) as [_ Hfst].
  rewrite Hfst. clear Hfst. split; [|split].
  - intros Ha Hl. apply String.eqb_neq in Ha. rewrite Ha, Hl. reflexivity.
  - intros [->|Hl]; [reflexivity|].
    destruct (String.eqb addr ""); [reflexivity|].
    destruct (ie_isListenAddress env addr); [reflexivity|contradiction].
  - destruct (negb _ && _); repeat split.
Qed.

End WithTypes.

Lemma validateConfig_accepts_and_stores_witness :
  snd (validateConfig Sample.init_env "10.0.0.1:7000" "" NewDaemon) =
    Some (Errorf "State directory must be specified" []) /\
  p_Address (fst (validateConfig Sample.init_env "10.0.0.1:7000" "" NewDaemon)) =
    {| url_Scheme := "https"; url_Host := "10.0.0.1:7000" |}.
Proof.
  split; [reflexivity|].
  apply (validateConfig_accepts_and_stores (TP := Sample.types) Sample.init_env
           "10.0.0.1:7000" "" NewDaemon); [discriminate|reflexivity].
Defined.

Section JoinPath.
Context `{TP : TypesPkg}.



(** X22: the clients of the other members.  When the loop over the trust
    store's addresses completes, it has built one client for each address
    other than the node's own, in the order of the loop, each for the
    [https] URL of that address, and none for the node itself; and it
    completes whenever the cluster certificate parses and [client.New]
    succeeds for those addresses. *)
Theorem build_clients_skips_own_address
    (env : JoinEnv) (d : Daemon) (addrs : list (string * AddrPort)) (cluster : list URL) :
  (forall cs, build_clients env d addrs cluster = Ret (inl cs) ->
     cs = cluster ++ map member_url (other_members d addrs)) /\
  (forall cc publicKey,
     ClusterCert d = Some cc -> PublicKeyX509 cc = inl publicKey ->
     Forall (fun a => je_clientNew env (member_url a) = None) (other_members d addrs) ->
     build_clients env d addrs cluster =
       Ret (inl (cluster ++ map member_url (other_members d addrs)))) /\
  Forall (fun u => url_Host u <> url_Host (d_Address d) /\ url_Scheme u = "https")
         (map member_url (other_members d addrs)).
Proof.
  split; [|split].
  - revert cluster. induction addrs as [|[name a] addrs IH]; intros cluster cs.
    + cbn. intros H. injection H as <-. rewrite app_nil_r. reflexivity.
    + cbn [build_clients]. unfold other_members. cbn [map List.filter snd].
      destruct (String.eqb (url_Host (d_Address d)) (AddrPort_String a)); cbn [negb].
      * apply IH.
      * destruct (ClusterCert d) as [cc|]; [|discriminate].
        destruct (PublicKeyX509 cc); [|discriminate].
        destruct (je_clientNew env (member_url a)); [discriminate|].
        intros H. apply IH in H. rewrite H, <- List.app_assoc. reflexivity.
  - intros cc publicKey Hcc Hpk. revert cluster.
    induction addrs as [|[name a] addrs IH]; intros cluster Hall.
    + cbn. rewrite app_nil_r. reflexivity.
    + cbn [build_clients]. unfold other_members in *. cbn [map List.filter snd] in *.
      destruct (String.eqb (url_Host (d_Address d)) (AddrPort_String a)); cbn [negb] in *.
      * apply IH. exact Hall.
      * rewrite Hcc, Hpk. inversion Hall as [|? ? Ha Hrest]; subst.
        rewrite Ha. rewrite (IH _ Hrest), <- List.app_assoc. reflexivity.
  - unfold other_members. induction (map snd addrs) as [|a l IH]; [constructor|].
    cbn [List.filter].
    destruct (String.eqb_spec (url_Host (d_Address d)) (AddrPort_String a)); cbn [negb].
    + exact IH.
    + cbn [map]. constructor; [|exact IH]. cbn. split; [congruence|reflexivity].
Qed.

(** What [StartAPI(false, ...)] leaves alone in the daemon. *)
Lemma StartAPI_join_frame
    (env : JoinEnv) (joinAddresses : list string) (d : Daemon) (w : World)
    (r : go (option error)) (d' : Daemon) (w' : World) :
  StartAPI_join env joinAddresses d w = Some (r, d', w') ->
  d_Address d' = d_Address d /\ d_os d' = d_os d /\
  d_serverCert d' = d_serverCert d /\
  (d_db d <> None -> d_db d' <> None) /\
  (r = Ret None -> je_Refresh env = None /\ 1 <= je_Count env).
Proof.
  unfold StartAPI_join.
  assert (Hret : forall (r1 : go (option error)) (d1 : Daemon) (w1 : World),
            r1 <> Ret None ->
            d_Address d1 = d_Address d -> d_os d1 = d_os d ->
            d_serverCert d1 = d_serverCert d -> (d_db d <> None -> d_db d1 <> None) ->
            Some (r1, d1, w1) = Some (r, d', w') ->
            d_Address d' = d_Address d /\ d_os d' = d_os d /\
            d_serverCert d' = d_serverCert d /\
            (d_db d <> None -> d_db d' <> None) /\
            (r = Ret None -> je_Refresh env = None /\ 1 <= je_Count env)).
  { intros r1 d1 w1 Hr H1 H2 H3 H4 H. injection H as <- <- <-.
    repeat split; auto; contradiction. }
  destruct (ParseAddrPort _); [|apply Hret; auto; discriminate].
  destruct (d_serverCert d) as [sc|] eqn:Hsc; [|apply Hret; auto; discriminate].
  destruct (PublicKeyX509 sc); [|apply Hret; auto; discriminate].
  destruct (je_LoadClusterCert env) as [cert|];
    [|apply Hret; cbn; auto; discriminate].
  destruct (je_endpointsAdd env); [apply Hret; cbn; auto; discriminate|].
  cbn [d_db set_d_clusterCert].
  destruct (d_db d) as [database|]; [|apply Hret; cbn; auto; discriminate].
  match goal with
  | |- context [match ?j with Some _ => _ | None => None end] =>
      destruct j as [[[r0 database'] tr]|]; [|discriminate]
  end.
  destruct r0 as [[err|]|];
    [apply Hret; cbn; auto; discriminate| |apply Hret; cbn; auto; discriminate].
  destruct (je_Refresh env); [apply Hret; cbn; auto; discriminate|].
  destruct (je_Count env - 1 <? 0) eqn:Hc; [apply Hret; cbn; auto; discriminate|].
  apply Z.ltb_ge in Hc.
  destruct (build_clients _ _ _ _) as [[cluster|err]|];
    [|apply Hret; cbn; auto; discriminate|apply Hret; cbn; auto; discriminate].
  intros H. injection H as <- <- <-. cbn. repeat split; auto; try discriminate. lia.
Qed.

(** X23: an empty trust store after the join.  The capacity of the slice
    of clients is [Count()-1]: when the engine has been started and the
    trust store refreshed, and the store then counts no remote at all,
    [make] is called with a negative capacity and [StartAPI(false, ...)]
    panics instead of returning; in no case does it return nil with a
    count below one. *)
Theorem StartAPI_join_panics_on_empty_trust_store
    (env : JoinEnv) (joinAddresses : list string) (d : Daemon) (w : World) :
  (forall r d' w',
     StartAPI_join env joinAddresses d w = Some (r, d', w') ->
     r = Ret None -> 1 <= je_Count env) /\
  (forall (addr : AddrPort) (sc cert : CertInfo) (serverCert : x509_Certificate)
          (database database' : DB.DB) (tr : list Event),
     ParseAddrPort (url_Host (d_Address d)) = inl addr ->
     d_serverCert d = Some sc ->
     PublicKeyX509 sc = inl serverCert ->
     je_LoadClusterCert env = inl cert ->
     je_endpointsAdd env = None ->
     d_db d = Some database ->
     Join (je_script env) database (Some cert) (engine_addresses env joinAddresses)
          (w_trace w) = Some (Ret None, database', tr) ->
     je_Refresh env = None ->
     je_Count env < 1 ->
     StartAPI_join env joinAddresses d w =
       Some (Panic, set_d_db (Some database') (set_d_clusterCert (Some cert) d),
             {| w_members := w_members w; w_trace := tr |})).
Proof.
  split.
  { intros r d' w' H Hr. apply StartAPI_join_frame in H as (_ & _ & _ & _ & Hok).
    apply (Hok Hr). }
  intros addr sc cert serverCert database database' tr
         Haddr Hsc Hpk Hcert Hadd Hdb Hjoin Hrefresh Hcount.
  unfold StartAPI_join. rewrite Haddr, Hsc, Hpk, Hcert, Hadd.
  cbn [d_db set_d_clusterCert]. rewrite Hdb.
  unfold engine_addresses in Hjoin. unfold StartWithCluster, ClusterCert.
  cbv zeta. cbn [d_clusterCert set_d_clusterCert]. revert Hjoin.
  destruct (negb (Nat.eqb (length joinAddresses) 0));
    intros Hjoin; rewrite Hjoin, Hrefresh;
    (destruct (je_Count env - 1 <? 0) eqn:Hc; [reflexivity|]);
    apply Z.ltb_ge in Hc; lia.
Qed.

End JoinPath.


Lemma build_clients_skips_own_address_witness :
  build_clients (TP := Sample.types) Sample.join_env
    (set_d_clusterCert (Some Sample.cert) Sample.daemon)
    (je_Addresses Sample.join_env) [] =
  Ret (inl [{| url_Scheme := "https"; url_Host := "10.0.0.2:7000" |};
            {| url_Scheme := "https"; url_Host := "10.0.0.3:7000" |}]).
Proof.
  apply (build_clients_skips_own_address (TP := Sample.types) Sample.join_env
           (set_d_clusterCert (Some Sample.cert) Sample.daemon)
           (je_Addresses Sample.join_env) [])
    with (cc := Sample.cert) (publicKey := "cluster-public-key");
    [reflexivity|reflexivity|repeat constructor].
Defined.

Lemma StartAPI_join_panics_on_empty_trust_store_witness :
  exists d' w',
    StartAPI_join (TP := Sample.types) Sample.lonely_env [] Sample.daemon
      Sample.empty_world = Some (Panic, d', w') /\
    IsOpen (d_db d') = true.
Proof.
  eexists. eexists. split.
  - eapply (proj2 (StartAPI_join_panics_on_empty_trust_store (TP := Sample.types)
                     Sample.lonely_env [] Sample.daemon Sample.empty_world));
      reflexivity.
  - reflexivity.
Defined.

Section InitFacts.
Context `{TP : TypesPkg}.

Ltac lv_absent :=
  cbn; rewrite ?in_app_iff; cbn; intuition (try discriminate; auto).

Lemma reloadIfBootstrapped_frame
    (env : InitEnv) (p : Proc) (w : World) (lt : list LEvent)
    (r : go (option error)) (p' : Proc) (w' : World) (lt' : list LEvent) :
  reloadIfBootstrapped env p w lt = Some (r, p', w', lt') ->
  p_ready_closed p' = p_ready_closed p /\
  p_Address p' = p_Address p /\ p_os p' = p_os p /\
  p_serverCert p' = p_serverCert p /\
  (p_db p <> None -> p_db p' <> None) /\
  (exists ev, lt' = lt ++ ev /\ ~ In LvCloseReady ev /\
              (ie_stat_info env <> StatOk -> ~ In LvStartAPI ev)) /\
  (ie_stat_info env <> StatOk -> w' = w /\ p' = p /\ (p_os p <> None -> r <> Panic)).
Proof.
  unfold reloadIfBootstrapped.
  destruct (p_os p) as [os|] eqn:Hos.
  { destruct (ie_stat_info env) eqn:Hstat.
    - destruct (StartAPI_join _ _ _ _) as [[[r0 d0] w0]|] eqn:Hs; [|discriminate].
      apply StartAPI_join_frame in Hs as (Ha & Ho & Hsc & Hdb & _).
      intros H. injection H as <- <- <- <-. cbn in Ha, Ho, Hsc, Hdb |- *.
      split; [reflexivity|]. split; [exact Ha|]. split; [f_equal; exact Ho|].
      split; [exact Hsc|]. split; [exact Hdb|].
      split; [|intros Hn; destruct Hn; reflexivity].
      exists [LvStatInfo (DatabaseDir os); LvStartAPI].
      split; [rewrite <- List.app_assoc; reflexivity|].
      split; [lv_absent|intros Hn; destruct Hn; reflexivity].
    - intros H. injection H as <- <- <- <-.
      split; [reflexivity|]. split; [reflexivity|]. split; [exact Hos|].
      split; [reflexivity|]. split; [auto|].
      split; [|intros _; split; [reflexivity|split; [reflexivity|discriminate]]].
      exists [LvStatInfo (DatabaseDir os); LvWarn "microcluster database is uninitialized"].
      split; [rewrite <- List.app_assoc; reflexivity|].
      split; [lv_absent|intros _; lv_absent].
    - intros H. injection H as <- <- <- <-.
      split; [reflexivity|]. split; [reflexivity|]. split; [exact Hos|].
      split; [reflexivity|]. split; [auto|].
      split; [|intros _; split; [reflexivity|split; [reflexivity|discriminate]]].
      exists [LvStatInfo (DatabaseDir os)].
      split; [reflexivity|].
      split; [lv_absent|intros _; lv_absent]. }
  intros H. injection H as <- <- <- <-.
  split; [reflexivity|]. split; [reflexivity|]. split; [exact Hos|].
  split; [reflexivity|]. split; [auto|].
  split; [|intros _; split; [reflexivity|split; [reflexivity|intros Hn; destruct Hn; reflexivity]]].
  exists []. rewrite app_nil_r. split; [reflexivity|]. split; [intros []|intros _ []].
Qed.

Lemma initStore_trace (env : InitEnv) (os : OS) (lt : list LEvent) :
  exists ev, snd (initStore env os lt) = lt ++ ev /\
             ~ In LvCloseReady ev /\ ~ In LvStartAPI ev.
Proof.
  unfold initStore.
  destruct (ie_NewWatcher env); cbn.
  - eexists. split; [reflexivity|]. lv_absent.
  - destruct (ie_trustInit env); cbn;
      (eexists; split; [rewrite <- List.app_assoc; reflexivity|]);
      lv_absent.
Qed.

Lemma init_frame
    (env : InitEnv) (p : Proc) (w : World) (lt : list LEvent)
    (r : go (option error)) (p' : Proc) (w' : World) (lt' : list LEvent) :
  init env p w lt = Some (r, p', w', lt') ->
  p_ready_closed p' = p_ready_closed p /\
  p_Address p' = p_Address p /\ p_os p' = p_os p /\
  (exists ev, lt' = lt ++ ev /\ ~ In LvCloseReady ev /\
              (ie_stat_info env <> StatOk -> ~ In LvStartAPI ev)) /\
  (r = Ret None ->
     p_os p <> None /\ p_serverCert p' <> None /\ p_db p' <> None /\
     ie_Refresh env = None) /\
  (ie_stat_info env <> StatOk ->
     w' = w /\ (p_os p <> None -> r <> Panic) /\
     (r = Ret None ->
        exists os sc, p_os p = Some os /\ ie_LoadServerCert env = inl sc /\
          p_serverCert p' = Some sc /\
          p_db p' = Some (NewDB (Some sc) os (p_Address p)))).
Proof.
  unfold init.
  destruct (p_os p) as [os|] eqn:Hos.
  2:{ intros H. injection H as <- <- <- <-.
      split; [reflexivity|]. split; [reflexivity|]. split; [exact Hos|].
      split; [exists []; rewrite app_nil_r; split; [reflexivity|];
              split; [intros []|intros _ []]|].
      split; [discriminate|]. intros _. split; [reflexivity|].
      split; [intros Hn; destruct Hn; reflexivity|discriminate]. }
  destruct (ie_LoadServerCert env) as [sc|err] eqn:Hload.
  2:{ intros H. injection H as <- <- <- <-. cbn.
      split; [reflexivity|]. split; [reflexivity|]. split; [exact Hos|].
      split; [exists [LvLoadServerCert (StateDir os)]; split; [reflexivity|];
              split; [lv_absent|intros _; lv_absent]|].
      split; [discriminate|]. intros _. split; [reflexivity|].
      split; [discriminate|discriminate]. }
  destruct (initStore_trace env os (lt ++ [LvLoadServerCert (StateDir os)]))
    as (ev1 & Hev1 & Hc1 & Hs1).
  destruct (initStore env os (lt ++ [LvLoadServerCert (StateDir os)]))
    as [[err|] lt2]; cbn [snd] in Hev1; subst lt2.
  { intros H. injection H as <- <- <- <-. cbn.
    split; [reflexivity|]. split; [reflexivity|]. split; [exact Hos|].
    split; [exists (LvLoadServerCert (StateDir os) :: ev1);
            split; [rewrite <- List.app_assoc; reflexivity|];
            split; [lv_absent|intros _; lv_absent]|].
    split; [discriminate|]. intros _. split; [reflexivity|].
    split; [discriminate|discriminate]. }
  cbn [p_serverCert set_p_serverCert p_Address].
  destruct (ie_endpointsUp env).
  { intros H. injection H as <- <- <- <-. cbn.
    split; [reflexivity|]. split; [reflexivity|]. split; [exact Hos|].
    split; [exists (LvLoadServerCert (StateDir os) ::
                    ev1 ++ [LvNewSocket (ControlSocket os); LvEndpointsUp]);
            split; [rewrite <- !List.app_assoc; reflexivity|];
            split; [lv_absent|intros _; lv_absent]|].
    split; [discriminate|]. intros _. split; [reflexivity|].
    split; [discriminate|discriminate]. }
  destruct (reloadIfBootstrapped _ _ _ _) as [[[[r0 p3] w3] lt4]|] eqn:Hre;
    [|discriminate].
  apply reloadIfBootstrapped_frame in Hre
    as (Hrc & Ha & Ho & Hsc & Hdb & (ev2 & -> & Hc2 & Hs2) & Hfresh).
  cbn in Hrc, Ha, Ho, Hsc, Hdb. rewrite Hos in Ho.
  assert (Hdb' : p_db p3 <> None) by (apply Hdb; discriminate).
  set (pre := LvLoadServerCert (StateDir os) ::
              ev1 ++ [LvNewSocket (ControlSocket os); LvEndpointsUp] ++ ev2).
  assert (Hpre : (((lt ++ [LvLoadServerCert (StateDir os)]) ++ ev1) ++
                 [LvNewSocket (ControlSocket os); LvEndpointsUp]) ++ ev2 = lt ++ pre).
  { unfold pre. rewrite <- !List.app_assoc. reflexivity. }
  rewrite Hpre. clear Hpre.
  assert (Hpc : ~ In LvCloseReady pre) by (unfold pre; lv_absent).
  assert (Hps : ie_stat_info env <> StatOk -> ~ In LvStartAPI pre).
  { intros Hn. specialize (Hs2 Hn). unfold pre. lv_absent. }
  assert (Hfin : forall (r1 : go (option error)) (tail : list LEvent),
            (r1 = Ret None -> ie_Refresh env = None) ->
            (r0 <> Panic -> r1 <> Panic) ->
            ~ In LvCloseReady tail -> ~ In LvStartAPI tail ->
            Some (r1, p3, w3, (lt ++ pre) ++ tail) = Some (r, p', w', lt') ->
            p_ready_closed p' = p_ready_closed p /\
            p_Address p' = p_Address p /\ p_os p' = Some os /\
            (exists ev, lt' = lt ++ ev /\ ~ In LvCloseReady ev /\
                        (ie_stat_info env <> StatOk -> ~ In LvStartAPI ev)) /\
            (r = Ret None ->
               Some os <> None /\ p_serverCert p' <> None /\ p_db p' <> None /\
               ie_Refresh env = None) /\
            (ie_stat_info env <> StatOk ->
               w' = w /\ (Some os <> None -> r <> Panic) /\
               (r = Ret None ->
                  exists os0 sc0, Some os = Some os0 /\ @inl CertInfo error sc = inl sc0 /\
                    p_serverCert p' = Some sc0 /\
                    p_db p' = Some (NewDB (Some sc0) os0 (p_Address p))))).
  { intros r1 tail Hr1 Hp1 Ht1 Ht2 H. injection H as <- <- <- <-.
    split; [exact Hrc|]. split; [exact Ha|]. split; [exact Ho|].
    split.
    { exists (pre ++ tail). split; [rewrite List.app_assoc; reflexivity|].
      split.
      - rewrite in_app_iff. intros [E|E]; auto.
      - intros Hn. rewrite in_app_iff. intros [E|E]; [apply (Hps Hn E)|auto]. }
    split.
    { intros E. split; [discriminate|]. split; [rewrite Hsc; discriminate|].
      split; [exact Hdb'|auto]. }
    intros Hn. destruct (Hfresh Hn) as (E1 & E2 & Hnp). cbn in Hnp.
    split; [exact E1|]. split.
    { intros _. apply Hp1. apply Hnp. rewrite Hos. discriminate. }
    intros _. exists os, sc. rewrite E2. cbn.
    split; [reflexivity|]. split; [reflexivity|]. split; reflexivity. }
  destruct r0 as [[err|]|].
  - intros H. apply (Hfin (Ret (Some err)) []);
      [discriminate|discriminate|intros []|intros []|rewrite app_nil_r; exact H].
  - intros H. apply (Hfin (Ret (ie_Refresh env)) [LvRefresh]);
      [intros E; injection E as E; exact E
      |intros _; destruct (ie_Refresh env); discriminate
      |lv_absent|lv_absent|exact H].
  - intros H. apply (Hfin Panic []);
      [discriminate|intros Hn; destruct Hn; reflexivity|intros []|intros []
      |rewrite app_nil_r; exact H].
Qed.

Lemma ready_on_failure
    (env : InitEnv) (p p' : Proc) (lt lt' ev0 : list LEvent) (r : go (option error)) :
  r <> Ret None ->
  p_ready_closed p' = p_ready_closed p ->
  lt' = lt ++ ev0 ->
  ~ In LvCloseReady ev0 ->
  (p_ready_closed p = false ->
     (r = Ret None <-> p_ready_closed p' = true) /\
     (r = Ret None <-> exists ev, lt' = lt ++ ev ++ [LvCloseReady])) /\
  (p_ready_closed p = true -> r <> Ret None /\ p_ready_closed p' = true) /\
  (r = Ret None ->
     p_os p' <> None /\ p_serverCert p' <> None /\ p_db p' <> None /\
     ie_Refresh env = None).
Proof.
  intros Hr Hp -> Hev. rewrite Hp.
  split; [|split].
  - intros Hf. split; split.
    + intros E. destruct (Hr E).
    + intros E. congruence.
    + intros E. destruct (Hr E).
    + intros (ev & E). apply app_inv_head in E. destruct Hev.
      rewrite E, in_app_iff. right. left. reflexivity.
  - intros Ht. split; [exact Hr|exact Ht].
  - intros E. destruct (Hr E).
Qed.

(** X24: the ready signal.  [Init] closes [ReadyChan] exactly when it
    returns nil, as its last step; a daemon whose [ReadyChan] is already
    closed cannot be initialised again, as the second [close] panics.
    When [Init] returns nil the daemon has its directories, its server
    certificate and its database handle, and the last refresh of the trust
    store succeeded. *)
Theorem Init_closes_ready_exactly_on_success
    (env : InitEnv) (addr stateDir : string) (p : Proc) (w : World)
    (lt : list LEvent) (r : go (option error)) (p' : Proc) (w' : World)
    (lt' : list LEvent) :
  Init env addr stateDir p w lt = Some (r, p', w', lt') ->
  (p_ready_closed p = false ->
     (r = Ret None <-> p_ready_closed p' = true) /\
     (r = Ret None <-> exists ev, lt' = lt ++ ev ++ [LvCloseReady])) /\
  (p_ready_closed p = true -> r <> Ret None /\ p_ready_closed p' = true) /\
  (r = Ret None ->
     p_os p' <> None /\ p_serverCert p' <> None /\ p_db p' <> None /\
     ie_Refresh env = None).
Proof.
  unfold Init.
  set (dir := if String.eqb stateDir "" then ie_getenv env else stateDir).
  destruct (validateConfig_frame env addr dir p) as (_ & _ & Hvr).
  destruct (validateConfig env addr dir p) as [p1 [err|]]; cbn [fst] in Hvr.
  { intros H. injection H as <- <- <- <-.
    apply (ready_on_failure env p p1 lt lt []);
      [discriminate|exact Hvr|rewrite app_nil_r; reflexivity|intros []]. }
  destruct (ie_DefaultOS env) as [os|err].
  2:{ intros H. injection H as <- <- <- <-.
      apply (ready_on_failure env p _ lt _ [LvDefaultOS dir]);
        [discriminate|exact Hvr|reflexivity|lv_absent]. }
  destruct (init _ _ _ _) as [[[[r0 p2] w2] lt2]|] eqn:Hi; [|discriminate].
  apply init_frame in Hi as (Hrc & _ & Ho & (ev & -> & Hc & _) & Hok & _).
  cbn in Hrc, Ho. rewrite Hvr in Hrc.
  assert (Hc' : ~ In LvCloseReady ([LvDefaultOS dir] ++ ev)) by lv_absent.
  destruct r0 as [[err|]|].
  - intros H. injection H as <- <- <- <-.
    apply (ready_on_failure env p p2 lt _ ([LvDefaultOS dir] ++ ev));
      [discriminate|exact Hrc|rewrite List.app_assoc; reflexivity|exact Hc'].
  - destruct (Hok eq_refl) as (_ & Hsc & Hdb & Href).
    destruct (p_ready_closed p2) eqn:Hp2.
    + intros H. injection H as <- <- <- <-.
      apply (ready_on_failure env p p2 lt _ ([LvDefaultOS dir] ++ ev));
        [discriminate|congruence|rewrite List.app_assoc; reflexivity|exact Hc'].
    + intros H. injection H as <- <- <- <-. cbn.
      split; [|split].
      * intros _. split; split; auto.
        intros _. exists ([LvDefaultOS dir] ++ ev).
        rewrite <- !List.app_assoc. reflexivity.
      * intros Ht. congruence.
      * intros _. rewrite Ho.
        split; [discriminate|]. split; [exact Hsc|]. split; [exact Hdb|exact Href].
  - intros H. injection H as <- <- <- <-.
    apply (ready_on_failure env p p2 lt _ ([LvDefaultOS dir] ++ ev));
      [discriminate|exact Hrc|rewrite List.app_assoc; reflexivity|exact Hc'].
Qed.

(** X25: a refused configuration.  [Init] returns an error wrapped as
    "Invalid daemon configuration" exactly when the address is given and
    refused by the validator, or the state directory (the argument, or the
    environment variable when the argument is empty) is empty, or cannot be
    examined; it has then called no collaborator of start-up and touched
    neither the directories nor the database handle nor [ReadyChan].  With
    a valid configuration the first thing [Init] does is to create the
    directory structure for that state directory. *)
Theorem Init_invalid_configuration
    (env : InitEnv) (addr stateDir : string) (p : Proc) (w : World) (lt : list LEvent) :
  let dir := if String.eqb stateDir "" then ie_getenv env else stateDir in
  let valid := (addr = "" \/ ie_isListenAddress env addr = None) /\
               dir <> "" /\
               (forall err, ie_stat_stateDir env <> StatError err) in
  (~ valid ->
     exists err p',
       Init env addr stateDir p w lt =
         Some (Ret (Some (ErrorfW "Invalid daemon configuration: %w" [] err)), p', w, lt) /\
       p_os p' = p_os p /\ p_db p' = p_db p /\
       p_ready_closed p' = p_ready_closed p) /\
  (valid ->
     forall r p' w' lt',
       Init env addr stateDir p w lt = Some (r, p', w', lt') ->
       (forall err, r <> Ret (Some (ErrorfW "Invalid daemon configuration: %w" [] err))) /\
       exists ev, lt' = lt ++ LvDefaultOS dir :: ev).
Proof.
  intros dir valid. unfold Init. fold dir.
  pose proof (validateConfig_nil_iff env addr dir p) as Hiff. fold valid in Hiff.
  destruct (validateConfig_frame env addr dir p) as (Ho & Hd & Hr).
  destruct (validateConfig env addr dir p) as [p1 [err|]]; cbn [fst snd] in *.
  - split.
    + intros _. exists err, p1. repeat split; auto.
    + intros Hv. apply Hiff in Hv. discriminate Hv.
  - split; [intros Hn; destruct Hn; apply Hiff; reflexivity|].
    intros _ r p' w' lt'.
    destruct (ie_DefaultOS env) as [os|err].
    2:{ intros H. injection H as <- <- <- <-. split; [discriminate|].
        exists []. reflexivity. }
    destruct (init _ _ _ _) as [[[[r0 p2] w2] lt2]|] eqn:Hi; [|discriminate].
    apply init_frame in Hi as (_ & _ & _ & (ev & -> & _) & _).
    destruct r0 as [[err|]|]; [| destruct (p_ready_closed p2) |];
      intros H; injection H as <- <- <- <-;
      (split; [discriminate|]);
      rewrite <- ?List.app_assoc; eexists; reflexivity.
Qed.

(** X26: a node that was never bootstrapped.  When [info.yaml] is not
    found (or cannot be examined), [Init] does not call [StartAPI] and the
    database engine is not started: nothing is done on the database or the
    membership table, [Init] does not panic, and when it returns nil the
    daemon holds the handle that [NewDB] made for the loaded server
    certificate, the directories and the configured address, which is not
    open. *)
Theorem Init_without_info_yaml
    (env : InitEnv) (addr stateDir : string) (p : Proc) (w : World)
    (lt : list LEvent) :
  ie_stat_info env <> StatOk ->
  p_ready_closed p = false ->
  exists r p' ev,
    Init env addr stateDir p w lt = Some (r, p', w, lt ++ ev) /\
    ~ In LvStartAPI ev /\
    r <> Panic /\
    (r = Ret None ->
       exists os sc,
         ie_DefaultOS env = inl os /\ ie_LoadServerCert env = inl sc /\
         p_os p' = Some os /\ p_serverCert p' = Some sc /\
         p_db p' = Some (NewDB (Some sc) os (p_Address p')) /\
         IsOpen (p_db p') = false).
Proof.
  intros Hstat Hready. unfold Init.
  set (dir := if String.eqb stateDir "" then ie_getenv env else stateDir).
  destruct (validateConfig_frame env addr dir p) as (_ & _ & Hvr).
  destruct (validateConfig env addr dir p) as [p1 [err|]]; cbn [fst] in Hvr.
  { eexists. exists p1, []. rewrite app_nil_r. split; [reflexivity|].
    split; [intros []|]. split; discriminate. }
  destruct (ie_DefaultOS env) as [os|err] eqn:HOS.
  2:{ eexists. eexists. exists [LvDefaultOS dir]. split; [reflexivity|].
      split; [cbn; intros [E|[]]; discriminate E|]. split; discriminate. }
  assert (Htotal : exists res, init env (set_p_os (Some os) p1) w
                                 (lt ++ [LvDefaultOS dir]) = Some res).
  { unfold init, reloadIfBootstrapped. cbn [p_os set_p_os set_p_serverCert set_p_db].
    destruct (ie_LoadServerCert env); [|eexists; reflexivity].
    destruct (initStore _ _ _) as [[e|] l]; [eexists; reflexivity|].
    destruct (ie_endpointsUp env); [eexists; reflexivity|].
    destruct (ie_stat_info env); [contradiction|eexists; reflexivity|eexists; reflexivity]. }
  destruct Htotal as ([[[r0 p2] w2] lt2] & Hi). rewrite Hi.
  apply init_frame in Hi
    as (Hrc & Ha & Ho & (ev & -> & _ & Hs) & _ & Hfresh).
  destruct (Hfresh Hstat) as (-> & Hnp & Hnew).
  cbn in Hrc, Ha, Ho, Hnp. rewrite Hvr, Hready in Hrc.
  assert (Hs' : ~ In LvStartAPI ([LvDefaultOS dir] ++ ev)).
  { cbn. intros [E|E]; [discriminate E|apply (Hs Hstat E)]. }
  destruct r0 as [[err|]|].
  - eexists. exists p2, ([LvDefaultOS dir] ++ ev).
    rewrite List.app_assoc. split; [reflexivity|]. split; [exact Hs'|].
    split; discriminate.
  - rewrite Hrc. eexists. eexists. exists (([LvDefaultOS dir] ++ ev) ++ [LvCloseReady]).
    split; [rewrite !List.app_assoc; reflexivity|].
    split; [rewrite in_app_iff; intros [E|[E|[]]]; [exact (Hs' E)|discriminate E]|].
    split; [discriminate|]. intros _.
    destruct (Hnew eq_refl) as (os0 & sc & Eos & Hload & Hsc & Hdb).
    cbn in Eos. injection Eos as <-. exists os, sc. cbn.
    rewrite Ha. repeat split; auto. rewrite Hdb. reflexivity.
  - destruct Hnp; [discriminate|reflexivity].
Qed.

End InitFacts.

Lemma Init_closes_ready_exactly_on_success_witness :
  exists p' w' lt',
    Init (TP := Sample.types) Sample.init_env "10.0.0.1:7000" "" NewDaemon
      Sample.empty_world [] = Some (Ret None, p', w', lt') /\
    p_ready_closed p' = true /\ p_db p' <> None.
Proof.
  destruct (Init (TP := Sample.types) Sample.init_env "10.0.0.1:7000" "" NewDaemon
              Sample.empty_world []) as [[[[r p'] w'] lt']|] eqn:E; [|discriminate E].
  destruct (Init_closes_ready_exactly_on_success (TP := Sample.types) Sample.init_env
              "10.0.0.1:7000" "" NewDaemon Sample.empty_world [] r p' w' lt' E)
    as (Hfresh & _ & Hok).
  assert (Hr : r = Ret None) by (vm_compute in E; congruence).
  exists p', w', lt'. subst r. split; [reflexivity|].
  split; [apply (Hfresh eq_refl); reflexivity|apply (Hok eq_refl)].
Defined.

Lemma Init_invalid_configuration_witness :
  exists err p',
    Init (TP := Sample.types) Sample.init_env "nowhere" "" NewDaemon
      Sample.empty_world [] =
      Some (Ret (Some (ErrorfW "Invalid daemon configuration: %w" [] err)), p',
            Sample.empty_world, []) /\
    p_db p' = None.
Proof.
  destruct (Init_invalid_configuration (TP := Sample.types) Sample.init_env
              "nowhere" "" NewDaemon Sample.empty_world []) as [Hbad _].
  destruct Hbad as (err & p' & E & _ & Hdb & _).
  - intros ([H|H] & _); discriminate H.
  - exists err, p'. split; [exact E|exact Hdb].
Defined.

Lemma Init_without_info_yaml_witness :
  exists r p' ev,
    Init (TP := Sample.types) Sample.init_env "10.0.0.1:7000" "" NewDaemon
      Sample.empty_world [] = Some (r, p', Sample.empty_world, [] ++ ev) /\
    ~ In LvStartAPI ev /\ r <> Panic.
Proof.
  destruct (Init_without_info_yaml (TP := Sample.types) Sample.init_env
              "10.0.0.1:7000" "" NewDaemon Sample.empty_world [])
    as (r & p' & ev & E & Hs & Hp & _); [discriminate|reflexivity|].
  exists r, p', ev. repeat split; assumption.
Defined.

Section BootstrapErrors.
Context `{TP : TypesPkg}.

(** What [Bootstrap] leaves in the trace: one engine start, and the open
    that follows it when the engine started. *)
Lemma Bootstrap_trace att d cert tr :
  exists ev,
    snd (fst (Bootstrap att d cert tr)) = tr ++ ev /\
    count is_new ev = 1%nat /\ ev <> [].
Proof.
  unfold Bootstrap, Open.
  destruct (att_new att); cbn [fst snd].
  - eexists. split; [reflexivity|]. split; [reflexivity|discriminate].
  - destruct (att_open att) as [e|]; [destruct (errors_Is e ErrGracefulAbort)|];
      cbn [fst snd]; rewrite <- List.app_assoc;
      (eexists; split; [reflexivity|]; split; [reflexivity|discriminate]).
Qed.

(** X27: the error paths of [StartAPI(true)].  Whenever it returns an
    error the membership table is as it was and the engine has been started
    at most once.  A failure to add the local node to the trust store, to
    load the cluster certificate or to add the network endpoint comes
    before the engine is touched; later failures are not rolled back: when
    the engine has started and opened the database, an error of the
    refresh or of the transaction leaves the database open. *)
Theorem StartAPI_bootstrap_errors
    (env : StartEnv) (d : Daemon) (w : World) (d' : Daemon) (w' : World)
    (err : error) :
  StartAPI_bootstrap env d w = Ret (d', w', Some err) ->
  w_members w' = w_members w /\
  (exists ev, w_trace w' = w_trace w ++ ev /\ (count is_new ev <= 1)%nat) /\
  (se_remotesAdd env <> None \/ (exists e, se_LoadClusterCert env = inr e) \/
   se_endpointsAdd env <> None ->
     w' = w /\ d_db d' = d_db d) /\
  (se_remotesAdd env <> None -> d' = d) /\
  (w_trace w' <> w_trace w ->
   att_new (se_bootstrap env) = None -> att_open (se_bootstrap env) = None ->
     IsOpen (d_db d') = true).
Proof.
  unfold StartAPI_bootstrap.
  assert (Hearly : forall (d1 : Daemon) (e : error),
            d_db d1 = d_db d ->
            (se_remotesAdd env <> None -> d1 = d) ->
            Ret (d1, w, Some e) = Ret (d', w', Some err) ->
            w_members w' = w_members w /\
            (exists ev, w_trace w' = w_trace w ++ ev /\ (count is_new ev <= 1)%nat) /\
            (se_remotesAdd env <> None \/ (exists e, se_LoadClusterCert env = inr e) \/
             se_endpointsAdd env <> None ->
               w' = w /\ d_db d' = d_db d) /\
            (se_remotesAdd env <> None -> d' = d) /\
            (w_trace w' <> w_trace w ->
             att_new (se_bootstrap env) = None -> att_open (se_bootstrap env) = None ->
               IsOpen (d_db d') = true)).
  { intros d1 e Hdb Hd H. injection H as <- <- _.
    split; [reflexivity|].
    split; [exists []; rewrite app_nil_r; split; [reflexivity|cbn; lia]|].
    split; [intros _; split; [reflexivity|exact Hdb]|].
    split; [exact Hd|].
    intros Hn. destruct Hn. reflexivity. }
  destruct (ParseAddrPort _); [|apply Hearly; auto].
  destruct (d_serverCert d) as [sc|]; [|discriminate].
  destruct (PublicKeyX509 sc); [|apply Hearly; auto].
  destruct (se_remotesAdd env) as [e|] eqn:Hadd; [apply Hearly; auto|].
  destruct (se_LoadClusterCert env) as [cert|e] eqn:Hload;
    [|apply Hearly; [reflexivity|intros Hn; destruct Hn; reflexivity]].
  destruct (se_endpointsAdd env) as [e|] eqn:Hep;
    [apply Hearly; [reflexivity|intros Hn; destruct Hn; reflexivity]|].
  cbn [d_db set_d_clusterCert].
  destruct (d_db d) as [database|]; [|discriminate].
  destruct (Bootstrap_trace (se_bootstrap env) database
              (ClusterCert (set_d_clusterCert (Some cert) d)) (w_trace w))
    as (ev & Hev & Hcount & Hne).
  destruct (Bootstrap _ _ _ _) as [[database' tr] berr] eqn:Hboot.
  cbn [fst snd] in Hev. subst tr.
  assert (Hlate : forall (rows : list InternalClusterMember) (e : error),
            rows = w_members w ->
            (berr = None) \/ (att_new (se_bootstrap env) <> None \/
                              att_open (se_bootstrap env) <> None) ->
            Ret (set_d_db (Some database') (set_d_clusterCert (Some cert) d),
                 {| w_members := rows; w_trace := w_trace w ++ ev |}, Some e)
              = Ret (d', w', Some err) ->
            w_members w' = w_members w /\
            (exists ev, w_trace w' = w_trace w ++ ev /\ (count is_new ev <= 1)%nat) /\
            (@None error <> None \/ (exists e, @inl CertInfo error cert = inr e) \/
             @None error <> None ->
               w' = w /\ d_db d' = Some database) /\
            (@None error <> None -> d' = d) /\
            (w_trace w' <> w_trace w ->
             att_new (se_bootstrap env) = None -> att_open (se_bootstrap env) = None ->
               IsOpen (d_db d') = true)).
  { intros rows e Hrows Hopen H. injection H as <- <- _. cbn.
    split; [exact Hrows|].
    split; [exists ev; split; [reflexivity|lia]|].
    split; [intros [Hn|[[e0 Hn]|Hn]]; [destruct Hn; reflexivity|discriminate Hn
                                      |destruct Hn; reflexivity]|].
    split; [intros Hn; destruct Hn; reflexivity|].
    intros _ Hnew Hop. destruct Hopen as [->|[Hn|Hn]]; try contradiction.
    apply (Bootstrap_success_is_open _ _ _ _ _ _ Hboot). }
  destruct berr as [e|].
  { apply Hlate; [reflexivity|]. right. revert Hboot. unfold Bootstrap, Open.
    destruct (att_new (se_bootstrap env)); [intros _; left; discriminate|].
    destruct (att_open (se_bootstrap env)); [intros _; right; discriminate|].
    discriminate. }
  destruct (se_Refresh env) as [e|]; [apply Hlate; [reflexivity|left; reflexivity]|].
  unfold Transaction.
  match goal with
  | |- context [CreateClusterMember ?tx ?m] =>
      destruct (CreateClusterMember tx m) as [tx' [id|e]]
  end.
  - destruct (se_commit_err env) as [e|]; [|discriminate].
    apply Hlate; [reflexivity|left; reflexivity].
  - apply Hlate; [reflexivity|left; reflexivity].
Qed.

End BootstrapErrors.

Lemma StartAPI_bootstrap_errors_witness :
  exists d' w' err,
    StartAPI_bootstrap (TP := Sample.types) Sample.stale_env Sample.daemon
      Sample.empty_world = Ret (d', w', Some err) /\
    w_members w' = [] /\
    IsOpen (d_db d') = true.
Proof.
  destruct (StartAPI_bootstrap (TP := Sample.types) Sample.stale_env Sample.daemon
              Sample.empty_world) as [[[d' w'] [err|]]|] eqn:E;
    [|discriminate E|discriminate E].
  destruct (StartAPI_bootstrap_errors (TP := Sample.types) Sample.stale_env
              Sample.daemon Sample.empty_world d' w' err E)
    as (Hrows & _ & _ & _ & Hopen).
  exists d', w', err. split; [reflexivity|]. split; [exact Hrows|].
  apply Hopen; [|reflexivity|reflexivity].
  vm_compute in E. injection E as _ <- _. discriminate.
Defined.

End LifecycleFacts.
